(** * electroparts_Store: the accessibility panel of [js/accessibility.js]

    A shallow embedding of the preference state engine of the second
    script of [js/accessibility.js] (the accessibility panel) and of the
    [announce] helper shared with the first script: the preference object,
    its persistence in [localStorage], the presentation effects on the
    document root, the narration (Web Speech) subsystem, the panel and its
    delegated click handler, and the live-region announcements.

    The browser is modelled as far as the script observes it:
    - JavaScript values with the coercions the script relies on
      (truthiness, conversion to string and to number);
    - [JSON.stringify] and [JSON.parse] on texts;
    - [localStorage] as a fallible string store;
    - the document root ([style.fontSize], [dataset.contrast], [classList]);
    - [speechSynthesis] as a queue of utterances, possibly absent;
    - the listener list of [document];
    - the panel as the tree of controls that [buildPanel] emits.

    The listeners that both scripts of the file set up outside the
    panel (the cart counter, the navigation menu and the observer of
    the section in view) are embedded after the panel, each on the part
    of the page that it reads and writes.

    Numbers are NaN and the decimal numbers, kept exactly: the script
    only counts in units, where this agrees with the doubles of
    JavaScript, and the rounding of doubles is not part of the embedding.
    Strings are sequences of bytes (UTF-8, half of a surrogate pair as
    three bytes); white space is that of Unicode, and a cut counts the
    UTF-16 units of JavaScript. *)

From Stdlib Require Import ZArith Lia Ascii String.
From stdpp Require Import gmap strings list fin_maps pretty.

Open Scope string_scope.
Open Scope Z_scope.

(* ===================================================================== *)
(** * JavaScript values                                                    *)
(* ===================================================================== *)

(** A number: NaN, an integer, or the decimal number [m / 10^k] that is
    no integer ([k] is positive and [m] no multiple of 10 in the
    numbers that the operations below return). *)
Inductive num : Type :=
| NaN
| Int (z : Z)
| Frac (m : Z) (k : nat).

Definition pow10 (k : nat) : Z := 10 ^ Z.of_nat k.

(** The number [m / 10^k], with the trailing zeros of [m] taken off. *)
Fixpoint decimal (m : Z) (k : nat) : num :=
  match k with
  | O => Int m
  | S k' => if m mod 10 =? 0 then decimal (m / 10) k' else Frac m k
  end.

(** Numerator and number of decimals. *)
Definition mantissa (n : num) : option (Z * nat) :=
  match n with
  | NaN => None
  | Int z => Some (z, O)
  | Frac m k => Some (m, k)
  end.

Unset Elimination Schemes.
(** Objects keep their properties in insertion order: the order is what
    [JSON.stringify] prints (an engine lists keys that are array indices
    first; the record of this script has no such key). *)
Inductive value : Type :=
| VUndef
| VNull
| VBool (b : bool)
| VNum (n : num)
| VStr (s : string)
| VArr (elems : list value)
| VObj (props : list (string * value)).
Set Elimination Schemes.

Definition num_eq_dec (a b : num) : {a = b} + {a <> b}.
Proof. decide equality; solve [apply Z.eq_dec | apply Nat.eq_dec]. Defined.

(** [ToBoolean]. *)
Definition truthy (v : value) : bool :=
  match v with
  | VUndef | VNull => false
  | VBool b => b
  | VNum NaN => false
  | VNum (Int z) => negb (z =? 0)
  | VNum (Frac m _) => negb (m =? 0)
  | VStr s => negb (String.eqb s EmptyString)
  | VArr _ | VObj _ => true
  end.

(** [!v]. *)
Definition js_not (v : value) : value := VBool (negb (truthy v)).

(** [a || b]. *)
Definition js_or (a b : value) : value := if truthy a then a else b.

Fixpoint zeros (n : nat) : string :=
  match n with
  | O => EmptyString
  | S n' => String "0" (zeros n')
  end.

(** [Number::toString] in plain decimal notation: the digits before the
    point, and after it the [k] decimals (the exponent notation that
    JavaScript uses for very large and very small numbers is not
    modelled). *)
Definition num_to_string (n : num) : string :=
  match n with
  | NaN => "NaN"
  | Int z => pretty z
  | Frac m k =>
      let a := Z.abs m in
      let f := pretty (a mod pow10 k) in
      (if m <? 0 then "-" else EmptyString)
      ++ pretty (a / pow10 k) ++ "." ++ zeros (k - String.length f) ++ f
  end.

Fixpoint join (sep : string) (l : list string) : string :=
  match l with
  | [] => EmptyString
  | [x] => x
  | x :: r => x ++ sep ++ join sep r
  end.

(** [ToString], as used by template literals, [setAttribute] and string
    concatenation.  An array prints its elements separated by commas,
    with [null] and [undefined] printed as nothing. *)
Fixpoint to_string (v : value) : string :=
  match v with
  | VUndef => "undefined"
  | VNull => "null"
  | VBool true => "true"
  | VBool false => "false"
  | VNum n => num_to_string n
  | VStr s => s
  | VArr l =>
      join "," (List.map (fun x => match x with
                                   | VUndef | VNull => EmptyString
                                   | _ => to_string x
                                   end) l)
  | VObj _ => "[object Object]"
  end.

(** The white space of JavaScript, which [String.prototype.trim] removes
    and [parseInt] skips, in UTF-8: the six ASCII characters; the
    no-break space, of two bytes; and, of three bytes each, U+1680,
    U+2000 to U+200A, the line and paragraph separators, U+202F, U+205F,
    U+3000 and U+FEFF. *)
Definition white1 (a : nat) : bool :=
  ((a =? 32) || (a =? 9) || (a =? 10) || (a =? 11) || (a =? 12) || (a =? 13))%nat.

Definition white2 (a b : nat) : bool := ((a =? 194) && (b =? 160))%nat.

Definition white3 (a b c : nat) : bool :=
  (((a =? 225) && (b =? 154) && (c =? 128))
   || ((a =? 226) && (b =? 128)
       && (((128 <=? c) && (c <=? 138)) || (c =? 168) || (c =? 169) || (c =? 175)))
   || ((a =? 226) && (b =? 129) && (c =? 159))
   || ((a =? 227) && (b =? 128) && (c =? 128))
   || ((a =? 239) && (b =? 187) && (c =? 191)))%nat.

(** The number of bytes of the white-space character that the text
    begins with, 0 when it begins with none. *)
Definition white_head (cs : list ascii) : nat :=
  match List.map nat_of_ascii (firstn 3 cs) with
  | a :: r =>
      if white1 a then 1
      else match r with
           | b :: r' =>
               if white2 a b then 2
               else match r' with
                    | c :: _ => if white3 a b c then 3 else 0
                    | [] => 0
                    end
           | [] => 0
           end
  | [] => 0
  end%nat.

(** The same at the end of a text, read backwards: [rcs] is the text
    reversed. *)
Definition white_tail (rcs : list ascii) : nat :=
  match List.map nat_of_ascii (firstn 3 rcs) with
  | c :: r =>
      if white1 c then 1
      else match r with
           | b :: r' =>
               if white2 b c then 2
               else match r' with
                    | a :: _ => if white3 a b c then 3 else 0
                    | [] => 0
                    end
           | [] => 0
           end
  | [] => 0
  end%nat.

(** Drops white-space characters while [head] finds one; [fuel] is the
    length of the text. *)
Fixpoint drop_white (head : list ascii -> nat) (fuel : nat) (cs : list ascii)
  : list ascii :=
  match fuel with
  | O => cs
  | S fuel' =>
      match head cs with
      | O => cs
      | n => drop_white head fuel' (skipn n cs)
      end
  end.

Definition skip_white (cs : list ascii) : list ascii :=
  drop_white white_head (List.length cs) cs.

(** [s.trim()], Unicode white space included. *)
Definition js_trim (s : string) : string :=
  let rcs := List.rev (skip_white (list_ascii_of_string s)) in
  string_of_list_ascii (List.rev (drop_white white_tail (List.length rcs) rcs)).

(** The UTF-16 units that the character beginning with the byte [c]
    takes in a string of JavaScript: two for a character of four bytes,
    one for a shorter one; a continuation byte begins no character. *)
Definition units_of (c : ascii) : nat :=
  let n := nat_of_ascii c in
  if ((128 <=? n) && (n <? 192))%nat then 0%nat
  else if (240 <=? n)%nat then 2%nat
  else 1%nat.

(** A text of ASCII characters. *)
Definition ascii_text (s : string) : bool :=
  forallb (fun c => (nat_of_ascii c <? 128)%nat) (list_ascii_of_string s).

(** [s.length]: the number of UTF-16 units of the text. *)
Fixpoint js_length (s : string) : nat :=
  match s with
  | EmptyString => 0%nat
  | String c r => (units_of c + js_length r)%nat
  end.

(** The first unit (the high surrogate) of the character of four bytes
    that begins with [a], [b] and [c], written like a character of three
    bytes: what a cut between the two units of the character leaves. *)
Definition high_half (a b c : ascii) : string :=
  let x := (((nat_of_ascii a - 240) * 256 + (nat_of_ascii b - 128) * 4
             + (nat_of_ascii c - 128) / 16 - 64) mod 1024)%nat in
  String (ascii_of_nat 237)
    (String (ascii_of_nat (160 + x / 64))
       (String (ascii_of_nat (128 + x mod 64)) EmptyString)).

(** [s.slice(0, n)]: the first [n] UTF-16 units of the text.  A
    character is taken while its units fit; the continuation bytes
    follow the first byte of their character. *)
Fixpoint slice0 (n : nat) (s : string) : string :=
  match s with
  | EmptyString => EmptyString
  | String a r =>
      match units_of a, n with
      | O, _ => String a (slice0 n r)
      | S O, S n' => String a (slice0 n' r)
      | S (S _), S (S n') => String a (slice0 n' r)
      | S (S _), S O =>
          match r with
          | String b (String c _) => high_half a b c
          | _ => EmptyString
          end
      | _, O => EmptyString
      end
  end.

Definition to_lower_char (c : ascii) : ascii :=
  let n := nat_of_ascii c in
  if ((65 <=? n)%nat && (n <=? 90)%nat)%bool then ascii_of_nat (n + 32) else c.

Fixpoint toLowerCase (s : string) : string :=
  match s with
  | EmptyString => EmptyString
  | String c r => String (to_lower_char c) (toLowerCase r)
  end.

Definition is_digit (c : ascii) : bool :=
  let n := nat_of_ascii c in ((48 <=? n)%nat && (n <=? 57)%nat)%bool.

Definition digit_val (c : ascii) : Z := Z.of_nat (nat_of_ascii c) - 48.

(** Reads a run of decimal digits: [m] becomes the number with the
    digits appended and [k] counts them. *)
Fixpoint read_digits (m : Z) (k : nat) (cs : list ascii) : Z * nat * list ascii :=
  match cs with
  | c :: r => if is_digit c then read_digits (10 * m + digit_val c) (S k) r else (m, k, cs)
  | [] => (m, k, [])
  end.

(** An optional exponent part, [e] or [E], an optional sign and at least
    one digit: its value (0 when there is none) and the rest; [None]
    when the part is begun and not finished. *)
Definition exp_part (cs : list ascii) : option (Z * list ascii) :=
  match cs with
  | c :: r =>
      if (nat_of_ascii c =? 101)%nat || (nat_of_ascii c =? 69)%nat then
        let signed :=
          match r with
          | s :: r' =>
              if (nat_of_ascii s =? 45)%nat then (true, r')
              else if (nat_of_ascii s =? 43)%nat then (false, r')
              else (false, r)
          | [] => (false, [])
          end in
        match read_digits 0 0 (snd signed) with
        | (_, O, _) => None
        | (e, S _, rest) => Some (if fst signed then - e else e, rest)
        end
      else Some (0, cs)
  | [] => Some (0, [])
  end.

(** The number [(-1)^neg * m * 10^(e - k)]. *)
Definition scaled (neg : bool) (m : Z) (k : nat) (e : Z) : num :=
  let m := if neg then - m else m in
  if Z.of_nat k <=? e then Int (m * 10 ^ (e - Z.of_nat k))
  else decimal m (Z.to_nat (Z.of_nat k - e)).

(** An unsigned decimal literal of [StringToNumber]: digits, an optional
    point and more digits, with a digit somewhere, and an optional
    exponent; nothing may follow. *)
Definition unsigned_literal (neg : bool) (cs : list ascii) : num :=
  match read_digits 0 0 cs with
  | (a, n, rest) =>
      let parts :=
        match rest with
        | c :: r => if (nat_of_ascii c =? 46)%nat then read_digits a 0 r else (a, O, rest)
        | [] => (a, O, [])
        end in
      match parts with
      | (m, k, rest') =>
          if (n + k =? 0)%nat then NaN
          else match exp_part rest' with
               | Some (e, []) => scaled neg m k e
               | _ => NaN
               end
      end
  end.

(** [StringToNumber] on decimal numerals: surrounding white space is
    dropped, the empty string is 0, an optionally signed decimal literal
    is its value; every other string is mapped to NaN (numerals with a
    radix prefix and [Infinity] are not modelled). *)
Definition string_to_num (s : string) : num :=
  match list_ascii_of_string (js_trim s) with
  | [] => Int 0
  | c :: r =>
      if (nat_of_ascii c =? 45)%nat then unsigned_literal true r
      else if (nat_of_ascii c =? 43)%nat then unsigned_literal false r
      else unsigned_literal false (c :: r)
  end.

(** [ToNumber]; arrays and objects go through their string form. *)
Definition to_number (v : value) : num :=
  match v with
  | VUndef => NaN
  | VNull => Int 0
  | VBool true => Int 1
  | VBool false => Int 0
  | VNum n => n
  | VStr s => string_to_num s
  | VArr _ | VObj _ => string_to_num (to_string v)
  end.

(** [a + b] on numbers. *)
Definition num_add (a b : num) : num :=
  match a, b with
  | Int x, Int y => Int (x + y)
  | _, _ =>
      match mantissa a, mantissa b with
      | Some (x, j), Some (y, k) =>
          let K := Nat.max j k in
          decimal (x * pow10 (K - j) + y * pow10 (K - k)) K
      | _, _ => NaN
      end
  end.

(** [a * b]. *)
Definition num_mul (a b : num) : num :=
  match a, b with
  | Int x, Int y => Int (x * y)
  | _, _ =>
      match mantissa a, mantissa b with
      | Some (x, j), Some (y, k) => decimal (x * y) (j + k)
      | _, _ => NaN
      end
  end.

(** [a >= k], [a <= k] and [a > k] against an integer: false on NaN. *)
Definition num_geb (a : num) (k : Z) : bool :=
  match a with
  | Int x => k <=? x
  | Frac m j => k * pow10 j <=? m
  | NaN => false
  end.
Definition num_leb (a : num) (k : Z) : bool :=
  match a with
  | Int x => x <=? k
  | Frac m j => m <=? k * pow10 j
  | NaN => false
  end.
Definition num_gtb (a : num) (k : Z) : bool :=
  match a with
  | Int x => k <? x
  | Frac m j => k * pow10 j <? m
  | NaN => false
  end.

(** [v === "s"]: strict equality with a string. *)
Definition strict_eq_str (v : value) (s : string) : bool :=
  match v with
  | VStr t => String.eqb t s
  | _ => false
  end.

(** [v === k]: strict equality with a number. *)
Definition strict_eq_num (v : value) (k : Z) : bool :=
  match v with
  | VNum (Int z) => z =? k
  | _ => false
  end.

(* ===================================================================== *)
(** * Objects                                                              *)
(* ===================================================================== *)

Definition obj := list (string * value).

(** [o.k]: the own property, [undefined] when there is none. *)
Fixpoint get_prop (k : string) (o : obj) : value :=
  match o with
  | [] => VUndef
  | (k', v) :: r => if String.eqb k k' then v else get_prop k r
  end.

Fixpoint has_prop (k : string) (o : obj) : bool :=
  match o with
  | [] => false
  | (k', _) :: r => String.eqb k k' || has_prop k r
  end.

(** [CreateDataProperty]: an existing property keeps its place and takes
    the new value, a new one goes last. *)
Fixpoint define_prop (k : string) (v : value) (o : obj) : obj :=
  match o with
  | [] => [(k, v)]
  | (k', v') :: r =>
      if String.eqb k k' then (k', v) :: r else (k', v') :: define_prop k v r
  end.

(** [o[k] = v] on a plain object.  Assigning to [__proto__] runs the
    accessor of [Object.prototype] and creates no own property. *)
Definition set_prop (k : string) (v : value) (o : obj) : obj :=
  if String.eqb k "__proto__" then o else define_prop k v o.

Fixpoint index_props {A} (f : A -> value) (i : nat) (l : list A) : obj :=
  match l with
  | [] => []
  | x :: r => (pretty (Z.of_nat i), f x) :: index_props f (S i) r
  end.

(** The own enumerable properties [Object.assign] reads from a source:
    those of an object, the indexed elements of an array, the indexed
    characters of a string, none for the other primitives. *)
Definition own_props (v : value) : obj :=
  match v with
  | VObj ps => ps
  | VArr l => index_props (fun x => x) 0 l
  | VStr s => index_props (fun c => VStr (String c EmptyString)) 0 (list_ascii_of_string s)
  | _ => []
  end.

Definition assign1 (target : obj) (source : value) : obj :=
  fold_left (fun t kv => set_prop (fst kv) (snd kv) t) (own_props source) target.

(** [Object.assign(target, ...sources)]. *)
Definition Object_assign (target : obj) (sources : list value) : obj :=
  fold_left assign1 sources target.

(* ===================================================================== *)
(** * JSON                                                                 *)
(* ===================================================================== *)

(** The double quote character, as a string. *)
Definition dquote : string := String (ascii_of_nat 34) EmptyString.

Definition hex_digit (n : nat) : ascii :=
  if (n <? 10)%nat then ascii_of_nat (48 + n) else ascii_of_nat (87 + n).

(** One character inside a JSON string literal. *)
Definition quote_char (c : ascii) : string :=
  let n := nat_of_ascii c in
  if (n =? 34)%nat then "\" ++ dquote
  else if (n =? 92)%nat then "\\"
  else if (n =? 8)%nat then "\b"
  else if (n =? 12)%nat then "\f"
  else if (n =? 10)%nat then "\n"
  else if (n =? 13)%nat then "\r"
  else if (n =? 9)%nat then "\t"
  else if (n <? 32)%nat then
    "\u00" ++ String (hex_digit (n / 16)) (String (hex_digit (n mod 16)) EmptyString)
  else String c EmptyString.

Fixpoint quote_body (s : string) : string :=
  match s with
  | EmptyString => EmptyString
  | String c r => quote_char c ++ quote_body r
  end.

Definition quote (s : string) : string := dquote ++ quote_body s ++ dquote.

(** [JSON.stringify(v)]; [None] is the result [undefined].  A property
    whose value is [undefined] is left out, an array element that is
    [undefined] prints as [null], and so does NaN.  The members of an
    object are printed in the order of the list, which is the order of
    an engine when no key is an array index (an engine puts such keys
    first); the record of the script has none. *)
Fixpoint JSON_stringify (v : value) : option string :=
  match v with
  | VUndef => None
  | VNull => Some "null"
  | VBool true => Some "true"
  | VBool false => Some "false"
  | VNum NaN => Some "null"
  | VNum n => Some (num_to_string n)
  | VStr s => Some (quote s)
  | VArr l =>
      Some ("[" ++ join "," (List.map (fun x => match JSON_stringify x with
                                                | Some t => t
                                                | None => "null"
                                                end) l) ++ "]")
  | VObj ps =>
      Some ("{" ++ join "," (List.flat_map
                               (fun kv => match JSON_stringify (snd kv) with
                                          | Some t => [quote (fst kv) ++ ":" ++ t]
                                          | None => []
                                          end) ps) ++ "}")
  end.

(** JSON white space. *)
Definition is_json_ws (c : ascii) : bool :=
  let n := nat_of_ascii c in
  (n =? 32)%nat || (n =? 9)%nat || (n =? 10)%nat || (n =? 13)%nat.

Fixpoint skip_ws (cs : list ascii) : list ascii :=
  match cs with
  | c :: r => if is_json_ws c then skip_ws r else cs
  | [] => []
  end.

Definition hex_val (c : ascii) : option nat :=
  let n := nat_of_ascii c in
  if ((48 <=? n)%nat && (n <=? 57)%nat)%bool then Some (n - 48)%nat
  else if ((97 <=? n)%nat && (n <=? 102)%nat)%bool then Some (n - 87)%nat
  else if ((65 <=? n)%nat && (n <=? 70)%nat)%bool then Some (n - 55)%nat
  else None.

(** The character that a one-letter escape stands for. *)
Definition unescape (e : ascii) : option ascii :=
  let n := nat_of_ascii e in
  if (n =? 34)%nat || (n =? 92)%nat || (n =? 47)%nat then Some e
  else if (n =? 98)%nat then Some (ascii_of_nat 8)
  else if (n =? 102)%nat then Some (ascii_of_nat 12)
  else if (n =? 110)%nat then Some (ascii_of_nat 10)
  else if (n =? 114)%nat then Some (ascii_of_nat 13)
  else if (n =? 116)%nat then Some (ascii_of_nat 9)
  else None.

(** The bytes that stand for the code unit [n] of a [\u] escape (each
    escape on its own, the two halves of a surrogate pair too). *)
Definition utf8 (n : nat) : string :=
  if (n <? 128)%nat then String (ascii_of_nat n) EmptyString
  else if (n <? 2048)%nat then
    String (ascii_of_nat (192 + n / 64))
      (String (ascii_of_nat (128 + n mod 64)) EmptyString)
  else
    String (ascii_of_nat (224 + n / 4096))
      (String (ascii_of_nat (128 + (n / 64) mod 64))
         (String (ascii_of_nat (128 + n mod 64)) EmptyString)).

(** The characters of a string literal after its opening quote, up to the
    closing quote. *)
Fixpoint parse_chars (cs : list ascii) : option (string * list ascii) :=
  match cs with
  | [] => None
  | c :: r =>
      if (nat_of_ascii c =? 34)%nat then Some (EmptyString, r)
      else if (nat_of_ascii c =? 92)%nat then
        match r with
        | e :: r1 =>
            let cont (x : string) (rest : option (string * list ascii)) :=
              match rest with
              | Some (s, r') => Some (x ++ s, r')
              | None => None
              end in
            if (nat_of_ascii e =? 117)%nat then
              match r1 with
              | a :: b :: c1 :: d :: r2 =>
                  match hex_val a, hex_val b, hex_val c1, hex_val d with
                  | Some h3, Some h2, Some h1, Some h0 =>
                      cont (utf8 (4096 * h3 + 256 * h2 + 16 * h1 + h0)) (parse_chars r2)
                  | _, _, _, _ => None
                  end
              | _ => None
              end
            else
              match unescape e with
              | Some x => cont (String x EmptyString) (parse_chars r1)
              | None => None
              end
        | [] => None
        end
      else if (nat_of_ascii c <? 32)%nat then None
      else
        match parse_chars r with
        | Some (s, r') => Some (String c s, r')
        | None => None
        end
  end.

(** The integer part of a JSON number: [0], or a run of digits that does
    not begin with 0. *)
Definition int_part (cs : list ascii) : option (Z * list ascii) :=
  match cs with
  | c :: r =>
      if (nat_of_ascii c =? 48)%nat then Some (0, r)
      else if is_digit c then
        match read_digits 0 0 cs with
        | (a, _, rest) => Some (a, rest)
        end
      else None
  | [] => None
  end.

(** The optional fraction part of a JSON number, a point and at least
    one digit, read onto the integer part [a]. *)
Definition frac_part (a : Z) (cs : list ascii) : option (Z * nat * list ascii) :=
  match cs with
  | c :: r =>
      if (nat_of_ascii c =? 46)%nat then
        match read_digits a 0 r with
        | (_, O, _) => None
        | (m, S k, rest) => Some (m, S k, rest)
        end
      else Some (a, O, cs)
  | [] => Some (a, O, [])
  end.

(** A JSON number: an optional minus sign, the integer part, an optional
    fraction and an optional exponent. *)
Definition parse_number (cs : list ascii) : option (value * list ascii) :=
  let signed :=
    match cs with
    | c :: r => if (nat_of_ascii c =? 45)%nat then (true, r) else (false, cs)
    | [] => (false, [])
    end in
  match int_part (snd signed) with
  | Some (a, r1) =>
      match frac_part a r1 with
      | Some (m, k, r2) =>
          match exp_part r2 with
          | Some (e, r3) => Some (VNum (scaled (fst signed) m k e), r3)
          | None => None
          end
      | None => None
      end
  | None => None
  end.

Fixpoint expect (w : list ascii) (cs : list ascii) : option (list ascii) :=
  match w, cs with
  | [], _ => Some cs
  | a :: w', c :: r => if Ascii.eqb a c then expect w' r else None
  | _ :: _, [] => None
  end.

Inductive pmode : Type :=
| PValue
| PElems (acc : list value)
| PMembers (acc : obj).

(** Recursive descent over the text.  [PValue] reads one value; [PElems]
    and [PMembers] read the rest of an array or object whose opening
    bracket and earlier entries are behind.  Every call spends one unit
    of [fuel]. *)
Fixpoint parse_json (fuel : nat) (m : pmode) (cs : list ascii)
  : option (value * list ascii) :=
  match fuel with
  | O => None
  | S fuel =>
      match m with
      | PValue =>
          match skip_ws cs with
          | [] => None
          | c :: r =>
              let n := nat_of_ascii c in
              if (n =? 123)%nat then
                match skip_ws r with
                | c' :: r' =>
                    if (nat_of_ascii c' =? 125)%nat then Some (VObj [], r')
                    else parse_json fuel (PMembers []) (c' :: r')
                | [] => None
                end
              else if (n =? 91)%nat then
                match skip_ws r with
                | c' :: r' =>
                    if (nat_of_ascii c' =? 93)%nat then Some (VArr [], r')
                    else parse_json fuel (PElems []) (c' :: r')
                | [] => None
                end
              else if (n =? 34)%nat then
                match parse_chars r with
                | Some (s, r') => Some (VStr s, r')
                | None => None
                end
              else if (n =? 116)%nat then
                match expect (list_ascii_of_string "rue") r with
                | Some r' => Some (VBool true, r')
                | None => None
                end
              else if (n =? 102)%nat then
                match expect (list_ascii_of_string "alse") r with
                | Some r' => Some (VBool false, r')
                | None => None
                end
              else if (n =? 110)%nat then
                match expect (list_ascii_of_string "ull") r with
                | Some r' => Some (VNull, r')
                | None => None
                end
              else parse_number (c :: r)
          end
      | PElems acc =>
          match parse_json fuel PValue cs with
          | Some (v, r) =>
              match skip_ws r with
              | c :: r' =>
                  if (nat_of_ascii c =? 44)%nat then parse_json fuel (PElems (acc ++ [v])) r'
                  else if (nat_of_ascii c =? 93)%nat then Some (VArr (acc ++ [v]), r')
                  else None
              | [] => None
              end
          | None => None
          end
      | PMembers acc =>
          match skip_ws cs with
          | q :: r =>
              if (nat_of_ascii q =? 34)%nat then
                match parse_chars r with
                | Some (k, r1) =>
                    match skip_ws r1 with
                    | colon :: r2 =>
                        if (nat_of_ascii colon =? 58)%nat then
                          match parse_json fuel PValue r2 with
                          | Some (v, r3) =>
                              match skip_ws r3 with
                              | c :: r4 =>
                                  if (nat_of_ascii c =? 44)%nat then
                                    parse_json fuel (PMembers (define_prop k v acc)) r4
                                  else if (nat_of_ascii c =? 125)%nat then
                                    Some (VObj (define_prop k v acc), r4)
                                  else None
                              | [] => None
                              end
                          | None => None
                          end
                        else None
                    | [] => None
                    end
                | None => None
                end
              else None
          | [] => None
          end
      end
  end.

(** [JSON.parse(text)]; [None] is a [SyntaxError].  Each call of
    [parse_json] either fails or is followed by a call on a shorter
    rest after at most one more call, so twice the length of the text is
    fuel enough. *)
Definition JSON_parse (text : string) : option value :=
  let cs := list_ascii_of_string text in
  match parse_json (2 * List.length cs + 2) PValue cs with
  | Some (v, r) => match skip_ws r with [] => Some v | _ :: _ => None end
  | None => None
  end.

(* ===================================================================== *)
(** * localStorage                                                         *)
(* ===================================================================== *)

(** The storage service is fallible: access is refused altogether when
    [st_denied] (a [SecurityError]), and a write is refused when the text
    is longer than the room left, [st_room] (a [QuotaExceededError]). *)
Record Storage : Type := mkStorage {
  st_denied : bool;
  st_room : nat;
  st_items : gmap string string
}.

(** [localStorage.getItem(k)]: [None] is an exception, [Some VNull] an
    absent key. *)
Definition getItem (k : string) (st : Storage) : option value :=
  if st_denied st then None
  else match st_items st !! k with
       | Some t => Some (VStr t)
       | None => Some VNull
       end.

(** [localStorage.setItem(k, t)]: [None] is an exception. *)
Definition setItem (k t : string) (st : Storage) : option Storage :=
  if st_denied st then None
  else if (st_room st <? String.length t)%nat then None
  else Some {| st_denied := st_denied st; st_room := st_room st;
               st_items := <[k := t]> (st_items st) |}.

Definition storage_key : string := "ep_a11y".

(** [function savePrefs(p)]: the exception of a refused write is
    swallowed. *)
Definition savePrefs (p : obj) (st : Storage) : Storage :=
  let text := match JSON_stringify (VObj p) with
              | Some t => t
              | None => "undefined"
              end in
  match setItem storage_key text st with
  | Some st' => st'
  | None => st
  end.

(** [function loadPrefs()]: [JSON.parse] converts its argument to a
    string first, so an absent key is parsed as the text [null]. *)
Definition loadPrefs (st : Storage) : value :=
  match getItem storage_key st with
  | None => VObj []
  | Some raw =>
      match JSON_parse (to_string raw) with
      | Some v => js_or v (VObj [])
      | None => VObj []
      end
  end.

(* ===================================================================== *)
(** * State: the preference object                                         *)
(* ===================================================================== *)

Definition defaults : obj :=
  [ ("fontScale", VNum (Int 0));
    ("contrast", VStr "normal");
    ("spacing", VBool false);
    ("dyslexia", VBool false);
    ("highlightLinks", VBool false);
    ("bigCursor", VBool false);
    ("readerEnabled", VBool false) ].

(** [let prefs = Object.assign({}, defaults, loadPrefs())]. *)
Definition initial_prefs (st : Storage) : obj :=
  Object_assign [] [VObj defaults; loadPrefs st].

(* ===================================================================== *)
(** * Presentation effects on the document root                            *)
(* ===================================================================== *)

(** The root element as the script writes it.  [fontSize] is the length
    in tenths of a rem: [(1 + s * 0.1) + 'rem'] is [10 + s] tenths. *)
Record Root : Type := mkRoot {
  fontSize : option num;
  data_contrast : option string;
  classList : gset string
}.

(** [classList.toggle(token, force)].  An [undefined] second argument
    counts as not given, and the token is flipped. *)
Definition classList_toggle (token : string) (force : value) (cl : gset string)
  : gset string :=
  match force with
  | VUndef => if decide (token ∈ cl) then cl ∖ {[token]} else cl ∪ {[token]}
  | _ => if truthy force then cl ∪ {[token]} else cl ∖ {[token]}
  end.

(** [function applyFontScale(s)].  The style declaration keeps its old
    value when the text assigned is no length: a NaN or negative number
    of rem. *)
Definition applyFontScale (s : value) (html : Root) : Root :=
  let tenths := num_add (Int 10) (to_number s) in
  if num_geb tenths 0
  then {| fontSize := Some tenths; data_contrast := data_contrast html;
          classList := classList html |}
  else html.

(** [function applyContrast(m)]. *)
Definition applyContrast (m : value) (html : Root) : Root :=
  {| fontSize := fontSize html; data_contrast := Some (to_string m);
     classList := classList html |}.

Definition toggle_root_class (token : string) (on : value) (html : Root) : Root :=
  {| fontSize := fontSize html; data_contrast := data_contrast html;
     classList := classList_toggle token on (classList html) |}.

(** [function applySpacing(on)] and its three siblings. *)
Definition applySpacing := toggle_root_class "a11y-spacing".
Definition applyDyslexia := toggle_root_class "a11y-dyslexia".
Definition applyHighlightLinks := toggle_root_class "a11y-highlight-links".
Definition applyBigCursor := toggle_root_class "a11y-big-cursor".

(** [function applyAll(p)]. *)
Definition applyAll (p : obj) (html : Root) : Root :=
  let html := applyFontScale (get_prop "fontScale" p) html in
  let html := applyContrast (get_prop "contrast" p) html in
  let html := applySpacing (get_prop "spacing" p) html in
  let html := applyDyslexia (get_prop "dyslexia" p) html in
  let html := applyHighlightLinks (get_prop "highlightLinks" p) html in
  applyBigCursor (get_prop "bigCursor" p) html.

(* ===================================================================== *)
(** * Page elements and their labels                                       *)
(* ===================================================================== *)

(** An element of the page as [getLabel] reads it.  [tagName] is in upper
    case, as the DOM reports it for HTML elements; [textContent] is the
    text of the element and its descendants; [placeholder] and [el_type]
    are the reflected properties of an input. *)
Record Element : Type := mkElement {
  tagName : string;
  el_id : string;
  attributes : gmap string string;
  textContent : string;
  placeholder : string;
  el_type : string
}.

(** [el.getAttribute(name)]; [None] is [null]. *)
Definition getAttribute (name : string) (el : Element) : option string :=
  attributes el !! name.

(** Truthiness of an attribute read: present and not empty. *)
Definition nonempty (o : option string) : bool :=
  match o with
  | Some s => negb (String.eqb s EmptyString)
  | None => false
  end.

(** [document.getElementById(id)]: the first element, in document order,
    with that id. *)
Definition getElementById (id : string) (page : list Element) : option Element :=
  if String.eqb id EmptyString then None
  else List.find (fun e => String.eqb (el_id e) id) page.

(** An id that reads as itself between the quotes of a selector text:
    ASCII characters with no quote, no backslash, no line break, no
    form feed and no NUL. *)
Definition selector_safe (id : string) : bool :=
  ascii_text id
  && forallb (fun c => let n := nat_of_ascii c in
                       negb ((n =? 0) || (n =? 10) || (n =? 12) || (n =? 13)
                             || (n =? 34) || (n =? 92))%nat)
       (list_ascii_of_string id).

(** [$('label[for="' + id + '"]')] for a [selector_safe] id: the first
    [label] element whose [for] attribute is [id].  With another id the
    text is another selector, or none ([querySelector] throws); the
    statements about labels are made for safe ids. *)
Definition query_label_for (id : string) (page : list Element) : option Element :=
  List.find (fun e => String.eqb (tagName e) "LABEL"
                      && match getAttribute "for" e with
                         | Some f => String.eqb f id
                         | None => false
                         end) page.

(** [a || b] on strings. *)
Definition str_or (a b : string) : string :=
  if String.eqb a EmptyString then b else a.

(** [function getLabel(el)]. *)
Definition getLabel (page : list Element) (el : Element) : string :=
  if nonempty (getAttribute "aria-label" el) then
    default EmptyString (getAttribute "aria-label" el)
  else
    let by_ref :=
      if nonempty (getAttribute "aria-labelledby" el) then
        match getElementById (default EmptyString (getAttribute "aria-labelledby" el)) page with
        | Some ref => Some (js_trim (textContent ref))
        | None => None
        end
      else None in
    match by_ref with
    | Some l => l
    | None =>
        if String.eqb (tagName el) "IMG" then
          str_or (default EmptyString (getAttribute "alt" el)) "imagen"
        else if String.eqb (tagName el) "INPUT" then
          match query_label_for (el_id el) page with
          | Some lbl => js_trim (textContent lbl)
          | None => str_or (placeholder el) (str_or (el_type el) "campo")
          end
        else
          str_or (slice0 180 (js_trim (textContent el))) (toLowerCase (tagName el))
    end.

(** The heading test of [readerFocus]: [tag.match(/^h([1-6])$/)], giving
    the level digit. *)
Definition heading_level (tag : string) : option string :=
  match tag with
  | String h (String d EmptyString) =>
      if Ascii.eqb h "h"%char
         && (49 <=? nat_of_ascii d)%nat && (nat_of_ascii d <=? 54)%nat
      then Some (String d EmptyString) else None
  | _ => None
  end.

(** The prefix [readerFocus] puts before the label. *)
Definition reader_prefix (el : Element) : string :=
  let tag := toLowerCase (tagName el) in
  match heading_level tag with
  | Some d => "Encabezado nivel " ++ d ++ ": "
  | None =>
      if String.eqb tag "a" then "Enlace: "
      else if String.eqb tag "button" then "Botón: "
      else if String.eqb tag "select" then "Selector: "
      else if String.eqb tag "input" then "Campo " ++ el_type el ++ ": "
      else EmptyString
  end.

(** The selector of [readerHover]:
    [a,button,h1,...,h6,p,li,img,input,select,textarea,[role]]. *)
Definition hover_match (el : Element) : bool :=
  bool_decide (toLowerCase (tagName el) ∈
    ["a"; "button"; "h1"; "h2"; "h3"; "h4"; "h5"; "h6"; "p"; "li"; "img";
     "input"; "select"; "textarea"])
  || bool_decide (is_Some (getAttribute "role" el)).

(* ===================================================================== *)
(** * Speech synthesis                                                     *)
(* ===================================================================== *)

(** An utterance; [u_rate] is in hundredths. *)
Record Utterance : Type := mkUtterance {
  u_text : string;
  u_lang : string;
  u_rate : Z
}.

(** [window.speechSynthesis]: absent, or the queue of the utterances
    submitted and not finished, the one being spoken first. *)
Definition Synth := option (list Utterance).

(** [speechSynthesis.cancel()] empties the queue. *)
Definition synth_cancel (q : list Utterance) : list Utterance := [].

(** [speechSynthesis.speak(u)] puts [u] at the end of the queue. *)
Definition synth_speak (u : Utterance) (q : list Utterance) : list Utterance :=
  q ++ [u].

(** [function stopSpeech()]. *)
Definition stopSpeech (sy : Synth) : Synth :=
  match sy with
  | Some q => Some (synth_cancel q)
  | None => None
  end.

(** [function speak(text, force)], given [readerActive]. *)
Definition speak (readerActive : bool) (text : string) (force : bool) (sy : Synth)
  : Synth :=
  if negb readerActive && negb force then sy
  else match sy with
       | None => None
       | Some _ =>
           match stopSpeech sy with
           | Some q =>
               Some (synth_speak {| u_text := text; u_lang := "es-ES"; u_rate := 95 |} q)
           | None => None
           end
       end.

(** Utterances in flight: submitted and neither finished nor cancelled. *)
Definition in_flight (sy : Synth) : nat :=
  match sy with
  | Some q => List.length q
  | None => 0%nat
  end.

(* ===================================================================== *)
(** * The panel                                                            *)
(* ===================================================================== *)

(** [function fontLabel(s)]. *)
Definition fontLabel (s : value) : string :=
  let pct := num_add (Int 100) (num_mul (to_number s) (Int 10)) in
  if strict_eq_num s 0 then "Normal (100%)"
  else (if num_gtb (to_number s) 0 then "+" else EmptyString)
       ++ num_to_string (num_mul (to_number s) (Int 10))
       ++ "% (" ++ num_to_string pct ++ "%)".

(** A button of the panel: its id (empty when it has none), class list,
    [data-action] and [data-value], [aria-pressed], [disabled], and the
    text of its [.a11y-toggle-label] child (the toggles have one). *)
Record Button : Type := mkButton {
  b_id : string;
  b_class : gset string;
  b_action : option string;
  b_value : option string;
  b_pressed : option string;
  b_disabled : bool;
  b_label : string
}.

(** [function buildToggle(id, action, active)].  The template prints
    [active] into the markup as it is, unescaped; the attribute reads
    back as that text for a boolean, as for any value whose text has no
    quote and no ampersand.  A stored text with a quote could close the
    attribute and bring attributes and elements of its own: the button
    below is the one built for a boolean, and the statements that read
    the buttons of the panel after a page load take the five toggle
    fields to hold booleans ([booleans]). *)
Definition buildToggle (id action : string) (active : value) : Button :=
  {| b_id := id;
     b_class := if truthy active then {["a11y-toggle"; "is-active"]} else {["a11y-toggle"]};
     b_action := Some action;
     b_value := None;
     b_pressed := Some (to_string active);
     b_disabled := false;
     b_label := if truthy active then "Activado" else "Desactivado" |}.

Definition buildStepper (id action : string) (disabled : bool) : Button :=
  {| b_id := id; b_class := {["a11y-stepper"]}; b_action := Some action;
     b_value := None; b_pressed := None; b_disabled := disabled;
     b_label := EmptyString |}.

(** One button of the contrast grid, for the mode [key]. *)
Definition buildContrast (contrast : value) (key : string) : Button :=
  {| b_id := EmptyString;
     b_class := if strict_eq_str contrast key
                then {["a11y-contrast-btn"; "is-active"]} else {["a11y-contrast-btn"]};
     b_action := Some "contrast";
     b_value := Some key;
     b_pressed := Some (if strict_eq_str contrast key then "true" else "false");
     b_disabled := false;
     b_label := EmptyString |}.

Definition contrasts : list string := ["normal"; "high"; "dark"; "invert"].

Fixpoint spaces (n : nat) : string :=
  match n with
  | O => EmptyString
  | S n' => String " " (spaces n')
  end.

(** The text of [#font-val] as the template of [buildPanel] lays it out:
    the label on a line of its own, between the indentation of the
    markup. *)
Definition font_val_markup (label : string) : string :=
  String (ascii_of_nat 10) (spaces 12) ++ label ++ String (ascii_of_nat 10) (spaces 10).

(** The floating button: [aria-label], [aria-expanded]. *)
Record Fab : Type := mkFab {
  fab_aria_label : string;
  fab_expanded : string
}.

(** The panel element: [hidden], its class list, its buttons in document
    order, the text of [#font-val], whether the delegated click listener
    is attached to it, and the number of [transitionend] listeners that
    [closePanel] has attached and that have not run. *)
Record Panel : Type := mkPanel {
  p_hidden : bool;
  p_class : gset string;
  p_buttons : list Button;
  p_font_val : string;
  p_click : bool;
  p_transitionend : nat
}.

(** [function buildPanel()]: the two fresh elements, built from [prefs].
    No listener is attached to either. *)
Definition buildPanel (prefs : obj) : Fab * Panel :=
  ( {| fab_aria_label := "Abrir panel de accesibilidad"; fab_expanded := "false" |},
    {| p_hidden := true;
       p_class := {["a11y-panel"]};
       p_buttons :=
         [ {| b_id := "a11y-close"; b_class := {["a11y-panel-close"]};
              b_action := None; b_value := None; b_pressed := None;
              b_disabled := false; b_label := EmptyString |};
           buildToggle "btn-reader" "reader" (get_prop "readerEnabled" prefs);
           buildStepper "btn-font-dec" "font-dec"
             (num_leb (to_number (get_prop "fontScale" prefs)) (-2));
           buildStepper "btn-font-inc" "font-inc"
             (num_geb (to_number (get_prop "fontScale" prefs)) 2) ]
         ++ List.map (buildContrast (get_prop "contrast" prefs)) contrasts
         ++ [ buildToggle "btn-spacing" "spacing" (get_prop "spacing" prefs);
              buildToggle "btn-dyslexia" "dyslexia" (get_prop "dyslexia" prefs);
              buildToggle "btn-links" "links" (get_prop "highlightLinks" prefs);
              buildToggle "btn-cursor" "cursor" (get_prop "bigCursor" prefs);
              {| b_id := "btn-reset"; b_class := {["a11y-btn-reset"]};
                 b_action := Some "reset"; b_value := None; b_pressed := None;
                 b_disabled := false; b_label := EmptyString |} ];
       p_font_val := font_val_markup (fontLabel (get_prop "fontScale" prefs));
       p_click := false;
       p_transitionend := 0 |} ).

(* ===================================================================== *)
(** * The page                                                             *)
(* ===================================================================== *)

(** A callback waiting for the next animation frame. *)
Inductive Callback : Type :=
| AddOpenClass
| SetAreaText (isAlert : bool) (message : string).

(** An assignment to the [textContent] of a live region. *)
Record Mutation : Type := mkMutation {
  m_alert : bool;
  m_text : string
}.

(** Everything the script reads and writes.  [notificationArea] and
    [alertArea] hold the text of the live regions, [None] when the page
    has no such element.  [listeners] are the listeners of [document],
    each an event type with the name of the function attached; the DOM
    keeps one entry for a type and function however often it is added.
    [focused] is the id of the element the script last moved the focus
    to. *)
Record Page : Type := mkPage {
  prefs : obj;
  storage : Storage;
  html : Root;
  readerActive : bool;
  synth : Synth;
  listeners : gset (string * string);
  page_elements : list Element;
  fab : Fab;
  panel : Panel;
  panelOpen : bool;
  focused : option string;
  notificationArea : option string;
  alertArea : option string;
  frame_callbacks : list Callback;
  mutations : list Mutation
}.

Definition with_prefs (x : obj) (s : Page) : Page :=
  mkPage x (storage s) (html s) (readerActive s) (synth s) (listeners s)
    (page_elements s) (fab s) (panel s) (panelOpen s) (focused s)
    (notificationArea s) (alertArea s) (frame_callbacks s) (mutations s).
Definition with_storage (x : Storage) (s : Page) : Page :=
  mkPage (prefs s) x (html s) (readerActive s) (synth s) (listeners s)
    (page_elements s) (fab s) (panel s) (panelOpen s) (focused s)
    (notificationArea s) (alertArea s) (frame_callbacks s) (mutations s).
Definition with_html (x : Root) (s : Page) : Page :=
  mkPage (prefs s) (storage s) x (readerActive s) (synth s) (listeners s)
    (page_elements s) (fab s) (panel s) (panelOpen s) (focused s)
    (notificationArea s) (alertArea s) (frame_callbacks s) (mutations s).
Definition with_readerActive (x : bool) (s : Page) : Page :=
  mkPage (prefs s) (storage s) (html s) x (synth s) (listeners s)
    (page_elements s) (fab s) (panel s) (panelOpen s) (focused s)
    (notificationArea s) (alertArea s) (frame_callbacks s) (mutations s).
Definition with_synth (x : Synth) (s : Page) : Page :=
  mkPage (prefs s) (storage s) (html s) (readerActive s) x (listeners s)
    (page_elements s) (fab s) (panel s) (panelOpen s) (focused s)
    (notificationArea s) (alertArea s) (frame_callbacks s) (mutations s).
Definition with_listeners (x : gset (string * string)) (s : Page) : Page :=
  mkPage (prefs s) (storage s) (html s) (readerActive s) (synth s) x
    (page_elements s) (fab s) (panel s) (panelOpen s) (focused s)
    (notificationArea s) (alertArea s) (frame_callbacks s) (mutations s).
Definition with_fab (x : Fab) (s : Page) : Page :=
  mkPage (prefs s) (storage s) (html s) (readerActive s) (synth s) (listeners s)
    (page_elements s) x (panel s) (panelOpen s) (focused s)
    (notificationArea s) (alertArea s) (frame_callbacks s) (mutations s).
Definition with_panel (x : Panel) (s : Page) : Page :=
  mkPage (prefs s) (storage s) (html s) (readerActive s) (synth s) (listeners s)
    (page_elements s) (fab s) x (panelOpen s) (focused s)
    (notificationArea s) (alertArea s) (frame_callbacks s) (mutations s).
Definition with_panelOpen (x : bool) (s : Page) : Page :=
  mkPage (prefs s) (storage s) (html s) (readerActive s) (synth s) (listeners s)
    (page_elements s) (fab s) (panel s) x (focused s)
    (notificationArea s) (alertArea s) (frame_callbacks s) (mutations s).
Definition with_focused (x : option string) (s : Page) : Page :=
  mkPage (prefs s) (storage s) (html s) (readerActive s) (synth s) (listeners s)
    (page_elements s) (fab s) (panel s) (panelOpen s) x
    (notificationArea s) (alertArea s) (frame_callbacks s) (mutations s).
Definition with_area (isAlert : bool) (x : option string) (s : Page) : Page :=
  mkPage (prefs s) (storage s) (html s) (readerActive s) (synth s) (listeners s)
    (page_elements s) (fab s) (panel s) (panelOpen s) (focused s)
    (if isAlert then notificationArea s else x)
    (if isAlert then x else alertArea s) (frame_callbacks s) (mutations s).
Definition with_frame_callbacks (x : list Callback) (s : Page) : Page :=
  mkPage (prefs s) (storage s) (html s) (readerActive s) (synth s) (listeners s)
    (page_elements s) (fab s) (panel s) (panelOpen s) (focused s)
    (notificationArea s) (alertArea s) x (mutations s).
Definition with_mutations (x : list Mutation) (s : Page) : Page :=
  mkPage (prefs s) (storage s) (html s) (readerActive s) (synth s) (listeners s)
    (page_elements s) (fab s) (panel s) (panelOpen s) (focused s)
    (notificationArea s) (alertArea s) (frame_callbacks s) x.

Definition with_buttons (bs : list Button) (p : Panel) : Panel :=
  mkPanel (p_hidden p) (p_class p) bs (p_font_val p) (p_click p) (p_transitionend p).
Definition with_hidden (h : bool) (p : Panel) : Panel :=
  mkPanel h (p_class p) (p_buttons p) (p_font_val p) (p_click p) (p_transitionend p).
Definition with_class (c : gset string) (p : Panel) : Panel :=
  mkPanel (p_hidden p) c (p_buttons p) (p_font_val p) (p_click p) (p_transitionend p).
Definition with_font_val (t : string) (p : Panel) : Panel :=
  mkPanel (p_hidden p) (p_class p) (p_buttons p) t (p_click p) (p_transitionend p).
Definition with_click (c : bool) (p : Panel) : Panel :=
  mkPanel (p_hidden p) (p_class p) (p_buttons p) (p_font_val p) c (p_transitionend p).
Definition with_transitionend (n : nat) (p : Panel) : Panel :=
  mkPanel (p_hidden p) (p_class p) (p_buttons p) (p_font_val p) (p_click p) n.

(* ===================================================================== *)
(** * Narration                                                            *)
(* ===================================================================== *)

Definition focus_listener : string * string := ("focusin", "readerFocus").
Definition hover_listener : string * string := ("mouseover", "readerHover").

Definition onboarding : string :=
  "Lector de pantalla activado. Pasa el cursor o navega con Tab para escuchar.".

(** [function enableReader(on)]. *)
Definition enableReader (on : bool) (s : Page) : Page :=
  let s := with_readerActive on s in
  if on then
    let s := with_listeners (listeners s ∪ {[focus_listener]}) s in
    let s := with_listeners (listeners s ∪ {[hover_listener]}) s in
    with_synth (speak (readerActive s) onboarding true (synth s)) s
  else
    let s := with_synth (stopSpeech (synth s)) s in
    let s := with_listeners (listeners s ∖ {[focus_listener]}) s in
    with_listeners (listeners s ∖ {[hover_listener]}) s.

(** [function readerFocus(e)], with [el] the target of the event. *)
Definition readerFocus (el : Element) (s : Page) : Page :=
  let label := getLabel (page_elements s) el in
  if String.eqb label EmptyString then s
  else with_synth (speak (readerActive s) (reader_prefix el ++ label) false (synth s)) s.

(** [function readerHover(e)]; [chain] is the target of the event
    followed by its ancestors, innermost first, which is where
    [closest] looks. *)
Definition readerHover (chain : list Element) (s : Page) : Page :=
  match List.find hover_match chain with
  | Some el => with_synth (speak (readerActive s) (getLabel (page_elements s) el) false (synth s)) s
  | None => s
  end.

(* ===================================================================== *)
(** * Announcements                                                        *)
(* ===================================================================== *)

Definition area_of (isAlert : bool) (s : Page) : option string :=
  if isAlert then alertArea s else notificationArea s.

(** [function announce(message, isAlert)] (both scripts define it the
    same way). *)
Definition announce (message : string) (isAlert : bool) (s : Page) : Page :=
  match area_of isAlert s with
  | None => s
  | Some _ =>
      let s := with_area isAlert (Some EmptyString) s in
      let s := with_mutations (mutations s ++ [mkMutation isAlert EmptyString]) s in
      with_frame_callbacks (frame_callbacks s ++ [SetAreaText isAlert message]) s
  end.

(** One callback of [requestAnimationFrame] being run. *)
Definition run_callback (s : Page) (cb : Callback) : Page :=
  match cb with
  | AddOpenClass => with_panel (with_class (p_class (panel s) ∪ {["is-open"]}) (panel s)) s
  | SetAreaText isAlert message =>
      let s := with_area isAlert (Some message) s in
      with_mutations (mutations s ++ [mkMutation isAlert message]) s
  end.

(** The next animation frame: the waiting callbacks run in the order in
    which they were requested. *)
Definition animation_frame (s : Page) : Page :=
  fold_left run_callback (frame_callbacks s) (with_frame_callbacks [] s).

(* ===================================================================== *)
(** * Opening and closing the panel                                        *)
(* ===================================================================== *)

(** [function openPanel()]. *)
Definition openPanel (s : Page) : Page :=
  let s := with_panelOpen true s in
  let s := with_panel (with_hidden false (panel s)) s in
  let s := with_fab {| fab_aria_label := "Cerrar panel de accesibilidad";
                       fab_expanded := "true" |} s in
  let s := with_frame_callbacks (frame_callbacks s ++ [AddOpenClass]) s in
  match p_buttons (panel s) with
  | first :: _ => with_focused (Some (b_id first)) s
  | [] => s
  end.

(** [function closePanel()]. *)
Definition closePanel (s : Page) : Page :=
  let s := with_panelOpen false s in
  let s := with_panel (with_class (p_class (panel s) ∖ {["is-open"]}) (panel s)) s in
  let s := with_fab {| fab_aria_label := "Abrir panel de accesibilidad";
                       fab_expanded := "false" |} s in
  let s := with_panel (with_transitionend (S (p_transitionend (panel s))) (panel s)) s in
  with_focused (Some "a11y-fab") s.

(** The end of a transition of the panel: every listener that
    [closePanel] attached hides the panel and detaches itself. *)
Definition transition_end (s : Page) : Page :=
  match p_transitionend (panel s) with
  | O => s
  | S _ => with_panel (with_transitionend 0 (with_hidden true (panel s))) s
  end.

(* ===================================================================== *)
(** * The delegated click handler of the panel                             *)
(* ===================================================================== *)

(** Applies [f] to the first button with the given id: the element that
    [$('#id', elems.panel)] finds, if any. *)
Fixpoint update_by_id (id : string) (f : Button -> Button) (bs : list Button)
  : list Button :=
  match bs with
  | [] => []
  | b :: r => if String.eqb (b_id b) id then f b :: r else b :: update_by_id id f r
  end.

Definition set_disabled (d : bool) (b : Button) : Button :=
  mkButton (b_id b) (b_class b) (b_action b) (b_value b) (b_pressed b) d (b_label b).

(** [function updateFontUI()]. *)
Definition updateFontUI (s : Page) : Page :=
  let n := to_number (get_prop "fontScale" (prefs s)) in
  let bs := update_by_id "btn-font-inc" (set_disabled (num_geb n 2)) (p_buttons (panel s)) in
  let bs := update_by_id "btn-font-dec" (set_disabled (num_leb n (-2))) bs in
  with_panel (with_font_val (fontLabel (get_prop "fontScale" (prefs s)))
                (with_buttons bs (panel s))) s.

(** The three statements that patch a toggle after its field changed:
    [classList.toggle('is-active', v)], [setAttribute('aria-pressed', v)]
    and the text of the label. *)
Definition patch_toggle (v : value) (b : Button) : Button :=
  mkButton (b_id b) (classList_toggle "is-active" v (b_class b)) (b_action b)
    (b_value b) (Some (to_string v)) (b_disabled b)
    (if truthy v then "Activado" else "Desactivado").

(** [prefs.key = !prefs.key] followed by the patch of the clicked button,
    which is the button at index [i]. *)
Definition flip_field (key : string) (i : nat) (s : Page) : Page :=
  let s := with_prefs (set_prop key (js_not (get_prop key (prefs s))) (prefs s)) s in
  with_panel (with_buttons
                (alter (patch_toggle (get_prop key (prefs s))) i (p_buttons (panel s)))
                (panel s)) s.

(** [data-value] as [btn.dataset.value] reads it. *)
Definition dataset (o : option string) : value :=
  match o with
  | Some t => VStr t
  | None => VUndef
  end.

(** [b.dataset.value === prefs.contrast]: the left side is a string or
    [undefined]. *)
Definition dataset_eq (o : option string) (v : value) : bool :=
  match o, v with
  | Some t, VStr u => String.eqb t u
  | None, VUndef => true
  | _, _ => false
  end.

(** The button matches [[data-action="a"]]. *)
Definition has_action (a : string) (b : Button) : bool :=
  match b_action b with
  | Some x => String.eqb x a
  | None => false
  end.

(** The body of the [forEach] over the buttons that match
    [[data-action="contrast"]]. *)
Definition patch_contrast (contrast : value) (b : Button) : Button :=
  if has_action "contrast" b then
    let active := dataset_eq (b_value b) contrast in
    mkButton (b_id b) (classList_toggle "is-active" (VBool active) (b_class b))
      (b_action b) (b_value b) (Some (to_string (VBool active))) (b_disabled b)
      (b_label b)
  else b.

Definition reset_message : string := "Configuración de accesibilidad restablecida.".

(** The [reset] branch.  The fresh panel that replaces the old one gets
    no click listener: only the click listener of the floating button is
    attached again. *)
Definition reset (s : Page) : Page :=
  let s := with_prefs (Object_assign [] [VObj defaults]) s in
  let s := enableReader false s in
  let s := with_html (applyAll (prefs s) (html s)) s in
  let s := with_storage (savePrefs (prefs s) (storage s)) s in
  let built := buildPanel (prefs s) in
  let s := with_panel (snd built) (with_fab (fst built) s) in
  let s := with_panelOpen false s in
  announce reset_message false s.

Definition save (s : Page) : Page :=
  with_storage (savePrefs (prefs s) (storage s)) s.

(** The chain of [if (action === ...)] of the listener, with the
    [savePrefs(prefs)] that ends it; [btn] is the button clicked and [i]
    its index.  The two stepper branches return before the save when the
    scale is at its bound, and so does the reset branch after its own
    save. *)
Definition dispatch (action : string) (i : nat) (btn : Button) (s : Page) : Page :=
  if String.eqb action "reader" then
    let s := flip_field "readerEnabled" i s in
    save (enableReader (truthy (get_prop "readerEnabled" (prefs s))) s)
  else if String.eqb action "font-inc" then
    if num_geb (to_number (get_prop "fontScale" (prefs s))) 2 then s
    else
      let n := num_add (to_number (get_prop "fontScale" (prefs s))) (Int 1) in
      let s := with_prefs (set_prop "fontScale" (VNum n) (prefs s)) s in
      let s := with_html (applyFontScale (get_prop "fontScale" (prefs s)) (html s)) s in
      save (updateFontUI s)
  else if String.eqb action "font-dec" then
    if num_leb (to_number (get_prop "fontScale" (prefs s))) (-2) then s
    else
      let n := num_add (to_number (get_prop "fontScale" (prefs s))) (Int (-1)) in
      let s := with_prefs (set_prop "fontScale" (VNum n) (prefs s)) s in
      let s := with_html (applyFontScale (get_prop "fontScale" (prefs s)) (html s)) s in
      save (updateFontUI s)
  else if String.eqb action "contrast" then
    let s := with_prefs (set_prop "contrast" (dataset (b_value btn)) (prefs s)) s in
    let s := with_html (applyContrast (get_prop "contrast" (prefs s)) (html s)) s in
    let bs := List.map (patch_contrast (get_prop "contrast" (prefs s)))
                (p_buttons (panel s)) in
    save (with_panel (with_buttons bs (panel s)) s)
  else if String.eqb action "spacing" then
    let s := flip_field "spacing" i s in
    save (with_html (applySpacing (get_prop "spacing" (prefs s)) (html s)) s)
  else if String.eqb action "dyslexia" then
    let s := flip_field "dyslexia" i s in
    save (with_html (applyDyslexia (get_prop "dyslexia" (prefs s)) (html s)) s)
  else if String.eqb action "links" then
    let s := flip_field "highlightLinks" i s in
    save (with_html (applyHighlightLinks (get_prop "highlightLinks" (prefs s)) (html s)) s)
  else if String.eqb action "cursor" then
    let s := flip_field "bigCursor" i s in
    save (with_html (applyBigCursor (get_prop "bigCursor" (prefs s)) (html s)) s)
  else if String.eqb action "reset" then reset s
  else save s.

(** The listener [elems.panel.addEventListener('click', function(e) ...)].
    [target] is the index, among the buttons of the panel, of the button
    the click fell in, [None] for a click elsewhere in the panel: there
    [closest('[data-action], #a11y-close')] finds nothing, as it does
    for a button with neither the id nor an action. *)
Definition panel_click_handler (target : option nat) (s : Page) : Page :=
  match target with
  | None => s
  | Some i =>
      match p_buttons (panel s) !! i with
      | None => s
      | Some btn =>
          if String.eqb (b_id btn) "a11y-close" then closePanel s
          else
            match b_action btn with
            | None => s
            | Some action => dispatch action i btn s
            end
      end
  end.

(* ===================================================================== *)
(** * Page load and events                                                 *)
(* ===================================================================== *)

(** What the script finds when it starts. *)
Record Browser : Type := mkBrowser {
  br_storage : Storage;
  br_synth : Synth;
  br_root : Root;
  br_elements : list Element;
  br_notification : option string;
  br_alert : option string
}.

(** The top-level statements of the panel script, in order: the
    preference object, [applyAll(prefs)], the narration if it was
    enabled, [buildPanel()], and the click listener on the panel.  The
    click listener of the floating button and the [keydown] listener of
    the document, attached here as well and never removed, are the
    [ClickFab] and [KeyDown] cases of [step]. *)
Definition load (b : Browser) : Page :=
  let p := initial_prefs (br_storage b) in
  let s := {| prefs := p;
              storage := br_storage b;
              html := applyAll p (br_root b);
              readerActive := false;
              synth := br_synth b;
              listeners := ∅;
              page_elements := br_elements b;
              fab := fst (buildPanel p);
              panel := snd (buildPanel p);
              panelOpen := false;
              focused := None;
              notificationArea := br_notification b;
              alertArea := br_alert b;
              frame_callbacks := [];
              mutations := [] |} in
  let s := if truthy (get_prop "readerEnabled" (prefs s)) then enableReader true s else s in
  with_panel (with_click true (panel s)) s.

Inductive event : Type :=
| ClickPanel (target : option nat)
| ClickFab
| KeyDown (key : string)
| TransitionEnd
| AnimationFrame
| FocusIn (el : Element)
| MouseOver (chain : list Element)
| UtteranceEnd
| Announce (message : string) (isAlert : bool).

(** The platform delivering one event.  A click in the panel reaches the
    handler when the panel carries the listener; focus and hover reach
    the narration when its listeners are attached (the [focusin] that
    follows a [focus()] call of the script is such an event, delivered
    after the statement that caused it, which is the last of its
    function); [UtteranceEnd] is the speech service finishing the
    utterance it was speaking; [Announce] is a caller outside the panel
    (the cart) announcing a message. *)
Definition step (s : Page) (e : event) : Page :=
  match e with
  | ClickPanel target =>
      if p_click (panel s) then panel_click_handler target s else s
  | ClickFab => if panelOpen s then closePanel s else openPanel s
  | KeyDown key =>
      if String.eqb key "Escape" && panelOpen s then closePanel s else s
  | TransitionEnd => transition_end s
  | AnimationFrame => animation_frame s
  | FocusIn el =>
      if bool_decide (focus_listener ∈ listeners s) then readerFocus el s else s
  | MouseOver chain =>
      if bool_decide (hover_listener ∈ listeners s) then readerHover chain s else s
  | UtteranceEnd =>
      with_synth (match synth s with
                  | Some (_ :: q) => Some q
                  | other => other
                  end) s
  | Announce message isAlert => announce message isAlert s
  end.

Definition run (s : Page) (es : list event) : Page := fold_left step es s.

(** The states the page can be in: those that a sequence of events
    reaches from the load on some browser whose speech queue is empty. *)
Definition reachable (s : Page) : Prop :=
  exists b es, in_flight (br_synth b) = 0%nat /\ s = run (load b) es.

(* ===================================================================== *)
(** * Reading the panel                                                    *)
(* ===================================================================== *)

(** The first button with the given id. *)
Definition button_by_id (id : string) (p : Panel) : option Button :=
  List.find (fun b => String.eqb (b_id b) id) (p_buttons p).

(** The toggles of the panel: the id of the button and the field of the
    preference object it shows. *)
Definition toggles : list (string * string) :=
  [ ("btn-reader", "readerEnabled");
    ("btn-spacing", "spacing");
    ("btn-dyslexia", "dyslexia");
    ("btn-links", "highlightLinks");
    ("btn-cursor", "bigCursor") ].

(** A toggle button shows the value [v]: the active class, the
    [aria-pressed] attribute and the label all read [v]. *)
Definition shows (b : Button) (v : value) : Prop :=
  ("is-active" ∈ b_class b <-> truthy v = true)
  /\ b_pressed b = Some (to_string v)
  /\ b_label b = (if truthy v then "Activado" else "Desactivado").

(** Every toggle of the panel shows its field of the preference object. *)
Definition toggles_in_sync (s : Page) : Prop :=
  forall id key, In (id, key) toggles ->
    exists b, button_by_id id (panel s) = Some b /\ shows b (get_prop key (prefs s)).

(* ===================================================================== *)
(** * Preference records                                                   *)
(* ===================================================================== *)

(** The record of section 3 of the specification, typed. *)
Record PreferenceRecord : Type := mkPreferenceRecord {
  fontScale : Z;
  contrast : string;
  spacing : bool;
  dyslexia : bool;
  highlightLinks : bool;
  bigCursor : bool;
  readerEnabled : bool
}.

(** The preference object that holds the record. *)
Definition to_obj (r : PreferenceRecord) : obj :=
  [ ("fontScale", VNum (Int (fontScale r)));
    ("contrast", VStr (contrast r));
    ("spacing", VBool (spacing r));
    ("dyslexia", VBool (dyslexia r));
    ("highlightLinks", VBool (highlightLinks r));
    ("bigCursor", VBool (bigCursor r));
    ("readerEnabled", VBool (readerEnabled r)) ].

Definition valid_record (r : PreferenceRecord) : Prop :=
  -2 <= fontScale r <= 2 /\ In (contrast r) contrasts.

(** The invariant of the record on a preference object: [fontScale] an
    integer in [-2, 2] and [contrast] one of the four modes. *)
Definition in_range (p : obj) : Prop :=
  (exists z, get_prop "fontScale" p = VNum (Int z) /\ -2 <= z <= 2)
  /\ (exists m, get_prop "contrast" p = VStr m /\ In m contrasts).

Definition schema : list string :=
  [ "fontScale"; "contrast"; "spacing"; "dyslexia"; "highlightLinks";
    "bigCursor"; "readerEnabled" ].

Definition keys (o : obj) : list string := List.map fst o.

(* ===================================================================== *)
(** * Concrete pages                                                       *)
(* ===================================================================== *)

Definition empty_root : Root := mkRoot None None ∅.

(** A working storage holding the given items. *)
Definition storage_with (items : gmap string string) : Storage :=
  mkStorage false 4096 items.

(** A browser with speech, both live regions, no other element, and the
    given storage. *)
Definition browser_with (st : Storage) : Browser :=
  mkBrowser st (Some []) empty_root [] (Some EmptyString) (Some EmptyString).

(** First visit: nothing stored. *)
Definition fresh_browser : Browser := browser_with (storage_with ∅).

(** The text [{"fontScale":7}]. *)
Definition text_scale_seven : string := "{" ++ quote "fontScale" ++ ":7}".

(** The text [{"theme":"neon"}]. *)
Definition text_theme : string := "{" ++ quote "theme" ++ ":" ++ quote "neon" ++ "}".

Definition browser_scale_seven : Browser :=
  browser_with (storage_with {[ storage_key := text_scale_seven ]}).

Definition browser_theme : Browser :=
  browser_with (storage_with {[ storage_key := text_theme ]}).

(** A storage that refuses every access. *)
Definition denied_storage : Storage := mkStorage true 0 ∅.

(** A record with every field away from its default. *)
Definition sample_record : PreferenceRecord :=
  {| fontScale := -1; contrast := "dark"; spacing := true; dyslexia := false;
     highlightLinks := true; bigCursor := false; readerEnabled := true |}.

(** A button named by a label element that has no text, and the page
    that holds both. *)
Definition unnamed_caption : Element :=
  {| tagName := "SPAN"; el_id := "caption"; attributes := ∅;
     textContent := "  "; placeholder := EmptyString; el_type := EmptyString |}.

Definition captioned_button : Element :=
  {| tagName := "BUTTON"; el_id := "go";
     attributes := {[ "aria-labelledby" := "caption" ]};
     textContent := "Enviar"; placeholder := EmptyString; el_type := "submit" |}.

Definition caption_page : list Element := [unnamed_caption; captioned_button].

Definition heading : Element :=
  {| tagName := "H2"; el_id := EmptyString; attributes := ∅;
     textContent := " Shipping "; placeholder := EmptyString; el_type := EmptyString |}.

(** An input whose [label] element holds a no-break space and nothing
    else, and the page that holds both. *)
Definition no_break_space : string :=
  String (ascii_of_nat 194) (String (ascii_of_nat 160) EmptyString).

Definition blank_label : Element :=
  {| tagName := "LABEL"; el_id := EmptyString; attributes := {[ "for" := "email" ]};
     textContent := no_break_space; placeholder := EmptyString; el_type := EmptyString |}.

Definition email_input : Element :=
  {| tagName := "INPUT"; el_id := "email"; attributes := ∅;
     textContent := EmptyString; placeholder := "Correo"; el_type := "email" |}.

Definition form_page : list Element := [blank_label; email_input].

(** The element named by [aria-labelledby], when [getLabel] gets that far
    and the element exists. *)
Definition labelledby_target (page : list Element) (el : Element) : option Element :=
  if nonempty (getAttribute "aria-label" el) then None
  else if nonempty (getAttribute "aria-labelledby" el) then
    getElementById (default EmptyString (getAttribute "aria-labelledby" el)) page
  else None.

(** The [label] element of an input, when [getLabel] gets that far and
    the element exists. *)
Definition input_label (page : list Element) (el : Element) : option Element :=
  if nonempty (getAttribute "aria-label" el) then None
  else match labelledby_target page el with
       | Some _ => None
       | None =>
           if String.eqb (tagName el) "IMG" then None
           else if String.eqb (tagName el) "INPUT" then query_label_for (el_id el) page
           else None
       end.

(** The label comes from a referenced element, and that element has no
    text but white space. *)
Definition blank_reference (page : list Element) (el : Element) : Prop :=
  (exists ref, labelledby_target page el = Some ref /\ js_trim (textContent ref) = EmptyString)
  \/ (exists lbl, input_label page el = Some lbl /\ js_trim (textContent lbl) = EmptyString).

(** The last resort of [getLabel]: no accessible name, no referenced
    element, neither an image nor an input. *)
Definition plain_element (page : list Element) (el : Element) : Prop :=
  nonempty (getAttribute "aria-label" el) = false
  /\ labelledby_target page el = None
  /\ tagName el <> "IMG" /\ tagName el <> "INPUT".

(** An element as [getLabel] and [readerFocus] are embedded for it.  Its
    tag name is not empty, is made of ASCII characters (lower case is
    taken on ASCII letters) and is neither [constructor] nor
    [__proto__], two names that the prefix table of [readerFocus] would
    find in [Object.prototype]; and when it is an input, its id is
    [selector_safe]. *)
Definition ordinary (el : Element) : Prop :=
  tagName el <> EmptyString
  /\ ascii_text (tagName el) = true
  /\ toLowerCase (tagName el) <> "constructor"
  /\ toLowerCase (tagName el) <> "__proto__"
  /\ (tagName el = "INPUT" -> selector_safe (el_id el) = true).

(** Indices of the buttons in the panel that [buildPanel] emits. *)
Definition ix_close : nat := 0.
Definition ix_reader : nat := 1.
Definition ix_font_dec : nat := 2.
Definition ix_font_inc : nat := 3.
Definition ix_spacing : nat := 8.
Definition ix_dyslexia : nat := 9.
Definition ix_links : nat := 10.
Definition ix_cursor : nat := 11.
Definition ix_reset : nat := 12.

(** The part of a button that no statement of the script changes. *)
Definition skeleton (b : Button) : string * option string * option string :=
  (b_id b, b_action b, b_value b).

Definition built_skeleton : list (string * option string * option string) :=
  Eval cbv in List.map skeleton (p_buttons (snd (buildPanel defaults))).

(** The panel has the buttons of [buildPanel], in their order. *)
Definition panel_shape (s : Page) : Prop :=
  List.map skeleton (p_buttons (panel s)) = built_skeleton.

(** The five fields behind the toggles hold booleans. *)
Definition booleans (p : obj) : Prop :=
  forall id key, In (id, key) toggles -> exists b, get_prop key p = VBool b.

(** The narration is active: the flag is set and both listeners are
    attached. *)
Definition narration_active (s : Page) : Prop :=
  readerActive s = true /\ focus_listener ∈ listeners s /\ hover_listener ∈ listeners s.

(** The narration is inactive: the flag is clear, neither listener is
    attached and nothing is being spoken. *)
Definition narration_inactive (s : Page) : Prop :=
  readerActive s = false /\ (focus_listener ∉ listeners s) /\ (hover_listener ∉ listeners s)
  /\ in_flight (synth s) = 0%nat.

(** The state in which the callback of an announcement finds the page:
    the region cleared, and the callbacks requested before it run. *)
Definition before_set (a : bool) (s : Page) : Page :=
  fold_left run_callback (frame_callbacks s)
    (with_frame_callbacks []
       (with_mutations (mutations s ++ [mkMutation a EmptyString])
          (with_area a (Some EmptyString) s))).

(** The text that [savePrefs] writes for a preference object. *)
Definition saved_text (p : obj) : string :=
  match JSON_stringify (VObj p) with
  | Some t => t
  | None => "undefined"
  end.

(** The storage takes the text: access is allowed and there is room. *)
Definition accepts (st : Storage) (t : string) : Prop :=
  st_denied st = false /\ (String.length t <= st_room st)%nat.

(** Nothing can be read back: access is refused, the key is absent, or
    the text under it is not JSON. *)
Definition unreadable (st : Storage) : Prop :=
  st_denied st = true
  \/ st_items st !! storage_key = None
  \/ exists t, st_items st !! storage_key = Some t /\ JSON_parse t = None.

(** The members that [JSON.stringify] prints for an object, in order. *)
Definition json_members (p : obj) : list string :=
  List.flat_map (fun kv => match JSON_stringify (snd kv) with
                           | Some t => [quote (fst kv) ++ ":" ++ t]
                           | None => []
                           end) p.

(** The keys of an object value are pairwise distinct. *)
Definition distinct_keys (v : value) : Prop :=
  match v with
  | VObj o => NoDup (keys o)
  | _ => True
  end.

(** The text of the readout is the label: as [updateFontUI] writes it,
    or laid out by the template. *)
Definition reads (text label : string) : Prop :=
  text = label \/ text = font_val_markup label.

(** The steppers and the readout show the scale: the text of
    [#font-val] is its label, and each stepper is disabled exactly at its
    bound. *)
Definition readout_in_sync (s : Page) : Prop :=
  reads (p_font_val (panel s)) (fontLabel (get_prop "fontScale" (prefs s)))
  /\ (exists b, button_by_id "btn-font-inc" (panel s) = Some b
                /\ b_disabled b = num_geb (to_number (get_prop "fontScale" (prefs s))) 2)
  /\ (exists b, button_by_id "btn-font-dec" (panel s) = Some b
                /\ b_disabled b = num_leb (to_number (get_prop "fontScale" (prefs s))) (-2)).

(** The click listener run against the buttons that [buildPanel] emits:
    what a click on the [i]-th button does on a panel of the built
    shape. *)
Definition click_at (i : nat) (s : Page) : Page :=
  match built_skeleton !! i with
  | None => s
  | Some (id, action, value) =>
      if String.eqb id "a11y-close" then closePanel s
      else match action with
           | None => s
           | Some a => dispatch a i (mkButton id ∅ action value None false EmptyString) s
           end
  end.

(** The three invariants of the rendering taken together. *)
Definition rendered (s : Page) : Prop :=
  panel_shape s /\ toggles_in_sync s /\ readout_in_sync s.

(** What the rendering invariants read of a page. *)
Definition view (s : Page) : obj * list Button * string :=
  (prefs s, p_buttons (panel s), p_font_val (panel s)).

(** The ways in which one event changes the preference object [p] into
    [p']: not at all, a toggle flipped, the scale stepped inside its
    bounds, a contrast mode of the grid chosen, or a reset. *)
Inductive record_update (p p' : obj) : Prop :=
| upd_none : p' = p -> record_update p p'
| upd_flip (id key : string) :
    In (id, key) toggles ->
    p' = set_prop key (js_not (get_prop key p)) p -> record_update p p'
| upd_inc :
    num_geb (to_number (get_prop "fontScale" p)) 2 = false ->
    p' = set_prop "fontScale"
           (VNum (num_add (to_number (get_prop "fontScale" p)) (Int 1))) p ->
    record_update p p'
| upd_dec :
    num_leb (to_number (get_prop "fontScale" p)) (-2) = false ->
    p' = set_prop "fontScale"
           (VNum (num_add (to_number (get_prop "fontScale" p)) (Int (-1)))) p ->
    record_update p p'
| upd_contrast (m : string) :
    In m contrasts -> p' = set_prop "contrast" (VStr m) p -> record_update p p'
| upd_reset : p' = defaults -> record_update p p'.

(** The page [t] is the page [s] after its scale was stepped to [z]: the
    record has the new scale and is otherwise as before, the root has
    the font size of the new scale, the readout and the two steppers
    show it, and the record was saved. *)
Definition stepped (s t : Page) (z : Z) : Prop :=
  get_prop "fontScale" (prefs t) = VNum (Int z)
  /\ (forall k, k <> "fontScale" -> get_prop k (prefs t) = get_prop k (prefs s))
  /\ html t = applyFontScale (VNum (Int z)) (html s)
  /\ fontSize (html t) = Some (Int (10 + z))
  /\ p_font_val (panel t) = fontLabel (VNum (Int z))
  /\ (exists inc, button_by_id "btn-font-inc" (panel t) = Some inc
                  /\ b_disabled inc = (2 <=? z))
  /\ (exists dec, button_by_id "btn-font-dec" (panel t) = Some dec
                  /\ b_disabled dec = (z <=? -2))
  /\ storage t = savePrefs (prefs t) (storage s).

(** A page on which the narration was switched on and the onboarding
    announcement has been spoken to its end. *)
Definition narrating_page : Page :=
  run (load fresh_browser) [ClickPanel (Some ix_reader); UtteranceEnd].

(** The record that the panel holds after the stored text
    [{"theme":"neon"}] was loaded and the spacing toggle clicked. *)
Definition themed_record : obj :=
  [ ("fontScale", VNum (Int 0));
    ("contrast", VStr "normal");
    ("spacing", VBool true);
    ("dyslexia", VBool false);
    ("highlightLinks", VBool false);
    ("bigCursor", VBool false);
    ("readerEnabled", VBool false);
    ("theme", VStr "neon") ].

(** Every toggle field holds a boolean and the button of the toggle shows
    it: the [is-active] class, [aria-pressed] and the label. *)
Definition toggles_show_booleans (s : Page) : Prop :=
  forall id key, In (id, key) toggles ->
    exists btn x,
      button_by_id id (panel s) = Some btn
      /\ get_prop key (prefs s) = VBool x
      /\ ("is-active" ∈ b_class btn <-> x = true)
      /\ b_pressed btn = Some (if x then "true" else "false")
      /\ b_label btn = (if x then "Activado" else "Desactivado").

(** Three clicks: the spacing toggle, the reset button, the spacing
    toggle again. *)
Definition toggle_reset_toggle : list event :=
  [ClickPanel (Some ix_spacing); ClickPanel (Some ix_reset); ClickPanel (Some ix_spacing)].

(* ===================================================================== *)
(** * Invariants of the page                                               *)
(* ===================================================================== *)

(** The four classes that the script puts on the root, each with the
    field of the preference object it stands for. *)
Definition root_classes : list (string * string) :=
  [ ("a11y-spacing", "spacing");
    ("a11y-dyslexia", "dyslexia");
    ("a11y-highlight-links", "highlightLinks");
    ("a11y-big-cursor", "bigCursor") ].

(** The root shows the preference object [p]: the font size is
    [1 + fontScale / 10] rem, [data-contrast] is the contrast mode, and
    each of the four classes is present exactly when its field is
    [true]. *)
Definition root_shows (h : Root) (p : obj) : Prop :=
  (exists z, get_prop "fontScale" p = VNum (Int z) /\ fontSize h = Some (Int (10 + z)))
  /\ (exists m, get_prop "contrast" p = VStr m /\ data_contrast h = Some m)
  /\ (forall token key, In (token, key) root_classes ->
        exists x, get_prop key p = VBool x /\ (token ∈ classList h <-> x = true)).

(** What the presentation and the narration are made of: the part of the
    page that only the click listener of the panel changes. *)
Definition settings (s : Page) : obj * Storage * Root * bool * gset (string * string) :=
  (prefs s, storage s, html s, readerActive s, listeners s).

(** A button of the contrast grid shows the contrast mode [v]: it is
    active and pressed exactly when its [data-value] is [v]. *)
Definition grid_shows (v : value) (btn : Button) : Prop :=
  let on := dataset_eq (b_value btn) v in
  ("is-active" ∈ b_class btn <-> on = true)
  /\ b_pressed btn = Some (if on then "true" else "false").

(** The buttons of the contrast grid show the contrast mode of the
    record. *)
Definition contrast_in_sync (s : Page) : Prop :=
  forall i btn, p_buttons (panel s) !! i = Some btn -> has_action "contrast" btn = true ->
    grid_shows (get_prop "contrast" (prefs s)) btn.

(** The narration is on exactly when the record says so, and its two
    listeners are attached exactly when it is on. *)
Definition narration_in_sync (s : Page) : Prop :=
  readerActive s = truthy (get_prop "readerEnabled" (prefs s))
  /\ (focus_listener ∈ listeners s <-> readerActive s = true)
  /\ (hover_listener ∈ listeners s <-> readerActive s = true).

(** The floating button as [openPanel] and [closePanel] leave it. *)
Definition fab_for (open : bool) : Fab :=
  if open
  then {| fab_aria_label := "Cerrar panel de accesibilidad"; fab_expanded := "true" |}
  else {| fab_aria_label := "Abrir panel de accesibilidad"; fab_expanded := "false" |}.

(** The record of the defaults. *)
Definition default_record : PreferenceRecord :=
  {| fontScale := 0; contrast := "normal"; spacing := false; dyslexia := false;
     highlightLinks := false; bigCursor := false; readerEnabled := false |}.

(** The page holds the valid record [r], and a reload would read it
    back. *)
Definition persisted (s : Page) : Prop :=
  exists r, valid_record r /\ prefs s = to_obj r /\ initial_prefs (storage s) = to_obj r.

(** The storage takes every text up to [n] characters. *)
Definition roomy (n : nat) (st : Storage) : Prop :=
  st_denied st = false /\ (n <= st_room st)%nat.

(** The events that are no click in the panel. *)
Definition outside_panel (e : event) : bool :=
  match e with
  | ClickPanel _ => false
  | _ => true
  end.

(** The four toggles that switch a class of the root: the index of the
    button in the panel. *)
Definition class_toggles : list nat := [ix_spacing; ix_dyslexia; ix_links; ix_cursor].

(** The floating button and the flag of the panel. *)
Definition chrome (s : Page) : Fab * bool := (fab s, panelOpen s).

(** A quick double click on the floating button, and the transition of
    the panel ending after it. *)
Definition close_reopen : list event := [ClickFab; ClickFab; TransitionEnd].

(** The same two clicks, the second after the closing transition has
    ended. *)
Definition close_wait_reopen : list event :=
  [ClickFab; TransitionEnd; ClickFab; TransitionEnd].


(* ===================================================================== *)
(** * [parseInt]                                                           *)
(* ===================================================================== *)

(** A run of digits of radix 16: their value and their number. *)
Fixpoint read_hex (m : Z) (k : nat) (cs : list ascii) : Z * nat :=
  match cs with
  | c :: r =>
      match hex_val c with
      | Some d => read_hex (16 * m + Z.of_nat d) (S k) r
      | None => (m, k)
      end
  | [] => (m, k)
  end.

(** The text after a prefix [0x] or [0X], if it has one. *)
Definition hex_prefix (cs : list ascii) : option (list ascii) :=
  match cs with
  | z :: x :: r =>
      if ((nat_of_ascii z =? 48) && ((nat_of_ascii x =? 120) || (nat_of_ascii x =? 88)))%nat
      then Some r else None
  | _ => None
  end.

(** [parseInt(s)] with no radix: the white space at the head is
    skipped; then come an optional sign and the digits, of radix 16
    after a prefix [0x], of radix 10 otherwise, as many as there are;
    what follows them is ignored, and the result is NaN when there is no
    digit.  (The integer is kept exactly; it is the result of
    JavaScript while it has no more than 53 bits.) *)
Definition parseInt (s : string) : num :=
  let cs := skip_white (list_ascii_of_string s) in
  let signed :=
    match cs with
    | c :: r =>
        if (nat_of_ascii c =? 45)%nat then (true, r)
        else if (nat_of_ascii c =? 43)%nat then (false, r)
        else (false, cs)
    | [] => (false, [])
    end in
  let read :=
    match hex_prefix (snd signed) with
    | Some r => read_hex 0 0 r
    | None => fst (read_digits 0 0 (snd signed))
    end in
  match read with
  | (_, O) => NaN
  | (m, S _) => Int (if fst signed then - m else m)
  end.

(* ===================================================================== *)
(** * The cart                                                             *)
(* ===================================================================== *)

(** The cart in the header of the page, as the click listeners of the
    [.btn-add-cart] buttons read and write it: the text of the first
    [.cart-count] element and the [aria-label] of the first [.btn-cart]
    element, each [None] when the page has no such element
    ([Some None] is a cart button without the attribute).  The counter,
    the cart button and the two live regions are taken to be different
    elements, with the cart button outside the counter. *)
Record Cart : Type := mkCart {
  cart_count : option string;
  cart_label : option (option string)
}.

(** [btn.closest('article')?.querySelector('.product-name a')
    ?.textContent?.trim() || 'Producto'], where [link_text] is the text
    of that link, [None] when the button is in no [article] or the
    article has no such link. *)
Definition productName (link_text : option string) : string :=
  match link_text with
  | Some t => str_or (js_trim t) "Producto"
  | None => "Producto"
  end.

Definition cart_message (name : string) : string := name ++ " agregado al carrito.".

(** ['Carrito de compras, ' + next + ' artículo' + (next !== 1 ? 's' : '')]. *)
Definition cart_label_text (next : num) : string :=
  "Carrito de compras, " ++ num_to_string next ++ " artículo"
  ++ (if strict_eq_num (VNum next) 1 then EmptyString else "s").

(** The click listener that each of the two scripts attaches to every
    [.btn-add-cart] button (the two listeners do the same). *)
Definition add_to_cart (link_text : option string) (st : Cart * Page) : Cart * Page :=
  let s := announce (cart_message (productName link_text)) false (snd st) in
  match cart_count (fst st) with
  | None => (fst st, s)
  | Some text =>
      let current := to_number (js_or (VNum (parseInt text)) (VNum (Int 0))) in
      let next := num_add current (Int 1) in
      ({| cart_count := Some (num_to_string next);
          cart_label := match cart_label (fst st) with
                        | None => None
                        | Some _ => Some (Some (cart_label_text next))
                        end |}, s)
  end.

(** The scripts that a page loads: [js/accessibility.js] holds two, each
    in a function of its own that is called at once; the first of them
    is a file of its own as well. *)
Definition both_scripts : nat := 2.
Definition first_script : nat := 1.

(** A click on a [.btn-add-cart] button: the listeners that the scripts
    have attached to it run one after the other. *)
Definition click_add_to_cart (scripts : nat) (link_text : option string)
    (st : Cart * Page) : Cart * Page :=
  Nat.iter scripts (add_to_cart link_text) st.

(** So many clicks, one after the other, each on a button of the
    product whose link has the text given. *)
Definition clicks_add_to_cart (scripts : nat) (links : list (option string))
    (st : Cart * Page) : Cart * Page :=
  fold_left (fun st link_text => click_add_to_cart scripts link_text st) links st.

(** The bound under which the integers are exact in JavaScript. *)
Definition max_safe_integer : Z := 2 ^ 53 - 1.

(* ===================================================================== *)
(** * The navigation menu                                                  *)
(* ===================================================================== *)

(** An element of the menu that a listener moves the focus to. *)
Inductive MenuFocus : Type :=
| FirstLink
| MenuButton.

(** The menu as its listeners read and write it: the class list of
    [#main-nav], whether it holds a link, [aria-expanded] and
    [aria-label] of the [.btn-menu] button, and the element of the menu
    on which a listener last called [focus()]. *)
Record Menu : Type := mkMenu {
  nav_class : gset string;
  nav_link : bool;
  menu_expanded : option string;
  menu_label : option string;
  menu_focus : option MenuFocus
}.

(** The click listener of the menu button; the two scripts differ in the
    labels, [closing] for the open menu and [opening] for the closed
    one. *)
Definition menu_click (closing opening : string) (m : Menu) : Menu :=
  let cl := classList_toggle "is-open" VUndef (nav_class m) in
  let isOpen := bool_decide ("is-open" ∈ cl) in
  {| nav_class := cl;
     nav_link := nav_link m;
     menu_expanded := Some (to_string (VBool isOpen));
     menu_label := Some (if isOpen then closing else opening);
     menu_focus := if isOpen && nav_link m then Some FirstLink else menu_focus m |}.

Definition menu_click_first : Menu -> Menu :=
  menu_click "Cerrar menú de navegación" "Abrir menú de navegación".

Definition menu_click_second : Menu -> Menu :=
  menu_click "Cerrar menú" "Abrir menú".

(** The [keydown] listener that each script attaches to the document for
    the menu (the two listeners are the same). *)
Definition menu_keydown (key : string) (m : Menu) : Menu :=
  if String.eqb key "Escape" && bool_decide ("is-open" ∈ nav_class m) then
    {| nav_class := nav_class m ∖ {["is-open"]};
       nav_link := nav_link m;
       menu_expanded := Some "false";
       menu_label := Some "Abrir menú de navegación";
       menu_focus := Some MenuButton |}
  else m.

Inductive menu_event : Type :=
| MenuClick
| MenuKey (key : string).

(** One event on a page that has loaded the first script alone. *)
Definition menu_step_first (m : Menu) (e : menu_event) : Menu :=
  match e with
  | MenuClick => menu_click_first m
  | MenuKey key => menu_keydown key m
  end.

(** One event on a page that has loaded [js/accessibility.js]: the
    listener of the first script runs, then the one of the second. *)
Definition menu_step_both (m : Menu) (e : menu_event) : Menu :=
  match e with
  | MenuClick => menu_click_second (menu_click_first m)
  | MenuKey key => menu_keydown key (menu_keydown key m)
  end.

(** The menu is open. *)
Definition menu_open (m : Menu) : bool := bool_decide ("is-open" ∈ nav_class m).

(** The button tells the state of the menu. *)
Definition menu_in_sync (m : Menu) : Prop :=
  menu_expanded m = Some (if menu_open m then "true" else "false").

(* ===================================================================== *)
(** * The section in view                                                  *)
(* ===================================================================== *)

(** An entry that the intersection observer reports: whether the section
    is in view, and the id of the section. *)
Record Entry : Type := mkEntry {
  isIntersecting : bool;
  target_id : string
}.

Definition with_attributes (a : gmap string string) (el : Element) : Element :=
  mkElement (tagName el) (el_id el) a (textContent el) (placeholder el) (el_type el).

(** [el.setAttribute(name, v)] and [el.removeAttribute(name)]. *)
Definition setAttribute (name v : string) (el : Element) : Element :=
  with_attributes (<[name := v]> (attributes el)) el.

Definition removeAttribute (name : string) (el : Element) : Element :=
  with_attributes (delete name (attributes el)) el.

(** [s.slice(1)]. *)
Definition slice1 (s : string) : string :=
  match s with
  | String _ r => r
  | EmptyString => EmptyString
  end.

(** The body of [navLinks.forEach] for the section [id]; [None] is the
    [TypeError] of a link that has lost its [href]. *)
Definition mark_link (id : string) (link : Element) : option Element :=
  match getAttribute "href" link with
  | None => None
  | Some h =>
      Some (if String.eqb (slice1 h) id
            then setAttribute "aria-current" "true" link
            else removeAttribute "aria-current" link)
  end.

(** [navLinks.forEach(...)]: the links after it, and whether it returned
    ([false] when it threw; the links before the one that threw are
    changed, the others are not). *)
Fixpoint mark_links (id : string) (links : list Element) : list Element * bool :=
  match links with
  | [] => ([], true)
  | l :: r =>
      match mark_link id l with
      | None => (l :: r, false)
      | Some l' => (l' :: fst (mark_links id r), snd (mark_links id r))
      end
  end.

(** The callback of the intersection observer on the entries
    reported. *)
Fixpoint observer_callback (entries : list Entry) (links : list Element)
  : list Element * bool :=
  match entries with
  | [] => (links, true)
  | e :: es =>
      if isIntersecting e then
        if snd (mark_links (target_id e) links)
        then observer_callback es (fst (mark_links (target_id e) links))
        else (fst (mark_links (target_id e) links), false)
      else observer_callback es links
  end.

(** The id of the last section in view among the entries. *)
Definition last_in_view (entries : list Entry) : option string :=
  target_id <$> last (List.filter isIntersecting entries).

(** The link points to the fragment [frag], as the links that the
    selector [.nav-list a[href^="#"]] finds do. *)
Definition links_to (frag : string) (link : Element) : Prop :=
  getAttribute "href" link = Some ("#" ++ frag).

(** The link [l'] is the link [l] marked for the section [id]: current
    when it points to [id], not current otherwise, and the same in
    everything else. *)
Definition marked (id : string) (l l' : Element) : Prop :=
  exists frag, links_to frag l
    /\ getAttribute "aria-current" l' = (if String.eqb frag id then Some "true" else None)
    /\ (forall name, name <> "aria-current" -> getAttribute name l' = getAttribute name l)
    /\ with_attributes (attributes l) l' = l.

(** The count that a listener reads off the counter: the integer that
    [parseInt] finds at the head of its text, 0 when it finds none. *)
Definition count_read (text : string) : Z :=
  match parseInt text with
  | Int n => n
  | _ => 0
  end.

(** The label of the cart button once the count is [n]: written when
    the page has the button. *)
Definition relabel (label : option (option string)) (n : Z) : option (option string) :=
  match label with
  | None => None
  | Some _ => Some (Some (cart_label_text (Int n)))
  end.

(** The runs of the listeners that a list of clicks causes: each click
    runs every listener attached. *)
Definition listener_runs (scripts : nat) (links : list (option string))
  : list (option string) :=
  List.flat_map (fun link_text => List.repeat link_text scripts) links.

(** The button tells the state of the menu: [aria-expanded] says whether
    it is open, and the label is [closing] on the open menu and
    [opening] on the closed one. *)
Definition menu_tells (closing opening : string) (m : Menu) : Prop :=
  menu_expanded m = Some (if menu_open m then "true" else "false")
  /\ menu_label m = Some (if menu_open m then closing else opening).

(* ===================================================================== *)
(** * Concrete pages of the shop                                           *)
(* ===================================================================== *)

(** Three events on the panel: the spacing toggle, the dark contrast
    mode, the increment of the text size. *)
Definition some_clicks : list event :=
  [ClickPanel (Some ix_spacing); ClickPanel (Some 6%nat); ClickPanel (Some ix_font_inc)].

(** The browser of a visitor who comes back after those events. *)
Definition browser_after (es : list event) : Browser :=
  browser_with (storage (run (load fresh_browser) es)).

(** A page whose panel has been opened. *)
Definition open_page : Page := run (load fresh_browser) [ClickFab].


(** A cart that shows three articles, on a page whose cart button has no
    label yet. *)
Definition sample_cart : Cart := mkCart (Some "3") (Some None).

(** The menu as the markup has it at first: closed. *)
Definition closed_menu : Menu :=
  mkMenu ∅ true (Some "false") (Some "Abrir menú de navegación") None.

(** A link of the navigation to the section [frag]. *)
Definition nav_link_to (frag : string) : Element :=
  {| tagName := "A"; el_id := EmptyString; attributes := {[ "href" := "#" ++ frag ]};
     textContent := frag; placeholder := EmptyString; el_type := EmptyString |}.

Definition sample_links : list Element := [nav_link_to "inicio"; nav_link_to "ofertas"].

(** Two sections come into view, one goes out of it. *)
Definition sample_entries : list Entry :=
  [mkEntry true "inicio"; mkEntry false "contacto"; mkEntry true "ofertas"].

(* ===================================================================== *)
(** * Fields outside the schema                                            *)
(* ===================================================================== *)

(** A value that [JSON.stringify] prints byte for byte as the embedding
    does: [null], a boolean, an integer that a double holds exactly, a
    text of ASCII characters. *)
Definition plain_value (v : value) : bool :=
  match v with
  | VNull | VBool _ => true
  | VNum (Int z) => Z.abs z <=? max_safe_integer
  | VStr s => ascii_text s
  | _ => false
  end.

(** The event is no click on the reset button. *)
Definition no_reset (e : event) : Prop := e <> ClickPanel (Some ix_reset).

(** The text [t] has the text [m] in it. *)
Definition contains (t m : string) : Prop := exists pre post, t = pre ++ m ++ post.

(* ===================================================================== *)
(** * Proofs                                                               *)
(* ===================================================================== *)

Set Warnings "-clear-no-such-hyp".

(* ===================================================================== *)
(** * Strings                                                              *)
(* ===================================================================== *)

Lemma str_or_nonempty (a b : string) : b <> EmptyString -> str_or a b <> EmptyString.
Proof.
  intros Hb. unfold str_or. destruct (String.eqb a EmptyString) eqn:E; [exact Hb|].
  intros ->. discriminate E.
Qed.

Lemma toLowerCase_nonempty (s : string) : s <> EmptyString -> toLowerCase s <> EmptyString.
Proof. destruct s; [congruence | discriminate]. Qed.

Lemma units_of_bound (c : ascii) : (units_of c <= 2)%nat.
Proof.
  unfold units_of. destruct (_ && _); [lia|]. destruct (240 <=? _)%nat; lia.
Qed.

Lemma units_of_byte (n : nat) :
  (n < 256)%nat ->
  units_of (ascii_of_nat n)
  = if ((128 <=? n) && (n <? 192))%nat then 0%nat
    else if (240 <=? n)%nat then 2%nat else 1%nat.
Proof. intros H. unfold units_of. rewrite nat_ascii_embedding by exact H. reflexivity. Qed.

Lemma high_half_length (a b c : ascii) : js_length (high_half a b c) = 1%nat.
Proof.
  unfold high_half.
  set (x := (_ mod 1024)%nat).
  assert (Hx : (x < 1024)%nat) by (apply Nat.mod_upper_bound; discriminate).
  assert (Hq : (x / 64 < 16)%nat) by (apply Nat.Div0.div_lt_upper_bound; lia).
  assert (Hr : (x mod 64 < 64)%nat) by (apply Nat.mod_upper_bound; discriminate).
  cbn [js_length]. rewrite !units_of_byte by lia.
  replace ((128 <=? 237) && (237 <? 192))%nat with false by reflexivity.
  replace (240 <=? 237)%nat with false by reflexivity.
  replace (128 <=? 160 + x / 64)%nat with true by (symmetry; apply Nat.leb_le; lia).
  replace (160 + x / 64 <? 192)%nat with true by (symmetry; apply Nat.ltb_lt; lia).
  replace (128 <=? 128 + x mod 64)%nat with true by (symmetry; apply Nat.leb_le; lia).
  replace (128 + x mod 64 <? 192)%nat with true by (symmetry; apply Nat.ltb_lt; lia).
  reflexivity.
Qed.

(** A cut at [n] has at most [n] UTF-16 units. *)
Lemma slice0_length (n : nat) (s : string) : (js_length (slice0 n s) <= n)%nat.
Proof.
  revert n. induction s as [|a r IH]; intros n; [simpl; lia|].
  cbn [slice0]. pose proof (units_of_bound a) as Hb.
  destruct (units_of a) as [|[|u]] eqn:E.
  - cbn [js_length]. rewrite E. apply IH.
  - destruct n as [|n']; [simpl; lia|].
    cbn [js_length]. rewrite E. specialize (IH n'). lia.
  - destruct n as [|[|n']]; [simpl; lia| |].
    + destruct r as [|b [|c r']]; [simpl; lia | simpl; lia|].
      rewrite high_half_length. lia.
    + cbn [js_length]. rewrite E. specialize (IH n'). lia.
Qed.

(** On ASCII text the units are the bytes. *)
Lemma js_length_ascii (s : string) :
  forallb (fun c => (nat_of_ascii c <? 128)%nat) (list_ascii_of_string s) = true ->
  js_length s = String.length s.
Proof.
  induction s as [|a r IH]; [reflexivity|]. cbn [list_ascii_of_string forallb]. intros H.
  apply andb_true_iff in H as [Ha Hr]. cbn [js_length String.length]. rewrite (IH Hr).
  unfold units_of. apply Nat.ltb_lt in Ha.
  replace (128 <=? nat_of_ascii a)%nat with false by (symmetry; apply Nat.leb_gt; lia).
  replace (240 <=? nat_of_ascii a)%nat with false by (symmetry; apply Nat.leb_gt; lia).
  reflexivity.
Qed.

Lemma nonempty_spec (o : option string) :
  nonempty o = true <-> exists t, o = Some t /\ t <> EmptyString.
Proof.
  destruct o as [t|]; simpl.
  - destruct (String.eqb t EmptyString) eqn:E; simpl.
    + apply String.eqb_eq in E. subst. split; [discriminate|]. intros (u & [= <-] & H). congruence.
    + apply String.eqb_neq in E. split; eauto. 
  - split; [discriminate|]. intros (u & [=] & _).
Qed.

(* ===================================================================== *)
(** * Labels                                                               *)
(* ===================================================================== *)

Lemma getLabel_empty_iff (page : list Element) (el : Element) :
  tagName el <> EmptyString ->
  getLabel page el = EmptyString <-> blank_reference page el.
Proof.
  intros Htag. unfold blank_reference, input_label, labelledby_target, getLabel.
  destruct (nonempty (getAttribute "aria-label" el)) eqn:Ea.
  - apply nonempty_spec in Ea as (t & -> & Ht). simpl.
    split; [congruence|]. intros [(r & [=] & _) | (l & [=] & _)].
  - destruct (nonempty (getAttribute "aria-labelledby" el)) eqn:Eb;
      [destruct (getElementById _ page) as [ref|] eqn:Er|].
    + split.
      * intros H. left. eauto.
      * intros [(r & [= <-] & H) | (l & [=] & _)]. exact H.
    + destruct (String.eqb (tagName el) "IMG") eqn:Ei.
      { split.
        - intros H. exfalso. revert H. apply str_or_nonempty. discriminate.
        - intros [(r & [=] & _) | (l & [=] & _)]. }
      destruct (String.eqb (tagName el) "INPUT") eqn:En.
      { destruct (query_label_for (el_id el) page) as [lbl|] eqn:El.
        - split; [intros H; right; eauto|].
          intros [(r & [=] & _) | (l & [= <-] & H)]. exact H.
        - split.
          + intros H. exfalso. revert H. apply str_or_nonempty, str_or_nonempty. discriminate.
          + intros [(r & [=] & _) | (l & [=] & _)]. }
      split.
      * intros H. exfalso. revert H. apply str_or_nonempty, toLowerCase_nonempty, Htag.
      * intros [(r & [=] & _) | (l & [=] & _)].
    + destruct (String.eqb (tagName el) "IMG") eqn:Ei.
      { split.
        - intros H. exfalso. revert H. apply str_or_nonempty. discriminate.
        - intros [(r & [=] & _) | (l & [=] & _)]. }
      destruct (String.eqb (tagName el) "INPUT") eqn:En.
      { destruct (query_label_for (el_id el) page) as [lbl|] eqn:El.
        - split; [intros H; right; eauto|].
          intros [(r & [=] & _) | (l & [= <-] & H)]. exact H.
        - split.
          + intros H. exfalso. revert H. apply str_or_nonempty, str_or_nonempty. discriminate.
          + intros [(r & [=] & _) | (l & [=] & _)]. }
      split.
      * intros H. exfalso. revert H. apply str_or_nonempty, toLowerCase_nonempty, Htag.
      * intros [(r & [=] & _) | (l & [=] & _)].
Qed.

Lemma getLabel_fallback (page : list Element) (el : Element) :
  plain_element page el ->
  getLabel page el
  = str_or (slice0 180 (js_trim (textContent el))) (toLowerCase (tagName el)).
Proof.
  intros (Ha & Hr & Hi & Hn). unfold getLabel, labelledby_target in *. rewrite Ha in *.
  apply String.eqb_neq in Hi, Hn. rewrite Hi, Hn.
  destruct (nonempty (getAttribute "aria-labelledby" el)); [|reflexivity].
  rewrite Hr. reflexivity.
Qed.

(* ===================================================================== *)
(** * The readout of the stepper                                           *)
(* ===================================================================== *)

Lemma small_scale (z : Z) :
  -2 <= z <= 2 -> z = -2 \/ z = -1 \/ z = 0 \/ z = 1 \/ z = 2.
Proof. lia. Qed.

Lemma fontLabel_percent (z : Z) :
  -2 <= z <= 2 ->
  exists lead, fontLabel (VNum (Int z)) = lead ++ "(" ++ pretty (100 + z * 10) ++ "%)".
Proof.
  intros H. destruct (small_scale z H) as [-> | [-> | [-> | [-> | ->]]]].
  - exists "-20% ". reflexivity.
  - exists "-10% ". reflexivity.
  - exists "Normal ". reflexivity.
  - exists "+10% ". reflexivity.
  - exists "+20% ". reflexivity.
Qed.

(* ===================================================================== *)
(** * Speech                                                               *)
(* ===================================================================== *)



Lemma stopSpeech_in_flight (sy : Synth) : in_flight (stopSpeech sy) = 0%nat.
Proof. destruct sy; reflexivity. Qed.

Lemma enableReader_synth (on : bool) (s : Page) :
  synth (enableReader on s)
  = if on then speak true onboarding true (synth s) else stopSpeech (synth s).
Proof. destruct on; reflexivity. Qed.


Lemma announce_synth (m : string) (a : bool) (s : Page) : synth (announce m a s) = synth s.
Proof. unfold announce. destruct (area_of a s); reflexivity. Qed.




Lemma closePanel_synth (s : Page) : synth (closePanel s) = synth s.
Proof. reflexivity. Qed.

Lemma reset_in_flight (s : Page) : in_flight (synth (reset s)) = 0%nat.
Proof.
  unfold reset. rewrite announce_synth. cbn -[enableReader].
  rewrite enableReader_synth. apply stopSpeech_in_flight.
Qed.







(* ===================================================================== *)
(** * Activation and deactivation of the narration                         *)
(* ===================================================================== *)

Lemma page_eq (s t : Page) :
  prefs s = prefs t -> storage s = storage t -> html s = html t ->
  readerActive s = readerActive t -> synth s = synth t ->
  listeners s = listeners t -> page_elements s = page_elements t ->
  fab s = fab t -> panel s = panel t -> panelOpen s = panelOpen t ->
  focused s = focused t -> notificationArea s = notificationArea t ->
  alertArea s = alertArea t -> frame_callbacks s = frame_callbacks t ->
  mutations s = mutations t -> s = t.
Proof. destruct s, t; simpl; intros; subst; reflexivity. Qed.

Lemma enableReader_listeners (on : bool) (s : Page) :
  listeners (enableReader on s)
  = if on then listeners s ∪ {[focus_listener]} ∪ {[hover_listener]}
    else listeners s ∖ {[focus_listener]} ∖ {[hover_listener]}.
Proof. destruct on; reflexivity. Qed.

Lemma speak_forced_twice (text : string) (sy : Synth) :
  speak true text true (speak true text true sy) = speak true text true sy.
Proof. destruct sy; reflexivity. Qed.

Lemma stopSpeech_twice (sy : Synth) : stopSpeech (stopSpeech sy) = stopSpeech sy.
Proof. destruct sy; reflexivity. Qed.

Lemma enableReader_idempotent (on : bool) (s : Page) :
  enableReader on (enableReader on s) = enableReader on s.
Proof.
  destruct on; apply page_eq; try reflexivity.
  - rewrite !enableReader_synth. apply speak_forced_twice.
  - rewrite !enableReader_listeners. set_solver.
  - rewrite !enableReader_synth. apply stopSpeech_twice.
  - rewrite !enableReader_listeners. set_solver.
Qed.

Lemma enableReader_active_listeners (s : Page) :
  narration_active s -> listeners (enableReader true s) = listeners s.
Proof. intros (_ & Hf & Hh). rewrite enableReader_listeners. set_solver. Qed.

Lemma enableReader_active_rest (s : Page) :
  narration_active s -> with_synth (synth s) (enableReader true s) = s.
Proof.
  intros Ha. pose proof (enableReader_active_listeners s Ha) as Hl.
  destruct Ha as (Hr & _ & _).
  apply page_eq; try reflexivity; [symmetry; exact Hr | exact Hl].
Qed.

Lemma enableReader_inactive (s : Page) :
  narration_inactive s -> enableReader false s = s.
Proof.
  intros (Hr & Hf & Hh & Hq). apply page_eq; try reflexivity.
  - symmetry. exact Hr.
  - rewrite enableReader_synth. destruct (synth s) as [[|u q]|]; try reflexivity.
    simpl in Hq. lia.
  - rewrite enableReader_listeners. set_solver.
Qed.

Lemma enableReader_detached (s : Page) :
  (focus_listener ∉ listeners (enableReader false s))
  /\ (hover_listener ∉ listeners (enableReader false s)).
Proof. rewrite enableReader_listeners. set_solver. Qed.

(** C8, as amended.  Activation and deactivation are idempotent.  On an
    active narration, [enableReader(true)] leaves the listeners as they
    are, one focus and one hover listener and no other change of the
    list, and changes nothing but the speech queue, where the utterance
    in flight gives way to the onboarding announcement.  On an inactive
    narration [enableReader(false)] changes nothing, and after
    [enableReader(false)] neither listener is attached. *)
Theorem enableReader_repeated (s : Page) :
  (forall on, enableReader on (enableReader on s) = enableReader on s)
  /\ (narration_active s ->
        listeners (enableReader true s) = listeners s
        /\ with_synth (synth s) (enableReader true s) = s
        /\ synth (enableReader true s) = speak true onboarding true (synth s))
  /\ (narration_inactive s -> enableReader false s = s)
  /\ (focus_listener ∉ listeners (enableReader false s))
  /\ (hover_listener ∉ listeners (enableReader false s)).
Proof.
  split; [|split; [|split]].
  - intros on. apply enableReader_idempotent.
  - intros Ha. split; [|split].
    + apply enableReader_active_listeners, Ha.
    + apply enableReader_active_rest, Ha.
    + apply enableReader_synth.
  - apply enableReader_inactive.
  - apply enableReader_detached.
Qed.

(* ===================================================================== *)
(** * Announcements                                                        *)
(* ===================================================================== *)

Lemma area_of_with_area (a : bool) (x : option string) (s : Page) :
  area_of a (with_area a x s) = x.
Proof. destruct a; reflexivity. Qed.

Lemma fold_run_callback_app (cbs : list Callback) (cb : Callback) (s : Page) :
  fold_left run_callback (cbs ++ [cb]) s = run_callback (fold_left run_callback cbs s) cb.
Proof. apply fold_left_app. Qed.

Lemma announce_present (m : string) (a : bool) (s : Page) (old : string) :
  area_of a s = Some old ->
  announce m a s
  = with_frame_callbacks (frame_callbacks s ++ [SetAreaText a m])
      (with_mutations (mutations s ++ [mkMutation a EmptyString])
         (with_area a (Some EmptyString) s)).
Proof. intros H. unfold announce. rewrite H. reflexivity. Qed.

Lemma announce_then_frame (m : string) (a : bool) (s : Page) (old : string) :
  area_of a s = Some old ->
  animation_frame (announce m a s) = run_callback (before_set a s) (SetAreaText a m).
Proof.
  intros H. rewrite (announce_present m a s old H). unfold animation_frame.
  cbn [frame_callbacks with_frame_callbacks]. rewrite fold_run_callback_app.
  reflexivity.
Qed.

Lemma run_callback_set (a : bool) (m : string) (s : Page) :
  area_of a (run_callback s (SetAreaText a m)) = Some m
  /\ mutations (run_callback s (SetAreaText a m)) = (mutations s ++ [mkMutation a m])%list
  /\ frame_callbacks (run_callback s (SetAreaText a m)) = frame_callbacks s.
Proof. destruct a; repeat split. Qed.

Lemma before_set_idle (a : bool) (s : Page) :
  frame_callbacks s = [] ->
  mutations (before_set a s) = (mutations s ++ [mkMutation a EmptyString])%list
  /\ frame_callbacks (before_set a s) = [].
Proof. intros H. unfold before_set. rewrite H. split; reflexivity. Qed.

(** Two announcements of one message within one frame, as when both
    scripts answer the same click: the two clears come first, the two
    sets at the frame. *)
Lemma announce_twice_in_one_frame (message : string) (isAlert : bool) (s : Page) (old : string) :
  area_of isAlert s = Some old -> frame_callbacks s = [] ->
  mutations (animation_frame (announce message isAlert (announce message isAlert s)))
  = (mutations s ++ [mkMutation isAlert EmptyString; mkMutation isAlert EmptyString;
                     mkMutation isAlert message; mkMutation isAlert message])%list.
Proof.
  intros Ha Hidle.
  rewrite (announce_present message isAlert s old Ha).
  set (s1 := with_frame_callbacks _ _).
  assert (Ha1 : area_of isAlert s1 = Some EmptyString).
  { subst s1. cbn. apply area_of_with_area. }
  rewrite (announce_then_frame message isAlert s1 EmptyString Ha1).
  destruct (run_callback_set isAlert message (before_set isAlert s1)) as (_ & Hm & _).
  rewrite Hm. unfold before_set. subst s1. cbn. rewrite Hidle. cbn.
  destruct isAlert; cbn; rewrite <- !app_assoc; reflexivity.
Qed.

(** C9.  With the live region present, [announce] clears its text at
    once and requests a callback; the next animation frame runs the
    callbacks requested earlier and then sets the text to the message.
    Announcing a message, letting the frame pass, and announcing it
    again writes clear, set, clear, set: the text goes through the empty
    string each time.  Without the live region [announce] does nothing. *)
Theorem announce_clears_then_sets (message : string) (isAlert : bool) (s : Page) :
  (forall old, area_of isAlert s = Some old ->
     let s1 := announce message isAlert s in
     let s2 := animation_frame s1 in
     area_of isAlert s1 = Some EmptyString
     /\ mutations s1 = (mutations s ++ [mkMutation isAlert EmptyString])%list
     /\ frame_callbacks s1 = (frame_callbacks s ++ [SetAreaText isAlert message])%list
     /\ s2 = run_callback (before_set isAlert s) (SetAreaText isAlert message)
     /\ area_of isAlert s2 = Some message
     /\ (frame_callbacks s = [] ->
           mutations s2
           = (mutations s ++ [mkMutation isAlert EmptyString; mkMutation isAlert message])%list
           /\ mutations (animation_frame (announce message isAlert s2))
              = (mutations s ++ [mkMutation isAlert EmptyString; mkMutation isAlert message;
                                 mkMutation isAlert EmptyString; mkMutation isAlert message])%list
           /\ area_of isAlert (announce message isAlert s2) = Some EmptyString
           /\ area_of isAlert (animation_frame (announce message isAlert s2)) = Some message))
  /\ (area_of isAlert s = None -> announce message isAlert s = s).
Proof.
  split.
  - intros old H s1 s2. subst s1 s2.
    rewrite (announce_then_frame message isAlert s old H).
    destruct (run_callback_set isAlert message (before_set isAlert s)) as (Ha & Hm & Hc).
    rewrite (announce_present message isAlert s old H).
    split; [|split; [|split; [|split; [|split]]]]; try reflexivity.
    + cbn. apply area_of_with_area.
    + exact Ha.
    + intros Hidle. destruct (before_set_idle isAlert s Hidle) as (Hb & Hbc).
      set (s2 := run_callback (before_set isAlert s) (SetAreaText isAlert message)) in *.
      assert (Hm2 : mutations s2
                    = (mutations s ++ [mkMutation isAlert EmptyString; mkMutation isAlert message])%list).
      { rewrite Hm, Hb, <- app_assoc. reflexivity. }
      assert (Hc2 : frame_callbacks s2 = []) by (rewrite Hc; exact Hbc).
      split; [exact Hm2|].
      rewrite (announce_then_frame message isAlert s2 message Ha).
      destruct (run_callback_set isAlert message (before_set isAlert s2)) as (Ha' & Hm' & _).
      destruct (before_set_idle isAlert s2 Hc2) as (Hb' & _).
      split; [|split].
      * rewrite Hm', Hb', Hm2, <- !app_assoc. reflexivity.
      * rewrite (announce_present message isAlert s2 message Ha). cbn. apply area_of_with_area.
      * exact Ha'.
  - intros H. unfold announce. rewrite H. reflexivity.
Qed.

(* ===================================================================== *)
(** * Objects and [Object.assign]                                          *)
(* ===================================================================== *)

Lemma get_define_same (k : string) (v : value) (o : obj) :
  get_prop k (define_prop k v o) = v.
Proof.
  induction o as [|[k' v'] o IH]; simpl.
  - rewrite String.eqb_refl. reflexivity.
  - destruct (String.eqb k k') eqn:E; simpl; rewrite E; [reflexivity | exact IH].
Qed.

Lemma get_define_other (k k' : string) (v : value) (o : obj) :
  k <> k' -> get_prop k' (define_prop k v o) = get_prop k' o.
Proof.
  intros Hne. induction o as [|[k0 v0] o IH]; simpl.
  - destruct (String.eqb k' k) eqn:E; [|reflexivity].
    apply String.eqb_eq in E. congruence.
  - destruct (String.eqb k k0) eqn:E; simpl.
    + apply String.eqb_eq in E. subst k0.
      destruct (String.eqb k' k) eqn:E'; [|reflexivity].
      apply String.eqb_eq in E'. congruence.
    + rewrite IH. reflexivity.
Qed.

Lemma has_define_same (k : string) (v : value) (o : obj) :
  has_prop k (define_prop k v o) = true.
Proof.
  induction o as [|[k' v'] o IH]; simpl.
  - rewrite String.eqb_refl. reflexivity.
  - destruct (String.eqb k k') eqn:E; simpl; rewrite E; [reflexivity | exact IH].
Qed.

Lemma has_define_other (k k' : string) (v : value) (o : obj) :
  has_prop k' o = true -> has_prop k' (define_prop k v o) = true.
Proof.
  induction o as [|[k0 v0] o IH]; simpl; [discriminate|].
  intros H. destruct (String.eqb k k0) eqn:E; simpl.
  - exact H.
  - destruct (String.eqb k' k0); [reflexivity|]. apply IH, H.
Qed.

Lemma keys_define (k : string) (v : value) (o : obj) :
  keys (define_prop k v o) = if has_prop k o then keys o else (keys o ++ [k])%list.
Proof.
  unfold keys. induction o as [|[k' v'] o IH]; simpl; [reflexivity|].
  destruct (String.eqb k k') eqn:E; simpl; [reflexivity|].
  rewrite IH. destruct (has_prop k o); reflexivity.
Qed.

Lemma get_set_same (k : string) (v : value) (o : obj) :
  k <> "__proto__" -> get_prop k (set_prop k v o) = v.
Proof.
  intros H. unfold set_prop. apply String.eqb_neq in H. rewrite H.
  apply get_define_same.
Qed.

Lemma get_set_other (k k' : string) (v : value) (o : obj) :
  k <> k' -> get_prop k' (set_prop k v o) = get_prop k' o.
Proof.
  intros H. unfold set_prop. destruct (String.eqb k "__proto__"); [reflexivity|].
  apply get_define_other, H.
Qed.

Lemma has_set_keep (k k' : string) (v : value) (o : obj) :
  has_prop k' o = true -> has_prop k' (set_prop k v o) = true.
Proof.
  intros H. unfold set_prop. destruct (String.eqb k "__proto__"); [exact H|].
  apply has_define_other, H.
Qed.

Lemma has_prop_keys (k : string) (o : obj) : has_prop k o = true <-> In k (keys o).
Proof.
  unfold keys. induction o as [|[k' v'] o IH]; simpl; [split; [discriminate | tauto]|].
  rewrite orb_true_iff, IH, String.eqb_eq. intuition congruence.
Qed.

Lemma assign_untouched (ps t : obj) (k : string) :
  has_prop k ps = false ->
  get_prop k (fold_left (fun t kv => set_prop (fst kv) (snd kv) t) ps t) = get_prop k t.
Proof.
  revert t. induction ps as [|[k0 v0] ps IH]; intros t Hno; simpl; [reflexivity|].
  simpl in Hno. apply orb_false_iff in Hno as [Hne Hno]. apply String.eqb_neq in Hne.
  rewrite IH by exact Hno. simpl. apply get_set_other. congruence.
Qed.

Lemma assign_keeps (ps t : obj) (k : string) :
  has_prop k t = true ->
  has_prop k (fold_left (fun t kv => set_prop (fst kv) (snd kv) t) ps t) = true.
Proof.
  revert t. induction ps as [|[k0 v0] ps IH]; intros t Ht; simpl; [exact Ht|].
  apply IH, has_set_keep, Ht.
Qed.

(** Assigning the properties of an object whose keys are distinct: each
    key other than [__proto__] ends up with the value the source has. *)
Lemma assign_copies (ps t : obj) (k : string) :
  NoDup (keys ps) -> k <> "__proto__" -> has_prop k ps = true ->
  get_prop k (fold_left (fun t kv => set_prop (fst kv) (snd kv) t) ps t) = get_prop k ps
  /\ has_prop k (fold_left (fun t kv => set_prop (fst kv) (snd kv) t) ps t) = true.
Proof.
  intros Hnd Hk. revert t. induction ps as [|[k0 v0] ps IH]; intros t Hin; [discriminate|].
  simpl in Hnd. apply NoDup_cons in Hnd as [Hfresh Hnd]. simpl in Hin |- *.
  destruct (String.eqb k k0) eqn:E.
  - apply String.eqb_eq in E. subst k0.
    assert (Hno : has_prop k ps = false).
    { destruct (has_prop k ps) eqn:Hp; [|reflexivity].
      apply has_prop_keys, list_elem_of_In in Hp. contradiction. }
    split.
    + rewrite assign_untouched by exact Hno. apply get_set_same, Hk.
    + apply assign_keeps. unfold set_prop. apply String.eqb_neq in Hk. rewrite Hk.
      apply has_define_same.
  - simpl in Hin. apply IH; [exact Hnd | exact Hin].
Qed.

(* ===================================================================== *)
(** * What [JSON.parse] returns                                            *)
(* ===================================================================== *)

Lemma NoDup_keys_define (k : string) (v : value) (o : obj) :
  NoDup (keys o) -> NoDup (keys (define_prop k v o)).
Proof.
  intros H. rewrite keys_define. destruct (has_prop k o) eqn:E; [exact H|].
  apply NoDup_app. split; [exact H|]. split; [|apply NoDup_singleton].
  intros x Hx Hk. apply list_elem_of_singleton in Hk. subst x.
  apply list_elem_of_In, has_prop_keys in Hx. congruence.
Qed.

Lemma parse_number_distinct (cs r : list ascii) (v : value) :
  parse_number cs = Some (v, r) -> distinct_keys v.
Proof.
  unfold parse_number. intros H. repeat case_match; simplify_eq; exact I.
Qed.

#[local] Arguments parse_number : simpl never.
#[local] Arguments parse_chars : simpl never.
#[local] Arguments expect : simpl never.
#[local] Arguments skip_ws : simpl never.
#[local] Arguments define_prop : simpl never.

Lemma parse_json_distinct (fuel : nat) :
  forall m cs v r,
    parse_json fuel m cs = Some (v, r) ->
    match m with PMembers acc => NoDup (keys acc) | _ => True end ->
    distinct_keys v.
Proof.
  induction fuel as [|fuel IH]; intros m cs v r H Hm; [discriminate|].
  simpl in H. destruct m as [|acc|acc].
  - repeat case_match; simplify_eq; simpl; try exact I; try apply NoDup_nil_2;
      try (eapply parse_number_distinct; eassumption);
      (eapply IH; [eassumption|]; simpl; try exact I; apply NoDup_nil_2).
  - repeat case_match; simplify_eq; simpl; try exact I.
    eapply IH; [eassumption | exact I].
  - repeat case_match; simplify_eq; simpl.
    + eapply IH; [eassumption|]. simpl. apply NoDup_keys_define, Hm.
    + apply NoDup_keys_define, Hm.
Qed.

Lemma JSON_parse_distinct (t : string) (v : value) :
  JSON_parse t = Some v -> distinct_keys v.
Proof.
  unfold JSON_parse. intros H. repeat case_match; simplify_eq.
  eapply parse_json_distinct; [eassumption | exact I].
Qed.

(* ===================================================================== *)
(** * Saving and loading                                                   *)
(* ===================================================================== *)

Lemma savePrefs_accepted (p : obj) (st : Storage) :
  accepts st (saved_text p) ->
  savePrefs p st
  = mkStorage (st_denied st) (st_room st) (<[storage_key := saved_text p]> (st_items st)).
Proof.
  intros [Hd Hr]. unfold savePrefs, setItem. fold (saved_text p). rewrite Hd.
  apply Nat.ltb_ge in Hr. rewrite Hr. reflexivity.
Qed.


Lemma loadPrefs_stored (st : Storage) (t : string) :
  st_denied st = false -> st_items st !! storage_key = Some t ->
  loadPrefs st = match JSON_parse t with
                 | Some v => js_or v (VObj [])
                 | None => VObj []
                 end.
Proof.
  intros Hd Ht. unfold loadPrefs, getItem. rewrite Hd, Ht. reflexivity.
Qed.

Lemma loadPrefs_unreadable (st : Storage) : unreadable st -> loadPrefs st = VObj [].
Proof.
  intros [Hd | [Hn | (t & Ht & Hp)]]; unfold loadPrefs, getItem.
  - rewrite Hd. reflexivity.
  - destruct (st_denied st); [reflexivity|]. rewrite Hn. reflexivity.
  - destruct (st_denied st); [reflexivity|]. rewrite Ht. simpl. rewrite Hp. reflexivity.
Qed.

Lemma in_contrasts (c : string) :
  In c contrasts -> c = "normal" \/ c = "high" \/ c = "dark" \/ c = "invert".
Proof. simpl. intuition. Qed.

(** The text saved for a valid record parses back to the object that
    holds the record: checked on each of the 640 valid records. *)
Lemma saved_text_parses (r : PreferenceRecord) :
  valid_record r -> JSON_parse (saved_text (to_obj r)) = Some (VObj (to_obj r)).
Proof.
  destruct r as [z c sp dy hl bc re]. intros [Hz Hc]. simpl in Hz, Hc.
  apply small_scale in Hz. apply in_contrasts in Hc.
  destruct Hz as [-> | [-> | [-> | [-> | ->]]]];
    destruct Hc as [-> | [-> | [-> | ->]]];
    destruct sp, dy, hl, bc, re; vm_compute; reflexivity.
Qed.

Lemma assign_record_over_defaults (r : PreferenceRecord) :
  Object_assign [] [VObj defaults; VObj (to_obj r)] = to_obj r.
Proof. reflexivity. Qed.

Lemma initial_prefs_unreadable (st : Storage) : unreadable st -> initial_prefs st = defaults.
Proof. intros H. unfold initial_prefs. rewrite (loadPrefs_unreadable st H). reflexivity. Qed.

Lemma saved_record_loads (r : PreferenceRecord) (st : Storage) :
  valid_record r -> accepts st (saved_text (to_obj r)) ->
  initial_prefs (savePrefs (to_obj r) st) = to_obj r.
Proof.
  intros Hv Ha. rewrite (savePrefs_accepted _ _ Ha). unfold initial_prefs.
  destruct Ha as [Hd _].
  rewrite (loadPrefs_stored _ (saved_text (to_obj r))); simpl;
    [|exact Hd | apply lookup_insert_eq].
  rewrite (saved_text_parses r Hv). apply assign_record_over_defaults.
Qed.

(** The record built at page load is in range on unreadable storage and
    over a valid record that was saved. *)
Lemma in_range_at_load (st : Storage) (r : PreferenceRecord) :
  (unreadable st -> in_range (initial_prefs st))
  /\ (valid_record r -> accepts st (saved_text (to_obj r)) ->
      in_range (initial_prefs (savePrefs (to_obj r) st))).
Proof.
  split.
  - intros H. rewrite (initial_prefs_unreadable st H).
    split; [exists 0 | exists "normal"]; (split; [reflexivity|]); [lia | simpl; tauto].
  - intros Hv Ha. rewrite (saved_record_loads r st Hv Ha). destruct Hv as [Hz Hc].
    split; [exists (fontScale r) | exists (contrast r)]; (split; [reflexivity|]); assumption.
Qed.

(** C3.  A valid record saved to a storage that takes the write and then
    loaded and merged over the defaults is the record again; and when
    nothing can be read back (access refused, no entry, or a text that
    does not parse) [loadPrefs] returns the empty object and the merge
    is the default record. *)
Theorem save_then_load (r : PreferenceRecord) (st : Storage) :
  (valid_record r -> accepts st (saved_text (to_obj r)) ->
   initial_prefs (savePrefs (to_obj r) st) = to_obj r)
  /\ (unreadable st -> loadPrefs st = VObj [] /\ initial_prefs st = defaults).
Proof.
  split.
  - apply saved_record_loads.
  - intros H. split; [apply loadPrefs_unreadable, H | apply initial_prefs_unreadable, H].
Qed.

(* ===================================================================== *)
(** * The shape of the panel                                               *)
(* ===================================================================== *)

(** The buttons of a panel of the built shape, one by one. *)
Lemma shape_buttons (bs : list Button) :
  List.map skeleton bs = built_skeleton ->
  exists c0 p0 d0 l0 c1 p1 d1 l1 c2 p2 d2 l2 c3 p3 d3 l3 c4 p4 d4 l4
         c5 p5 d5 l5 c6 p6 d6 l6 c7 p7 d7 l7 c8 p8 d8 l8 c9 p9 d9 l9
         c10 p10 d10 l10 c11 p11 d11 l11 c12 p12 d12 l12,
    bs = [ mkButton "a11y-close" c0 None None p0 d0 l0;
           mkButton "btn-reader" c1 (Some "reader") None p1 d1 l1;
           mkButton "btn-font-dec" c2 (Some "font-dec") None p2 d2 l2;
           mkButton "btn-font-inc" c3 (Some "font-inc") None p3 d3 l3;
           mkButton EmptyString c4 (Some "contrast") (Some "normal") p4 d4 l4;
           mkButton EmptyString c5 (Some "contrast") (Some "high") p5 d5 l5;
           mkButton EmptyString c6 (Some "contrast") (Some "dark") p6 d6 l6;
           mkButton EmptyString c7 (Some "contrast") (Some "invert") p7 d7 l7;
           mkButton "btn-spacing" c8 (Some "spacing") None p8 d8 l8;
           mkButton "btn-dyslexia" c9 (Some "dyslexia") None p9 d9 l9;
           mkButton "btn-links" c10 (Some "links") None p10 d10 l10;
           mkButton "btn-cursor" c11 (Some "cursor") None p11 d11 l11;
           mkButton "btn-reset" c12 (Some "reset") None p12 d12 l12 ].
Proof.
  unfold built_skeleton. intros H.
  do 13 (let bi := fresh "bi" in let bc := fresh "bc" in let ba := fresh "ba" in
         let bv := fresh "bv" in let bp := fresh "bp" in let bd := fresh "bd" in
         let bl := fresh "bl" in
         destruct bs as [|[bi bc ba bv bp bd bl] bs]; [discriminate H|]).
  destruct bs; [|discriminate H].
  unfold skeleton in H. cbn in H. simplify_eq. do 52 eexists. reflexivity.
Qed.

(* ===================================================================== *)
(** * The click listener, button by button                                 *)
(* ===================================================================== *)

#[local] Arguments set_prop : simpl never.
#[local] Arguments get_prop : simpl never.
#[local] Arguments classList_toggle : simpl never.
#[local] Arguments savePrefs : simpl never.
#[local] Arguments applyFontScale : simpl never.
#[local] Arguments applyContrast : simpl never.
#[local] Arguments toggle_root_class : simpl never.
#[local] Arguments applyAll : simpl never.
#[local] Arguments fontLabel : simpl never.
#[local] Arguments to_number : simpl never.
#[local] Arguments to_string : simpl never.
#[local] Arguments truthy : simpl never.
#[local] Arguments js_not : simpl never.
#[local] Arguments num_geb : simpl never.
#[local] Arguments num_leb : simpl never.
#[local] Arguments num_add : simpl never.
#[local] Arguments stopSpeech : simpl never.
#[local] Arguments speak : simpl never.
#[local] Arguments Object_assign : simpl never.
#[local] Arguments announce : simpl never.
#[local] Arguments buildPanel : simpl never.
#[local] Arguments flip_field : simpl never.
#[local] Arguments updateFontUI : simpl never.
#[local] Arguments enableReader : simpl never.
#[local] Arguments closePanel : simpl never.
#[local] Arguments openPanel : simpl never.
#[local] Arguments reset : simpl never.
#[local] Arguments save : simpl never.
#[local] Arguments patch_contrast : simpl never.
#[local] Arguments patch_toggle : simpl never.

(** Names the buttons of a panel of the built shape. *)
Ltac name_buttons Hshape Hbs :=
  destruct (shape_buttons _ Hshape)
    as (?c0 & ?p0 & ?d0 & ?l0 & ?c1 & ?p1 & ?d1 & ?l1 & ?c2 & ?p2 & ?d2 & ?l2
        & ?c3 & ?p3 & ?d3 & ?l3 & ?c4 & ?p4 & ?d4 & ?l4 & ?c5 & ?p5 & ?d5 & ?l5
        & ?c6 & ?p6 & ?d6 & ?l6 & ?c7 & ?p7 & ?d7 & ?l7 & ?c8 & ?p8 & ?d8 & ?l8
        & ?c9 & ?p9 & ?d9 & ?l9 & ?c10 & ?p10 & ?d10 & ?l10
        & ?c11 & ?p11 & ?d11 & ?l11 & ?c12 & ?p12 & ?d12 & ?l12 & Hbs).

Lemma handler_by_index (i : nat) (s : Page) :
  panel_shape s -> panel_click_handler (Some i) s = click_at i s.
Proof.
  intros Hshape. name_buttons Hshape Hbs.
  unfold panel_click_handler, click_at. rewrite Hbs.
  do 13 (destruct i as [|i]; [cbn; reflexivity|]). reflexivity.
Qed.

(** A property of the page after a click in the panel follows from the
    property in the fourteen cases of [click_at]. *)
Lemma click_at_cases (P : Page -> Prop) (i : nat) (s : Page) :
  P s ->
  P (closePanel s) ->
  P (dispatch "reader" ix_reader (mkButton "btn-reader" ∅ (Some "reader") None None false EmptyString) s) ->
  P (dispatch "font-dec" ix_font_dec (mkButton "btn-font-dec" ∅ (Some "font-dec") None None false EmptyString) s) ->
  P (dispatch "font-inc" ix_font_inc (mkButton "btn-font-inc" ∅ (Some "font-inc") None None false EmptyString) s) ->
  (forall j m, In m contrasts ->
     P (dispatch "contrast" j (mkButton EmptyString ∅ (Some "contrast") (Some m) None false EmptyString) s)) ->
  P (dispatch "spacing" ix_spacing (mkButton "btn-spacing" ∅ (Some "spacing") None None false EmptyString) s) ->
  P (dispatch "dyslexia" ix_dyslexia (mkButton "btn-dyslexia" ∅ (Some "dyslexia") None None false EmptyString) s) ->
  P (dispatch "links" ix_links (mkButton "btn-links" ∅ (Some "links") None None false EmptyString) s) ->
  P (dispatch "cursor" ix_cursor (mkButton "btn-cursor" ∅ (Some "cursor") None None false EmptyString) s) ->
  P (reset s) ->
  P (click_at i s).
Proof.
  intros Hs Hclose Hreader Hdec Hinc Hcontrast Hspacing Hdys Hlinks Hcursor Hreset.
  unfold click_at.
  destruct i as [|i]; [exact Hclose|].
  destruct i as [|i]; [exact Hreader|].
  destruct i as [|i]; [exact Hdec|].
  destruct i as [|i]; [exact Hinc|].
  do 4 (destruct i as [|i]; [apply Hcontrast; simpl; tauto|]).
  destruct i as [|i]; [exact Hspacing|].
  destruct i as [|i]; [exact Hdys|].
  destruct i as [|i]; [exact Hlinks|].
  destruct i as [|i]; [exact Hcursor|].
  destruct i as [|i]; [exact Hreset|].
  exact Hs.
Qed.

(* ===================================================================== *)
(** * The rendering follows the record                                     *)
(* ===================================================================== *)

Lemma shows_patch_toggle (x : bool) (b : Button) :
  shows (patch_toggle (VBool x) b) (VBool x).
Proof.
  unfold shows, patch_toggle, classList_toggle. cbn. repeat split.
  - destruct x; [reflexivity | set_solver].
  - destruct x; [set_solver | discriminate].
Qed.

Lemma shows_buildToggle (id action : string) (v : value) :
  shows (buildToggle id action v) v.
Proof.
  unfold shows, buildToggle. cbn. repeat split.
  - destruct (truthy v); [reflexivity | set_solver].
  - destruct (truthy v); [set_solver | discriminate].
Qed.

(** The facts that [rendered] gives about the named buttons of a panel
    whose buttons [Hbs] lists. *)
Ltac old_facts Hsync Hread Hbs :=
  unfold toggles_in_sync, readout_in_sync, button_by_id in Hsync, Hread;
  rewrite Hbs in Hsync, Hread;
  let get id key H :=
    (destruct (Hsync id key ltac:(simpl; tauto)) as (?b & ?Hfind & H);
     cbn in *; simplify_eq) in
  get "btn-reader" "readerEnabled" ident:(Hreader);
  get "btn-spacing" "spacing" ident:(Hspacing);
  get "btn-dyslexia" "dyslexia" ident:(Hdyslexia);
  get "btn-links" "highlightLinks" ident:(Hlinks);
  get "btn-cursor" "bigCursor" ident:(Hcursor);
  destruct Hread as (?Hval & (?b & ?Hfi & ?Hinc) & (?b & ?Hfd & ?Hdec));
  cbn in *; simplify_eq; clear Hsync.

(** Closes a goal [rendered t] once the buttons of [t] are computed;
    [new] is the key the step has assigned, if any. *)
Ltac show_toggle :=
  first
    [ rewrite get_set_same by discriminate; unfold js_not; apply shows_patch_toggle
    | rewrite ?get_set_other by discriminate; assumption
    | apply shows_buildToggle ].

Ltac show_rendered :=
  split; [reflexivity|]; split;
  [ let id := fresh "id" in let key := fresh "key" in let Hin := fresh "Hin" in
    intros id key Hin; simpl in Hin;
    repeat (destruct Hin as [Hin|Hin]; [simplify_eq; cbn; eexists; split; [reflexivity|show_toggle]|]);
    contradiction
  | split; [|split]; [| eexists; split; [reflexivity|] | eexists; split; [reflexivity|] ];
    cbn; rewrite ?get_set_other by discriminate;
    first [assumption | reflexivity | left; reflexivity | right; reflexivity] ].

Lemma rendered_flip (i : nat) (id key : string) (s : Page) :
  In (i, id, key) [ (ix_reader, "btn-reader", "readerEnabled");
                    (ix_spacing, "btn-spacing", "spacing");
                    (ix_dyslexia, "btn-dyslexia", "dyslexia");
                    (ix_links, "btn-links", "highlightLinks");
                    (ix_cursor, "btn-cursor", "bigCursor") ] ->
  rendered s -> rendered (flip_field key i s).
Proof.
  intros Hin (Hshape & Hsync & Hread). name_buttons Hshape Hbs.
  old_facts Hsync Hread Hbs.
  unfold rendered, panel_shape, toggles_in_sync, readout_in_sync, button_by_id.
  simpl in Hin.
  repeat (destruct Hin as [Hin|Hin];
          [simplify_eq; unfold flip_field; cbn; rewrite Hbs; cbn; show_rendered|]).
  contradiction.
Qed.

Lemma rendered_view (s t : Page) : view t = view s -> rendered s -> rendered t.
Proof.
  unfold view, rendered, panel_shape, toggles_in_sync, readout_in_sync, button_by_id.
  intros [= -> -> ->]. tauto.
Qed.

Lemma rendered_font (v : value) (h : Root) (s : Page) :
  rendered s ->
  rendered (updateFontUI (with_html h (with_prefs (set_prop "fontScale" v (prefs s)) s))).
Proof.
  intros (Hshape & Hsync & Hread). name_buttons Hshape Hbs.
  old_facts Hsync Hread Hbs.
  unfold rendered, panel_shape, toggles_in_sync, readout_in_sync, button_by_id.
  unfold updateFontUI; cbn; rewrite Hbs; cbn. show_rendered.
Qed.

Lemma rendered_contrast (v : value) (h : Root) (s : Page) :
  rendered s ->
  rendered (with_panel
              (with_buttons (List.map (patch_contrast v) (p_buttons (panel s))) (panel s))
              (with_html h (with_prefs (set_prop "contrast" v (prefs s)) s))).
Proof.
  intros (Hshape & Hsync & Hread). name_buttons Hshape Hbs.
  old_facts Hsync Hread Hbs.
  unfold rendered, panel_shape, toggles_in_sync, readout_in_sync, button_by_id.
  cbn; rewrite Hbs; unfold patch_contrast; cbn. show_rendered.
Qed.

Lemma rendered_built (s : Page) :
  p_buttons (panel s) = p_buttons (snd (buildPanel (prefs s))) ->
  p_font_val (panel s) = p_font_val (snd (buildPanel (prefs s))) ->
  rendered s.
Proof.
  intros Hbs Hval.
  unfold rendered, panel_shape, toggles_in_sync, readout_in_sync, button_by_id.
  rewrite Hbs, Hval. unfold buildPanel, buildStepper, buildContrast. cbn. show_rendered.
Qed.

(* ===================================================================== *)
(** * What each operation leaves alone                                     *)
(* ===================================================================== *)

Lemma view_closePanel (s : Page) : view (closePanel s) = view s.
Proof. reflexivity. Qed.

Lemma view_openPanel (s : Page) : view (openPanel s) = view s.
Proof. unfold openPanel. cbn. destruct (p_buttons (panel s)); reflexivity. Qed.

Lemma view_transition_end (s : Page) : view (transition_end s) = view s.
Proof. unfold transition_end. destruct (p_transitionend (panel s)); reflexivity. Qed.

Lemma view_run_callback (s : Page) (cb : Callback) : view (run_callback s cb) = view s.
Proof. destruct cb; reflexivity. Qed.

Lemma view_animation_frame (s : Page) : view (animation_frame s) = view s.
Proof.
  unfold animation_frame.
  change (view s) with (view (with_frame_callbacks [] s)).
  generalize (with_frame_callbacks [] s) as s0. generalize (frame_callbacks s) as cbs.
  induction cbs as [|cb cbs IH]; intros s0; simpl; [reflexivity|].
  rewrite IH. apply view_run_callback.
Qed.

Lemma view_enableReader (on : bool) (s : Page) : view (enableReader on s) = view s.
Proof. destruct on; reflexivity. Qed.

Lemma view_announce (m : string) (a : bool) (s : Page) : view (announce m a s) = view s.
Proof. unfold announce. destruct (area_of a s); reflexivity. Qed.

Lemma view_readerFocus (el : Element) (s : Page) : view (readerFocus el s) = view s.
Proof. unfold readerFocus. destruct (String.eqb _ EmptyString); reflexivity. Qed.

Lemma view_readerHover (chain : list Element) (s : Page) : view (readerHover chain s) = view s.
Proof. unfold readerHover. destruct (List.find hover_match chain); reflexivity. Qed.

Lemma view_save (s : Page) : view (save s) = view s.
Proof. reflexivity. Qed.

Lemma view_with_html (h : Root) (s : Page) : view (with_html h s) = view s.
Proof. reflexivity. Qed.

Lemma prefs_of_view (s t : Page) : view t = view s -> prefs t = prefs s.
Proof. unfold view. congruence. Qed.

Lemma prefs_reset (s : Page) : prefs (reset s) = defaults.
Proof.
  unfold reset. erewrite prefs_of_view by apply view_announce. reflexivity.
Qed.

Lemma rendered_reset (s : Page) : rendered (reset s).
Proof.
  unfold reset.
  match goal with |- rendered (announce ?m ?a ?t) =>
    apply (rendered_view t); [apply view_announce|] end.
  apply rendered_built; reflexivity.
Qed.

Lemma rendered_load (b : Browser) : rendered (load b).
Proof.
  unfold load. apply rendered_built; cbn -[enableReader initial_prefs buildPanel];
    destruct (truthy _); reflexivity.
Qed.

Lemma rendered_flip_effect (i : nat) (id key : string) (h : Root) (s : Page) :
  In (i, id, key) [ (ix_reader, "btn-reader", "readerEnabled");
                    (ix_spacing, "btn-spacing", "spacing");
                    (ix_dyslexia, "btn-dyslexia", "dyslexia");
                    (ix_links, "btn-links", "highlightLinks");
                    (ix_cursor, "btn-cursor", "bigCursor") ] ->
  rendered s -> rendered (save (with_html h (flip_field key i s))).
Proof.
  intros Hin Hr. apply (rendered_view (flip_field key i s)); [reflexivity|].
  exact (rendered_flip i id key s Hin Hr).
Qed.

Lemma rendered_flip_reader (x : bool) (s : Page) :
  rendered s -> rendered (save (enableReader x (flip_field "readerEnabled" ix_reader s))).
Proof.
  intros Hr. apply (rendered_view (flip_field "readerEnabled" ix_reader s)).
  - rewrite view_save. apply view_enableReader.
  - apply (rendered_flip ix_reader "btn-reader" "readerEnabled" s); [simpl; tauto | exact Hr].
Qed.

Lemma rendered_click_at (i : nat) (s : Page) : rendered s -> rendered (click_at i s).
Proof.
  intros Hr. apply click_at_cases.
  - exact Hr.
  - apply (rendered_view s); [apply view_closePanel | exact Hr].
  - cbn. apply rendered_flip_reader, Hr.
  - cbn. destruct (num_leb _ _); [exact Hr|].
    eapply rendered_view; [apply view_save|]. apply rendered_font, Hr.
  - cbn. destruct (num_geb _ _); [exact Hr|].
    eapply rendered_view; [apply view_save|]. apply rendered_font, Hr.
  - intros j m _. cbn. eapply rendered_view; [apply view_save|].
    rewrite get_set_same by discriminate. apply rendered_contrast, Hr.
  - cbn. apply (rendered_flip_effect ix_spacing "btn-spacing"); [simpl; tauto | exact Hr].
  - cbn. apply (rendered_flip_effect ix_dyslexia "btn-dyslexia"); [simpl; tauto | exact Hr].
  - cbn. apply (rendered_flip_effect ix_links "btn-links"); [simpl; tauto | exact Hr].
  - cbn. apply (rendered_flip_effect ix_cursor "btn-cursor"); [simpl; tauto | exact Hr].
  - apply rendered_reset.
Qed.

Lemma rendered_handler (target : option nat) (s : Page) :
  rendered s -> rendered (panel_click_handler target s).
Proof.
  intros Hr. destruct target as [i|]; [|exact Hr].
  rewrite handler_by_index by apply Hr. apply rendered_click_at, Hr.
Qed.

Lemma rendered_step (s : Page) (e : event) : rendered s -> rendered (step s e).
Proof.
  intros Hr. destruct e as [target| |key| | |el|chain| |m a]; cbn.
  - destruct (p_click (panel s)); [apply rendered_handler|]; exact Hr.
  - destruct (panelOpen s); (eapply rendered_view; [|exact Hr]);
      [apply view_closePanel | apply view_openPanel].
  - destruct (String.eqb key "Escape" && panelOpen s); [|exact Hr].
    eapply rendered_view; [apply view_closePanel | exact Hr].
  - eapply rendered_view; [apply view_transition_end | exact Hr].
  - eapply rendered_view; [apply view_animation_frame | exact Hr].
  - case_bool_decide; [|exact Hr].
    eapply rendered_view; [apply view_readerFocus | exact Hr].
  - case_bool_decide; [|exact Hr].
    eapply rendered_view; [apply view_readerHover | exact Hr].
  - eapply rendered_view; [|exact Hr]. reflexivity.
  - eapply rendered_view; [apply view_announce | exact Hr].
Qed.

Lemma rendered_run (es : list event) (s : Page) : rendered s -> rendered (run s es).
Proof.
  revert s. induction es as [|e es IH]; intros s Hr; simpl; [exact Hr|].
  apply IH, rendered_step, Hr.
Qed.

(* ===================================================================== *)
(** * How the record changes                                               *)
(* ===================================================================== *)

Lemma prefs_click_at (i : nat) (s : Page) :
  record_update (prefs s) (prefs (click_at i s)).
Proof.
  apply (click_at_cases (fun t => record_update (prefs s) (prefs t))).
  - apply upd_none. reflexivity.
  - apply upd_none. reflexivity.
  - cbn. apply (upd_flip _ _ "btn-reader" "readerEnabled"); [simpl; tauto|].
    transitivity (prefs (flip_field "readerEnabled" ix_reader s)); [|reflexivity].
    apply prefs_of_view. rewrite view_save. apply view_enableReader.
  - cbn. destruct (num_leb _ _) eqn:E; [apply upd_none; reflexivity|].
    apply upd_dec; [exact E | reflexivity].
  - cbn. destruct (num_geb _ _) eqn:E; [apply upd_none; reflexivity|].
    apply upd_inc; [exact E | reflexivity].
  - intros j m Hm. cbn. apply (upd_contrast _ _ m Hm). reflexivity.
  - cbn. apply (upd_flip _ _ "btn-spacing" "spacing"); [simpl; tauto | reflexivity].
  - cbn. apply (upd_flip _ _ "btn-dyslexia" "dyslexia"); [simpl; tauto | reflexivity].
  - cbn. apply (upd_flip _ _ "btn-links" "highlightLinks"); [simpl; tauto | reflexivity].
  - cbn. apply (upd_flip _ _ "btn-cursor" "bigCursor"); [simpl; tauto | reflexivity].
  - apply upd_reset, prefs_reset.
Qed.

Lemma prefs_step (s : Page) (e : event) :
  panel_shape s -> record_update (prefs s) (prefs (step s e)).
Proof.
  intros Hshape.
  assert (Hview : forall t, view t = view s -> record_update (prefs s) (prefs t)).
  { intros t Ht. apply upd_none, prefs_of_view, Ht. }
  destruct e as [target| |key| | |el|chain| |m a]; cbn.
  - destruct (p_click (panel s)); [|apply upd_none; reflexivity].
    destruct target as [i|]; [|apply upd_none; reflexivity].
    rewrite handler_by_index by exact Hshape. apply prefs_click_at.
  - destruct (panelOpen s); apply Hview; [apply view_closePanel | apply view_openPanel].
  - destruct (String.eqb key "Escape" && panelOpen s); apply Hview;
      [apply view_closePanel | reflexivity].
  - apply Hview, view_transition_end.
  - apply Hview, view_animation_frame.
  - case_bool_decide; apply Hview; [apply view_readerFocus | reflexivity].
  - case_bool_decide; apply Hview; [apply view_readerHover | reflexivity].
  - apply Hview. reflexivity.
  - apply Hview, view_announce.
Qed.

Lemma booleans_update (p p' : obj) : record_update p p' -> booleans p -> booleans p'.
Proof.
  intros Hu Hb id key Hin.
  destruct Hu as [-> | id0 key0 Hin0 -> | _ -> | _ -> | m _ -> | ->].
  - exact (Hb id key Hin).
  - destruct (String.eqb key0 key) eqn:E.
    + apply String.eqb_eq in E. subst key0. rewrite get_set_same.
      * eexists. reflexivity.
      * simpl in Hin. intuition (simplify_eq; discriminate).
    + apply String.eqb_neq in E. rewrite get_set_other by exact E. exact (Hb id key Hin).
  - rewrite get_set_other; [exact (Hb id key Hin)|].
    simpl in Hin. intuition (simplify_eq; discriminate).
  - rewrite get_set_other; [exact (Hb id key Hin)|].
    simpl in Hin. intuition (simplify_eq; discriminate).
  - rewrite get_set_other; [exact (Hb id key Hin)|].
    simpl in Hin. intuition (simplify_eq; discriminate).
  - simpl in Hin. intuition (simplify_eq; eexists; reflexivity).
Qed.

Lemma in_range_update (p p' : obj) : record_update p p' -> in_range p -> in_range p'.
Proof.
  intros Hu ((z & Hz & Hzr) & (m & Hm & Hmc)).
  destruct Hu as [-> | id0 key0 Hin0 -> | Hg -> | Hg -> | m' Hm' -> | ->].
  - split; eauto.
  - assert (key0 <> "fontScale" /\ key0 <> "contrast") as [H1 H2].
    { simpl in Hin0. intuition (simplify_eq; discriminate). }
    split; [exists z | exists m]; rewrite get_set_other by assumption; auto.
  - rewrite Hz in *. unfold to_number, num_geb, num_add in *.
    apply Z.leb_gt in Hg. split.
    + exists (z + 1). rewrite get_set_same by discriminate. split; [reflexivity | lia].
    + exists m. rewrite get_set_other by discriminate. auto.
  - rewrite Hz in *. unfold to_number, num_leb, num_add in *.
    apply Z.leb_gt in Hg. split.
    + exists (z + -1). rewrite get_set_same by discriminate. split; [reflexivity | lia].
    + exists m. rewrite get_set_other by discriminate. auto.
  - split.
    + exists z. rewrite get_set_other by discriminate. auto.
    + exists m'. rewrite get_set_same by discriminate. auto.
  - split; [exists 0 | exists "normal"]; (split; [reflexivity|]); [lia | simpl; tauto].
Qed.

Lemma prefs_run (P : obj -> Prop) (es : list event) (s : Page) :
  (forall p p', record_update p p' -> P p -> P p') ->
  rendered s -> P (prefs s) -> P (prefs (run s es)).
Proof.
  intros HP. revert s. induction es as [|e es IH]; intros s Hr Hp; simpl; [exact Hp|].
  apply IH; [apply rendered_step, Hr|].
  apply (HP (prefs s)); [apply prefs_step, Hr | exact Hp].
Qed.

(** C1, as amended.  The merge at page load takes stored values as they
    are; when the record it builds has [fontScale] an integer in [-2, 2],
    [contrast] one of the four modes and booleans in the five fields of
    the toggles (as it has on a first visit, on unreadable storage, or
    over a record the panel saved), every record that a sequence of
    events reaches is of that kind again: [fontScale] an integer in
    [-2, 2], [contrast] one of the four modes, booleans in the fields of
    the toggles.  The booleans make the markup of the toggles the one
    that [buildToggle] is embedded for. *)
Theorem record_stays_in_range (b : Browser) (es : list event) :
  in_range (prefs (load b)) -> booleans (prefs (load b)) ->
  in_range (prefs (run (load b) es)) /\ booleans (prefs (run (load b) es)).
Proof.
  intros Hr Hb. split.
  - apply prefs_run; [exact in_range_update | apply rendered_load | exact Hr].
  - apply prefs_run; [exact booleans_update | apply rendered_load | exact Hb].
Qed.

Lemma show_booleans (s : Page) :
  toggles_in_sync s -> booleans (prefs s) -> toggles_show_booleans s.
Proof.
  intros Hsync Hb id key Hin.
  destruct (Hsync id key Hin) as (btn & Hfind & Hc & Hp & Hl).
  destruct (Hb id key Hin) as (x & Hx). rewrite Hx in *.
  exists btn, x. repeat split; try assumption; apply Hc.
Qed.

(** C2.  Over a record whose five toggle fields hold booleans at load,
    after every event of every sequence (clicks on the toggles, on the
    reset button, and clicks that follow a reset included) each toggle
    field holds a boolean and the button of the toggle shows it: the
    [is-active] class, [aria-pressed] and the label.  The same holds
    after the click listener itself has run on any such state, whatever
    the button clicked. *)
Theorem toggles_follow_record (b : Browser) (es : list event) (target : option nat) :
  booleans (prefs (load b)) ->
  toggles_show_booleans (run (load b) es)
  /\ toggles_show_booleans (panel_click_handler target (run (load b) es)).
Proof.
  intros Hb.
  pose proof (rendered_run es (load b) (rendered_load b)) as Hr.
  pose proof (prefs_run booleans es (load b) booleans_update (rendered_load b) Hb) as Hb'.
  split.
  - apply show_booleans; [apply Hr | exact Hb'].
  - apply show_booleans; [apply rendered_handler, Hr|].
    destruct target as [i|]; [|exact Hb'].
    rewrite handler_by_index by apply Hr.
    exact (booleans_update _ _ (prefs_click_at i _) Hb').
Qed.

(* ===================================================================== *)
(** * The stepper                                                          *)
(* ===================================================================== *)

Lemma stepped_to (d : Z) (z : Z) (s : Page) :
  panel_shape s -> -2 <= z + d <= 2 ->
  stepped s
    (save (updateFontUI
             (with_html (applyFontScale
                           (get_prop "fontScale"
                              (set_prop "fontScale" (VNum (num_add (Int z) (Int d))) (prefs s)))
                           (html s))
                (with_prefs (set_prop "fontScale" (VNum (num_add (Int z) (Int d))) (prefs s)) s))))
    (z + d).
Proof.
  intros Hshape Hz. name_buttons Hshape Hbs.
  unfold stepped, button_by_id, save, updateFontUI. cbn. rewrite Hbs. cbn.
  rewrite !get_set_same by discriminate.
  split; [reflexivity|]. split; [intros k Hk; apply get_set_other; congruence|].
  split; [reflexivity|]. split.
  { unfold applyFontScale, to_number, num_add, num_geb.
    destruct (0 <=? 10 + (z + d)) eqn:E; [reflexivity|]. apply Z.leb_gt in E. lia. }
  split; [reflexivity|].
  split; [|split]; [eexists; split; reflexivity .. | reflexivity].
Qed.

(** C6.  On a panel of the built shape whose record has [fontScale] an
    integer [z] in [-2, 2]: a click on the increment button at [z = 2],
    or on the decrement button at [z = -2], leaves the whole page as it
    is (record, root font size and stored copy included); otherwise the
    click moves the scale by one, sets the root font size for the new
    scale, refreshes the disabled state of the two steppers and the
    readout, and saves the record. *)
Theorem font_steps (s : Page) (z : Z) :
  panel_shape s -> get_prop "fontScale" (prefs s) = VNum (Int z) -> -2 <= z <= 2 ->
  (z = 2 -> panel_click_handler (Some ix_font_inc) s = s)
  /\ (z = -2 -> panel_click_handler (Some ix_font_dec) s = s)
  /\ (z < 2 -> stepped s (panel_click_handler (Some ix_font_inc) s) (z + 1))
  /\ (-2 < z -> stepped s (panel_click_handler (Some ix_font_dec) s) (z - 1)).
Proof.
  intros Hshape Hfs Hz. rewrite !handler_by_index by exact Hshape.
  unfold click_at. cbn. rewrite Hfs. unfold to_number, num_geb, num_leb.
  split; [|split; [|split]].
  - intros ->. reflexivity.
  - intros ->. reflexivity.
  - intros Hlt. destruct (2 <=? z) eqn:E; [apply Z.leb_le in E; lia|].
    apply stepped_to; [exact Hshape | lia].
  - intros Hlt. destruct (z <=? -2) eqn:E; [apply Z.leb_le in E; lia|].
    apply (stepped_to (-1)); [exact Hshape | lia].
Qed.

Lemma reads_small_label (text : string) (z : Z) :
  -2 <= z <= 2 -> reads text (fontLabel (VNum (Int z))) ->
  js_trim text = fontLabel (VNum (Int z)).
Proof.
  intros Hz Hr. apply small_scale in Hz.
  destruct Hz as [-> | [-> | [-> | [-> | ->]]]]; destruct Hr as [-> | ->];
    vm_compute; reflexivity.
Qed.

(** C7.  Over a record whose five toggle fields hold booleans at load
    (the markup of the toggles is then the one that [buildToggle] is
    embedded for): in every state that a sequence of events reaches,
    when the scale is an integer [z] in [-2, 2] the readout, apart from
    the white space around it, is the label of [z], and the label ends
    with the percentage [100 + z * 10] in brackets. *)
Theorem readout_reads_percentage (b : Browser) (es : list event) (z : Z) :
  booleans (prefs (load b)) ->
  get_prop "fontScale" (prefs (run (load b) es)) = VNum (Int z) -> -2 <= z <= 2 ->
  js_trim (p_font_val (panel (run (load b) es))) = fontLabel (VNum (Int z))
  /\ exists lead, fontLabel (VNum (Int z)) = lead ++ "(" ++ pretty (100 + z * 10) ++ "%)".
Proof.
  intros _ Hfs Hz. split; [|apply fontLabel_percent, Hz].
  pose proof (rendered_run es (load b) (rendered_load b)) as (_ & _ & Hval & _).
  rewrite Hfs in Hval. apply reads_small_label; assumption.
Qed.

(** The scenario of the specification: two increments from 0, then a
    third attempt. *)
Example two_increments :
  let s1 := run (load fresh_browser) [ClickPanel (Some ix_font_inc)] in
  let s2 := step s1 (ClickPanel (Some ix_font_inc)) in
  let s3 := step s2 (ClickPanel (Some ix_font_inc)) in
  js_trim (p_font_val (panel (load fresh_browser))) = "Normal (100%)"
  /\ p_font_val (panel s1) = "+10% (110%)"
  /\ p_font_val (panel s2) = "+20% (120%)"
  /\ s3 = s2
  /\ (b_disabled <$> button_by_id "btn-font-inc" (panel s2)) = Some true.
Proof. vm_compute. repeat split. Qed.

(** After a reset the fresh panel carries no click listener: a click in
    it changes nothing. *)
Lemma clicks_after_reset_are_lost (s : Page) (target : option nat) :
  p_click (panel (reset s)) = false
  /\ step (reset s) (ClickPanel target) = reset s.
Proof.
  assert (H : p_click (panel (reset s)) = false).
  { unfold reset, announce. destruct (area_of _ _); reflexivity. }
  split; [exact H|]. cbn. rewrite H. reflexivity.
Qed.


(* ===================================================================== *)
(** * The label of an element                                              *)
(* ===================================================================== *)

Lemma readerFocus_guard (el : Element) (s : Page) :
  (getLabel (page_elements s) el = EmptyString -> readerFocus el s = s)
  /\ (getLabel (page_elements s) el <> EmptyString ->
      readerFocus el s
      = with_synth (speak (readerActive s)
                      (reader_prefix el ++ getLabel (page_elements s) el) false (synth s)) s).
Proof.
  unfold readerFocus. split; intros H.
  - rewrite H. reflexivity.
  - apply String.eqb_neq in H. rewrite H. reflexivity.
Qed.

(** C10, as amended.  For an element with an ordinary tag name (and,
    when it is an input, an id that reads as itself in the selector
    text): [getLabel] returns the empty string exactly when the label
    comes from a referenced element (the target of [aria-labelledby], or
    the [label] of an input) whose text is empty once trimmed of white
    space, the no-break space and the other spaces of Unicode included;
    in particular its last resort, the trimmed text of the element cut
    to 180 UTF-16 units or else the tag name in lower case, is never
    empty.  The guard of [readerFocus] on an empty label is taken in
    exactly those cases. *)
Theorem label_empty_only_for_blank_reference (page : list Element) (el : Element) :
  ordinary el ->
  (getLabel page el = EmptyString <-> blank_reference page el)
  /\ (plain_element page el ->
        getLabel page el
        = str_or (slice0 180 (js_trim (textContent el))) (toLowerCase (tagName el))
        /\ (js_length (slice0 180 (js_trim (textContent el))) <= 180)%nat
        /\ getLabel page el <> EmptyString)
  /\ (forall s, page_elements s = page ->
        (blank_reference page el -> readerFocus el s = s)
        /\ (~ blank_reference page el ->
            readerFocus el s
            = with_synth (speak (readerActive s) (reader_prefix el ++ getLabel page el)
                            false (synth s)) s)).
Proof.
  intros (Htag & _). pose proof (getLabel_empty_iff page el Htag) as Hiff.
  split; [exact Hiff|]. split.
  - intros Hplain. pose proof (getLabel_fallback page el Hplain) as Hf.
    split; [exact Hf|]. split; [apply slice0_length|].
    rewrite Hf. apply str_or_nonempty, toLowerCase_nonempty, Htag.
  - intros s <-. destruct (readerFocus_guard el s) as [He Hn]. split.
    + intros Hb. apply He, Hiff, Hb.
    + intros Hb. apply Hn. intros H. apply Hb, Hiff, H.
Qed.

(** A no-break space is white space for [trim]: an input whose [label]
    element holds nothing else has the empty label, and [readerFocus]
    says nothing. *)
Example no_break_space_is_blank :
  ordinary email_input
  /\ input_label form_page email_input = Some blank_label
  /\ js_trim (textContent blank_label) = EmptyString
  /\ getLabel form_page email_input = EmptyString.
Proof.
  split; [|vm_compute; repeat split].
  repeat split; try discriminate; intros _; vm_compute; reflexivity.
Qed.

(** A cut counts UTF-16 units: of a character of four bytes and a
    letter, a cut at 2 keeps the character whole and a cut at 1 leaves
    the first half of its surrogate pair. *)
Example cut_counts_units :
  let face := String (ascii_of_nat 240) (String (ascii_of_nat 159)
                (String (ascii_of_nat 152) (String (ascii_of_nat 128) "x"))) in
  js_length face = 3%nat
  /\ slice0 2 face = substring 0 4 face
  /\ js_length (slice0 1 face) = 1%nat
  /\ slice0 3 "abcdef" = "abc".
Proof. vm_compute. repeat split. Qed.

(* ===================================================================== *)
(** * Counterexamples                                                      *)
(* ===================================================================== *)

(** C1 as stated fails: the stored text [{"fontScale":7}] parses, and the
    record built at page load has [fontScale] 7. *)
Lemma stored_scale_is_not_clamped :
  reachable (load browser_scale_seven)
  /\ JSON_parse text_scale_seven = Some (VObj [("fontScale", VNum (Int 7))])
  /\ get_prop "fontScale" (prefs (load browser_scale_seven)) = VNum (Int 7)
  /\ ~ in_range (prefs (load browser_scale_seven)).
Proof.
  split; [|split; [|split]].
  - exists browser_scale_seven, []. split; reflexivity.
  - vm_compute. reflexivity.
  - vm_compute. reflexivity.
  - intros ((z & Hz & Hr) & _). vm_compute in Hz. injection Hz as <-. lia.
Qed.

(** C4 as stated fails: after the stored text [{"theme":"neon"}] the
    record built at page load has an eighth field, [theme], and the save
    that follows a click on the spacing toggle writes it back. *)
Lemma stored_theme_is_kept :
  keys (prefs (load browser_theme)) = (schema ++ ["theme"])%list
  /\ get_prop "theme" (prefs (load browser_theme)) = VStr "neon"
  /\ st_items (storage (run (load browser_theme) [ClickPanel (Some ix_spacing)]))
       !! storage_key
     = Some (saved_text themed_record)
  /\ JSON_parse (saved_text themed_record) = Some (VObj themed_record).
Proof. vm_compute. repeat split. Qed.

(** C8 as stated fails: on an active narration that is silent,
    [enableReader(true)] is no no-op, it speaks the onboarding
    announcement again. *)
Lemma reactivation_speaks_again :
  narration_active narrating_page
  /\ in_flight (synth narrating_page) = 0%nat
  /\ in_flight (synth (enableReader true narrating_page)) = 1%nat
  /\ enableReader true narrating_page <> narrating_page.
Proof.
  split; [|split; [|split]].
  - split; [vm_compute; reflexivity|].
    split; refine (bool_decide_unpack _ _); vm_compute; exact I.
  - vm_compute. reflexivity.
  - vm_compute. reflexivity.
  - intros H. apply (f_equal (fun s => in_flight (synth s))) in H.
    vm_compute in H. discriminate H.
Qed.

(** C10 as stated fails: a button named by an element without text has
    the empty label, and [readerFocus] takes its guard. *)
Lemma blank_caption_gives_empty_label :
  tagName captioned_button <> EmptyString
  /\ getLabel caption_page captioned_button = EmptyString.
Proof. split; [discriminate | vm_compute; reflexivity]. Qed.

(* ===================================================================== *)
(** * The theorems at concrete pages                                       *)
(* ===================================================================== *)

Lemma record_stays_in_range_witness :
  in_range (prefs (run (load fresh_browser)
                     [ClickPanel (Some ix_font_inc); ClickPanel (Some 5%nat);
                      ClickPanel (Some ix_font_inc); ClickPanel (Some ix_font_inc)]))
  /\ booleans (prefs (run (load fresh_browser)
                        [ClickPanel (Some ix_font_inc); ClickPanel (Some 5%nat);
                         ClickPanel (Some ix_font_inc); ClickPanel (Some ix_font_inc)])).
Proof.
  apply (record_stays_in_range fresh_browser).
  - split; [exists 0 | exists "normal"]; split;
      [vm_compute; reflexivity | lia | vm_compute; reflexivity | simpl; tauto].
  - intros id key Hin. simpl in Hin.
    repeat (destruct Hin as [Hin | Hin];
            [injection Hin as <- <-; exists false; vm_compute; reflexivity|]).
    contradiction.
Defined.

Lemma toggles_follow_record_witness :
  toggles_show_booleans (run (load fresh_browser) toggle_reset_toggle).
Proof.
  destruct (toggles_follow_record fresh_browser toggle_reset_toggle None) as [H _].
  - intros id key Hin. simpl in Hin.
    repeat (destruct Hin as [Hin | Hin];
            [injection Hin as <- <-; exists false; vm_compute; reflexivity|]).
    contradiction.
  - exact H.
Defined.

Lemma save_then_load_witness :
  initial_prefs (savePrefs (to_obj sample_record) (storage_with ∅)) = to_obj sample_record
  /\ loadPrefs denied_storage = VObj []
  /\ initial_prefs denied_storage = defaults.
Proof.
  split.
  - apply (proj1 (save_then_load sample_record (storage_with ∅))).
    + split; [simpl; lia | simpl; tauto].
    + split; [reflexivity|]. apply Nat.leb_le. vm_compute. reflexivity.
  - apply (proj2 (save_then_load sample_record denied_storage)).
    left. reflexivity.
Defined.


Lemma font_steps_witness :
  stepped (load fresh_browser)
    (panel_click_handler (Some ix_font_inc) (load fresh_browser)) (0 + 1).
Proof.
  destruct (font_steps (load fresh_browser) 0) as (_ & _ & H & _).
  - vm_compute. reflexivity.
  - vm_compute. reflexivity.
  - lia.
  - apply H. lia.
Defined.

Lemma readout_reads_percentage_witness :
  js_trim (p_font_val (panel (run (load fresh_browser) [ClickPanel (Some ix_font_inc)])))
  = fontLabel (VNum (Int 1))
  /\ exists lead, fontLabel (VNum (Int 1)) = lead ++ "(" ++ pretty (100 + 1 * 10) ++ "%)".
Proof.
  apply (readout_reads_percentage fresh_browser [ClickPanel (Some ix_font_inc)] 1).
  - intros id key Hin. simpl in Hin.
    repeat (destruct Hin as [Hin | Hin];
            [injection Hin as <- <-; exists false; vm_compute; reflexivity|]).
    contradiction.
  - vm_compute. reflexivity.
  - lia.
Defined.

Lemma enableReader_repeated_witness :
  listeners (enableReader true narrating_page) = listeners narrating_page
  /\ with_synth (synth narrating_page) (enableReader true narrating_page) = narrating_page
  /\ synth (enableReader true narrating_page)
     = speak true onboarding true (synth narrating_page).
Proof.
  destruct (enableReader_repeated narrating_page) as (_ & H & _).
  apply H.
  split; [vm_compute; reflexivity|].
  split; refine (bool_decide_unpack _ _); vm_compute; exact I.
Defined.

Lemma announce_clears_then_sets_witness :
  area_of false (announce reset_message false (load fresh_browser)) = Some EmptyString
  /\ area_of false (animation_frame (announce reset_message false (load fresh_browser)))
     = Some reset_message.
Proof.
  destruct (proj1 (announce_clears_then_sets reset_message false (load fresh_browser))
              EmptyString) as (H1 & _ & _ & _ & H5 & _).
  - vm_compute. reflexivity.
  - split; [exact H1 | exact H5].
Defined.

Lemma label_empty_only_for_blank_reference_witness :
  getLabel caption_page heading
  = str_or (slice0 180 (js_trim (textContent heading))) (toLowerCase (tagName heading))
  /\ getLabel caption_page heading <> EmptyString.
Proof.
  destruct (label_empty_only_for_blank_reference caption_page heading) as (_ & H & _).
  - repeat split; discriminate.
  - destruct H as (H1 & _ & H3).
    + repeat split; try reflexivity; discriminate.
    + split; [exact H1 | exact H3].
Defined.

(* ===================================================================== *)
(** * What an event leaves alone                                           *)
(* ===================================================================== *)

Lemma settings_closePanel (s : Page) : settings (closePanel s) = settings s.
Proof. reflexivity. Qed.

Lemma settings_openPanel (s : Page) : settings (openPanel s) = settings s.
Proof. unfold openPanel. cbn. destruct (p_buttons (panel s)); reflexivity. Qed.

Lemma settings_transition_end (s : Page) : settings (transition_end s) = settings s.
Proof. unfold transition_end. destruct (p_transitionend (panel s)); reflexivity. Qed.

Lemma settings_run_callback (s : Page) (cb : Callback) :
  settings (run_callback s cb) = settings s.
Proof. destruct cb; reflexivity. Qed.

Lemma settings_animation_frame (s : Page) : settings (animation_frame s) = settings s.
Proof.
  unfold animation_frame.
  change (settings s) with (settings (with_frame_callbacks [] s)).
  generalize (with_frame_callbacks [] s) as s0. generalize (frame_callbacks s) as cbs.
  induction cbs as [|cb cbs IH]; intros s0; simpl; [reflexivity|].
  rewrite IH. apply settings_run_callback.
Qed.

Lemma settings_announce (m : string) (a : bool) (s : Page) :
  settings (announce m a s) = settings s.
Proof. unfold announce. destruct (area_of a s); reflexivity. Qed.

Lemma settings_readerFocus (el : Element) (s : Page) :
  settings (readerFocus el s) = settings s.
Proof. unfold readerFocus. destruct (String.eqb _ EmptyString); reflexivity. Qed.

Lemma settings_readerHover (chain : list Element) (s : Page) :
  settings (readerHover chain s) = settings s.
Proof. unfold readerHover. destruct (List.find hover_match chain); reflexivity. Qed.

(** Only a click in the panel changes the record, the storage, the root
    or the state of the narration. *)
Lemma settings_step (s : Page) (e : event) :
  outside_panel e = true -> settings (step s e) = settings s.
Proof.
  destruct e as [target| |key| | |el|chain| |m a]; cbn; intros H; try discriminate.
  - destruct (panelOpen s); [apply settings_closePanel | apply settings_openPanel].
  - destruct (String.eqb key "Escape" && panelOpen s); [apply settings_closePanel | reflexivity].
  - apply settings_transition_end.
  - apply settings_animation_frame.
  - case_bool_decide; [apply settings_readerFocus | reflexivity].
  - case_bool_decide; [apply settings_readerHover | reflexivity].
  - reflexivity.
  - apply settings_announce.
Qed.

Lemma settings_fields (s t : Page) :
  settings t = settings s ->
  prefs t = prefs s /\ storage t = storage s /\ html t = html s
  /\ readerActive t = readerActive s /\ listeners t = listeners s.
Proof. unfold settings. intros [= -> -> -> -> ->]. repeat split. Qed.

Lemma settings_parts (s : Page) (p : obj) (st : Storage) (h : Root) (r : bool)
    (l : gset (string * string)) :
  settings s = (p, st, h, r, l) ->
  prefs s = p /\ storage s = st /\ html s = h /\ readerActive s = r /\ listeners s = l.
Proof. unfold settings. intros [= <- <- <- <- <-]. repeat split. Qed.

(** A property of the pages that holds after the load and is kept by
    every event on a page that is rendered holds in every state reached. *)
Lemma run_invariant (I : Page -> Prop) (es : list event) (s : Page) :
  (forall s e, rendered s -> I s -> I (step s e)) ->
  rendered s -> I s -> I (run s es).
Proof.
  intros HI. revert s. induction es as [|e es IH]; intros s Hr Hs; simpl; [exact Hs|].
  apply IH; [apply rendered_step, Hr | apply HI; assumption].
Qed.

(** The same, for a property that only clicks in the panel can change. *)
Lemma step_by_click (I : Page -> Prop) (s : Page) (e : event) :
  (forall t, settings t = settings s -> I s -> I t) ->
  (forall i, I s -> I (click_at i s)) ->
  rendered s -> I s -> I (step s e).
Proof.
  intros Hset Hclick Hr Hs. destruct (outside_panel e) eqn:E.
  - apply (Hset _ (settings_step s e E) Hs).
  - destruct e as [target| | | | | | | |]; try discriminate. cbn.
    destruct (p_click (panel s)); [|exact Hs].
    destruct target as [i|]; [|exact Hs].
    rewrite handler_by_index by apply Hr. apply Hclick, Hs.
Qed.

(* ===================================================================== *)
(** * The root follows the record                                          *)
(* ===================================================================== *)

Lemma toggle_other (t token : string) (v : value) (cl : gset string) :
  token <> t -> token ∈ classList_toggle t v cl <-> token ∈ cl.
Proof.
  intros H. unfold classList_toggle.
  destruct v; try destruct (truthy _); try case_decide; set_solver.
Qed.

Lemma toggle_bool (t : string) (x : bool) (cl : gset string) :
  t ∈ classList_toggle t (VBool x) cl <-> x = true.
Proof.
  unfold classList_toggle, truthy. destruct x; [set_solver|].
  split; [set_solver | discriminate].
Qed.

Lemma root_shows_reader (h : Root) (p : obj) (v : value) :
  root_shows h p -> root_shows h (set_prop "readerEnabled" v p).
Proof.
  intros (Hf & Hc & Hk). split; [|split].
  - rewrite get_set_other by discriminate. exact Hf.
  - rewrite get_set_other by discriminate. exact Hc.
  - intros token key Hin. rewrite get_set_other; [exact (Hk token key Hin)|].
    simpl in Hin. intuition (simplify_eq; discriminate).
Qed.

Lemma root_shows_class (token key : string) (x : bool) (h : Root) (p : obj) :
  In (token, key) root_classes -> root_shows h p ->
  root_shows (toggle_root_class token (VBool x) h) (set_prop key (VBool x) p).
Proof.
  intros Hin (Hf & Hc & Hk).
  assert (Hkey : key <> "fontScale" /\ key <> "contrast" /\ key <> "__proto__").
  { simpl in Hin. intuition (simplify_eq; discriminate). }
  destruct Hkey as (H1 & H2 & H3).
  split; [|split].
  - rewrite get_set_other by congruence. exact Hf.
  - rewrite get_set_other by congruence. exact Hc.
  - intros token' key' Hin'. unfold toggle_root_class. cbn.
    destruct (String.eqb key key') eqn:E.
    + apply String.eqb_eq in E. subst key'.
      assert (token' = token) as ->.
      { simpl in Hin, Hin'. intuition (simplify_eq; reflexivity). }
      exists x. rewrite get_set_same by exact H3. split; [reflexivity | apply toggle_bool].
    + apply String.eqb_neq in E. rewrite get_set_other by exact E.
      destruct (Hk token' key' Hin') as (y & Hy & Hcl). exists y. split; [exact Hy|].
      rewrite toggle_other; [exact Hcl|].
      simpl in Hin, Hin'. intuition (simplify_eq; congruence).
Qed.

Lemma root_shows_font (z : Z) (h : Root) (p : obj) :
  0 <= 10 + z -> root_shows h p ->
  root_shows (applyFontScale (VNum (Int z)) h) (set_prop "fontScale" (VNum (Int z)) p).
Proof.
  intros Hz (Hf & Hc & Hk).
  unfold applyFontScale, to_number, num_add, num_geb.
  destruct (0 <=? 10 + z) eqn:E; [|apply Z.leb_gt in E; lia].
  split; [|split].
  - exists z. rewrite get_set_same by discriminate. split; reflexivity.
  - rewrite get_set_other by discriminate. exact Hc.
  - intros token key Hin. rewrite get_set_other; [exact (Hk token key Hin)|].
    simpl in Hin. intuition (simplify_eq; discriminate).
Qed.

Lemma root_shows_contrast (m : string) (h : Root) (p : obj) :
  root_shows h p ->
  root_shows (applyContrast (VStr m) h) (set_prop "contrast" (VStr m) p).
Proof.
  intros (Hf & Hc & Hk). split; [|split].
  - rewrite get_set_other by discriminate. exact Hf.
  - exists m. rewrite get_set_same by discriminate. split; reflexivity.
  - intros token key Hin. rewrite get_set_other; [exact (Hk token key Hin)|].
    simpl in Hin. intuition (simplify_eq; discriminate).
Qed.

(** [applyAll] makes the root show a record that is in range and whose
    toggle fields are booleans, whatever the root was. *)
Lemma root_shows_applyAll (p : obj) (h : Root) :
  in_range p -> booleans p -> root_shows (applyAll p h) p.
Proof.
  intros ((z & Hz & Hzr) & (m & Hm & _)) Hb.
  destruct (Hb "btn-spacing" "spacing") as (x1 & H1); [simpl; tauto|].
  destruct (Hb "btn-dyslexia" "dyslexia") as (x2 & H2); [simpl; tauto|].
  destruct (Hb "btn-links" "highlightLinks") as (x3 & H3); [simpl; tauto|].
  destruct (Hb "btn-cursor" "bigCursor") as (x4 & H4); [simpl; tauto|].
  unfold applyAll, applySpacing, applyDyslexia, applyHighlightLinks, applyBigCursor.
  rewrite Hz, Hm, H1, H2, H3, H4.
  unfold applyFontScale, applyContrast, toggle_root_class, to_number, num_add, num_geb.
  destruct (0 <=? 10 + z) eqn:E; [|apply Z.leb_gt in E; lia].
  cbn. split; [|split].
  - exists z. split; [exact Hz | reflexivity].
  - exists m. split; [exact Hm | reflexivity].
  - intros token key Hin. simpl in Hin.
    destruct Hin as [Hin|[Hin|[Hin|[Hin|[]]]]]; simplify_eq;
      eexists; (split; [eassumption|]); cbn;
      rewrite ?toggle_other by discriminate; apply toggle_bool.
Qed.

(** What the reset leaves of the settings. *)
Lemma settings_reset (s : Page) :
  settings (reset s)
  = (defaults, savePrefs defaults (storage s), applyAll defaults (html s), false,
     listeners s ∖ {[focus_listener]} ∖ {[hover_listener]}).
Proof. unfold reset. rewrite settings_announce. reflexivity. Qed.

Lemma html_reset (s : Page) : html (reset s) = applyAll defaults (html s).
Proof. pose proof (settings_reset s) as H. unfold settings in H. congruence. Qed.

Lemma storage_reset (s : Page) : storage (reset s) = savePrefs defaults (storage s).
Proof. pose proof (settings_reset s) as H. unfold settings in H. congruence. Qed.

Lemma root_shows_click_at (i : nat) (s : Page) :
  in_range (prefs s) -> root_shows (html s) (prefs s) ->
  root_shows (html (click_at i s)) (prefs (click_at i s)).
Proof.
  intros ((z & Hz & Hzr) & _) Hs.
  apply (click_at_cases (fun t => root_shows (html t) (prefs t))).
  - exact Hs.
  - exact Hs.
  - cbn. unfold flip_field. cbn. destruct (truthy _); apply root_shows_reader, Hs.
  - cbn. rewrite Hz. unfold to_number, num_leb, num_add.
    destruct (z <=? -2) eqn:E; [exact Hs|]. apply Z.leb_gt in E.
    unfold save, updateFontUI. cbn. rewrite get_set_same by discriminate.
    apply root_shows_font; [lia | exact Hs].
  - cbn. rewrite Hz. unfold to_number, num_geb, num_add.
    destruct (2 <=? z) eqn:E; [exact Hs|]. apply Z.leb_gt in E.
    unfold save, updateFontUI. cbn. rewrite get_set_same by discriminate.
    apply root_shows_font; [lia | exact Hs].
  - intros j m _. cbn. unfold save. cbn. rewrite get_set_same by discriminate.
    apply root_shows_contrast, Hs.
  - cbn. unfold save, flip_field. cbn. rewrite get_set_same by discriminate.
    apply (root_shows_class "a11y-spacing"); [simpl; tauto | exact Hs].
  - cbn. unfold save, flip_field. cbn. rewrite get_set_same by discriminate.
    apply (root_shows_class "a11y-dyslexia"); [simpl; tauto | exact Hs].
  - cbn. unfold save, flip_field. cbn. rewrite get_set_same by discriminate.
    apply (root_shows_class "a11y-highlight-links"); [simpl; tauto | exact Hs].
  - cbn. unfold save, flip_field. cbn. rewrite get_set_same by discriminate.
    apply (root_shows_class "a11y-big-cursor"); [simpl; tauto | exact Hs].
  - rewrite html_reset, prefs_reset. apply root_shows_applyAll.
    + split; [exists 0 | exists "normal"]; (split; [reflexivity|]); [lia | simpl; tauto].
    + intros id key Hin. simpl in Hin. intuition (simplify_eq; eexists; reflexivity).
Qed.

(** The settings after the load: the record merged from the storage, the
    storage as it was, the root with the record applied, and the
    narration on when the record says so. *)
Lemma settings_load (b : Browser) :
  let p := initial_prefs (br_storage b) in
  settings (load b)
  = (p, br_storage b, applyAll p (br_root b), truthy (get_prop "readerEnabled" p),
     if truthy (get_prop "readerEnabled" p) then {[focus_listener; hover_listener]} else ∅).
Proof.
  unfold load, settings. cbn -[initial_prefs].
  destruct (truthy (get_prop "readerEnabled" (initial_prefs (br_storage b)))); cbn -[initial_prefs].
  - unfold enableReader. cbn -[initial_prefs]. repeat f_equal; try set_solver.
  - reflexivity.
Qed.

Lemma prefs_load (b : Browser) : prefs (load b) = initial_prefs (br_storage b).
Proof. exact (f_equal (fun x => fst (fst (fst (fst x)))) (settings_load b)). Qed.

Lemma storage_load (b : Browser) : storage (load b) = br_storage b.
Proof. exact (f_equal (fun x => snd (fst (fst (fst x)))) (settings_load b)). Qed.

Lemma html_load (b : Browser) :
  html (load b) = applyAll (initial_prefs (br_storage b)) (br_root b).
Proof. exact (f_equal (fun x => snd (fst (fst x))) (settings_load b)). Qed.

Lemma root_shows_step (s : Page) (e : event) :
  rendered s ->
  in_range (prefs s) /\ root_shows (html s) (prefs s) ->
  in_range (prefs (step s e)) /\ root_shows (html (step s e)) (prefs (step s e)).
Proof.
  intros Hr. apply (step_by_click
    (fun t => in_range (prefs t) /\ root_shows (html t) (prefs t))); [| |exact Hr].
  - intros t Ht. destruct (settings_fields _ _ Ht) as (-> & _ & -> & _). tauto.
  - intros i [Hin Hs]. split.
    + exact (in_range_update _ _ (prefs_click_at i s) Hin).
    + apply root_shows_click_at; assumption.
Qed.

Lemma root_shows_run (b : Browser) (es : list event) :
  in_range (prefs (load b)) -> booleans (prefs (load b)) ->
  in_range (prefs (run (load b) es))
  /\ root_shows (html (run (load b) es)) (prefs (run (load b) es)).
Proof.
  intros Hin Hb.
  apply (run_invariant (fun t => in_range (prefs t) /\ root_shows (html t) (prefs t))).
  - exact root_shows_step.
  - apply rendered_load.
  - split; [exact Hin|].
    rewrite html_load. rewrite prefs_load in Hin, Hb |- *.
    apply root_shows_applyAll; assumption.
Qed.

(** X1.  In every state that a sequence of events reaches from a load whose
    record is in range and has booleans behind its toggles, the root
    shows the record: the font size is [1 + fontScale / 10] rem,
    [data-contrast] is the contrast mode, and each of the four classes
    is on the root exactly when its field is [true]. *)
Theorem root_follows_record (b : Browser) (es : list event) :
  in_range (prefs (load b)) -> booleans (prefs (load b)) ->
  root_shows (html (run (load b) es)) (prefs (run (load b) es)).
Proof. intros Hin Hb. apply root_shows_run; assumption. Qed.

(* ===================================================================== *)
(** * The classes of the root that are not the script's                    *)
(* ===================================================================== *)







(* ===================================================================== *)
(** * The narration follows the record                                     *)
(* ===================================================================== *)

Lemma narration_enableReader (s : Page) :
  narration_in_sync (enableReader (truthy (get_prop "readerEnabled" (prefs s))) s).
Proof.
  unfold narration_in_sync, enableReader.
  destruct (truthy (get_prop "readerEnabled" (prefs s))) eqn:E; cbn; rewrite E.
  - unfold focus_listener, hover_listener.
    split; [reflexivity|]. split; (split; [reflexivity|]); intros _; set_solver.
  - unfold focus_listener, hover_listener.
    split; [reflexivity|]. split; (split; [|discriminate]); set_solver.
Qed.

Lemma narration_settings (s t : Page) (key : string) (v : value) :
  key <> "readerEnabled" ->
  prefs t = set_prop key v (prefs s) ->
  readerActive t = readerActive s -> listeners t = listeners s ->
  narration_in_sync s -> narration_in_sync t.
Proof.
  unfold narration_in_sync. intros Hk -> -> ->.
  rewrite get_set_other by congruence. tauto.
Qed.

Lemma narration_click_at (i : nat) (s : Page) :
  narration_in_sync s -> narration_in_sync (click_at i s).
Proof.
  intros Hs. apply click_at_cases.
  - exact Hs.
  - exact Hs.
  - cbn. unfold save.
    change (narration_in_sync
              (enableReader
                 (truthy (get_prop "readerEnabled" (prefs (flip_field "readerEnabled" ix_reader s))))
                 (flip_field "readerEnabled" ix_reader s))).
    apply narration_enableReader.
  - cbn. destruct (num_leb _ _); [exact Hs|].
    eapply (narration_settings s _ "fontScale"); [discriminate | reflexivity .. | exact Hs].
  - cbn. destruct (num_geb _ _); [exact Hs|].
    eapply (narration_settings s _ "fontScale"); [discriminate | reflexivity .. | exact Hs].
  - intros j m _. cbn.
    eapply (narration_settings s _ "contrast"); [discriminate | reflexivity .. | exact Hs].
  - cbn. eapply (narration_settings s _ "spacing"); [discriminate | reflexivity .. | exact Hs].
  - cbn. eapply (narration_settings s _ "dyslexia"); [discriminate | reflexivity .. | exact Hs].
  - cbn. eapply (narration_settings s _ "highlightLinks");
      [discriminate | reflexivity .. | exact Hs].
  - cbn. eapply (narration_settings s _ "bigCursor"); [discriminate | reflexivity .. | exact Hs].
  - destruct (settings_parts _ _ _ _ _ _ (settings_reset s)) as (Hp & _ & _ & Ha & Hl).
    unfold narration_in_sync. rewrite Hp, Ha, Hl.
    unfold focus_listener, hover_listener.
    split; [reflexivity|]. split; (split; [|discriminate]); set_solver.
Qed.

Lemma narration_load (b : Browser) : narration_in_sync (load b).
Proof.
  destruct (settings_parts _ _ _ _ _ _ (settings_load b)) as (Hp & _ & _ & Ha & Hl).
  unfold narration_in_sync. rewrite Hp, Ha, Hl.
  unfold focus_listener, hover_listener.
  split; [reflexivity|].
  destruct (truthy _); split; split; try discriminate; try reflexivity; set_solver.
Qed.

Lemma narration_run (b : Browser) (es : list event) : narration_in_sync (run (load b) es).
Proof.
  apply run_invariant; [|apply rendered_load | apply narration_load].
  intros s e Hr Hs. apply step_by_click; [| |exact Hr | exact Hs].
  - intros t Ht. destruct (settings_fields _ _ Ht) as (Hp & _ & _ & Ha & Hl).
    unfold narration_in_sync. rewrite Hp, Ha, Hl. tauto.
  - intros i. apply narration_click_at.
Qed.

(** X4.  Over a record whose five toggle fields hold booleans at load (the
    markup of the toggles is then the one that [buildToggle] is embedded
    for): in every state that a sequence of events reaches, the
    narration is on exactly when the field [readerEnabled] of the record
    is [true], and its [focusin] and [mouseover] listeners are attached
    to the document exactly when it is on. *)
Theorem narration_follows_record (b : Browser) (es : list event) :
  booleans (prefs (load b)) ->
  let s := run (load b) es in
  readerActive s = truthy (get_prop "readerEnabled" (prefs s))
  /\ get_prop "readerEnabled" (prefs s) = VBool (readerActive s)
  /\ (focus_listener ∈ listeners s <-> readerActive s = true)
  /\ (hover_listener ∈ listeners s <-> readerActive s = true).
Proof.
  intros Hb. cbn zeta. destruct (narration_run b es) as (Ha & Hf & Hh).
  split; [exact Ha|]. split; [|split; assumption].
  pose proof (prefs_run booleans es (load b) booleans_update (rendered_load b) Hb) as Hb'.
  destruct (Hb' "btn-reader" "readerEnabled") as (x & Hx); [simpl; tauto|].
  rewrite Ha, Hx. destruct x; reflexivity.
Qed.

(* ===================================================================== *)
(** * The floating button and the panel                                    *)
(* ===================================================================== *)



Lemma chrome_announce (m : string) (a : bool) (s : Page) : chrome (announce m a s) = chrome s.
Proof. unfold announce. destruct (area_of a s); reflexivity. Qed.



Lemma chrome_reset (s : Page) : chrome (reset s) = (fab_for false, false).
Proof. unfold reset. rewrite chrome_announce. reflexivity. Qed.





(** X8.  Closing the panel attaches a listener that hides it when its
    transition ends, and opening it does not take the listener off: on a
    page whose panel is open, two clicks on the floating button before
    the transition has ended leave the panel hidden although it is open
    once the transition ends; with the transition ended between the two
    clicks the panel is shown. *)
Theorem reopened_panel_is_hidden (s : Page) :
  panelOpen s = true ->
  (let t := run s close_reopen in
   panelOpen t = true /\ fab t = fab_for true /\ p_hidden (panel t) = true)
  /\ (let t := run s close_wait_reopen in
      panelOpen t = true /\ fab t = fab_for true /\ p_hidden (panel t) = false).
Proof.
  intros Ho. unfold close_reopen, close_wait_reopen, run. cbn. rewrite Ho.
  unfold closePanel, openPanel, transition_end. cbn.
  split; destruct (p_buttons (panel s)); cbn; repeat split.
Qed.

(* ===================================================================== *)
(** * After a reset                                                        *)
(* ===================================================================== *)

Lemma p_click_run_callback (s : Page) (cb : Callback) :
  p_click (panel (run_callback s cb)) = p_click (panel s).
Proof. destruct cb; reflexivity. Qed.

Lemma p_click_animation_frame (s : Page) :
  p_click (panel (animation_frame s)) = p_click (panel s).
Proof.
  unfold animation_frame.
  change (p_click (panel s)) with (p_click (panel (with_frame_callbacks [] s))).
  generalize (with_frame_callbacks [] s) as s0. generalize (frame_callbacks s) as cbs.
  induction cbs as [|cb cbs IH]; intros s0; simpl; [reflexivity|].
  rewrite IH. apply p_click_run_callback.
Qed.

(** No event attaches the click listener to a panel that is without
    it, and on such a panel no event changes the settings. *)
Lemma unheard_step (s : Page) (e : event) :
  p_click (panel s) = false ->
  p_click (panel (step s e)) = false /\ settings (step s e) = settings s.
Proof.
  intros Hc. destruct (outside_panel e) eqn:E.
  - split; [|apply settings_step, E].
    destruct e as [target| |key| | |el|chain| |m a]; cbn; try discriminate.
    + destruct (panelOpen s); [exact Hc|].
      unfold openPanel. cbn. destruct (p_buttons (panel s)); exact Hc.
    + destruct (String.eqb key "Escape" && panelOpen s); exact Hc.
    + unfold transition_end. destruct (p_transitionend (panel s)); exact Hc.
    + rewrite p_click_animation_frame. exact Hc.
    + case_bool_decide; [|exact Hc]. unfold readerFocus.
      destruct (String.eqb _ EmptyString); exact Hc.
    + case_bool_decide; [|exact Hc]. unfold readerHover.
      destruct (List.find hover_match chain); exact Hc.
    + exact Hc.
    + unfold announce. destruct (area_of a s); exact Hc.
  - destruct e; try discriminate. cbn. rewrite Hc. split; [exact Hc | reflexivity].
Qed.

Lemma unheard_run (s : Page) (es : list event) :
  p_click (panel s) = false ->
  p_click (panel (run s es)) = false /\ settings (run s es) = settings s.
Proof.
  revert s. induction es as [|e es IH]; intros s Hc; simpl; [split; [exact Hc | reflexivity]|].
  destruct (unheard_step s e Hc) as [Hc' Hs'].
  destruct (IH _ Hc') as [Hc'' Hs'']. split; [exact Hc'' | congruence].
Qed.

(** X9.  The reset replaces the panel by a fresh one and attaches the click
    listener of the floating button again, not the click listener of the
    panel.  From then on, whatever the events, a click in the panel does
    nothing, and the record (the defaults), the storage, the root and
    the state of the narration stay as the reset left them. *)
Theorem after_reset_the_panel_is_dead (s : Page) (es : list event) :
  let t := run (reset s) es in
  prefs t = defaults
  /\ settings t = settings (reset s)
  /\ forall target, step t (ClickPanel target) = t.
Proof.
  cbn zeta.
  destruct (unheard_run (reset s) es (proj1 (clicks_after_reset_are_lost s None)))
    as [Hc Hs].
  split; [|split].
  - destruct (settings_fields _ _ Hs) as (-> & _). apply prefs_reset.
  - exact Hs.
  - intros target. cbn. rewrite Hc. reflexivity.
Qed.

(* ===================================================================== *)
(** * The storage                                                          *)
(* ===================================================================== *)

Lemma savePrefs_frame (p : obj) (st : Storage) :
  st_denied (savePrefs p st) = st_denied st
  /\ st_room (savePrefs p st) = st_room st
  /\ forall k, k <> storage_key -> st_items (savePrefs p st) !! k = st_items st !! k.
Proof.
  unfold savePrefs, setItem. destruct (st_denied st) eqn:E; [repeat split; exact E|].
  destruct (_ <? _)%nat; [repeat split; exact E|]. cbn.
  repeat split. intros k Hk. apply lookup_insert_ne. congruence.
Qed.

(** A click in the panel either leaves the record and the storage as
    they are, or ends with the new record saved. *)
Lemma saved_click_at (i : nat) (s : Page) :
  (prefs (click_at i s) = prefs s /\ storage (click_at i s) = storage s)
  \/ storage (click_at i s) = savePrefs (prefs (click_at i s)) (storage s).
Proof.
  apply (click_at_cases
    (fun t => (prefs t = prefs s /\ storage t = storage s)
              \/ storage t = savePrefs (prefs t) (storage s))).
  - left. split; reflexivity.
  - left. split; reflexivity.
  - right. cbn. unfold flip_field. cbn. destruct (truthy _); reflexivity.
  - cbn. destruct (num_leb _ _); [left; split; reflexivity | right; reflexivity].
  - cbn. destruct (num_geb _ _); [left; split; reflexivity | right; reflexivity].
  - intros j m _. right. reflexivity.
  - right. reflexivity.
  - right. reflexivity.
  - right. reflexivity.
  - right. reflexivity.
  - right. rewrite storage_reset, prefs_reset. reflexivity.
Qed.



(* ===================================================================== *)
(** * What a reload reads back                                             *)
(* ===================================================================== *)

(** The text saved for a valid record has at most 132 characters. *)
Lemma saved_text_short (r : PreferenceRecord) :
  valid_record r -> (String.length (saved_text (to_obj r)) <= 132)%nat.
Proof.
  destruct r as [z c sp dy hl bc re]. intros [Hz Hc]. simpl in Hz, Hc.
  apply small_scale in Hz. apply in_contrasts in Hc.
  destruct Hz as [-> | [-> | [-> | [-> | ->]]]];
    destruct Hc as [-> | [-> | [-> | ->]]];
    destruct sp, dy, hl, bc, re; apply Nat.leb_le; vm_compute; reflexivity.
Qed.

(** Every change that an event makes to a valid record gives a valid
    record. *)
Lemma valid_update (r : PreferenceRecord) (p' : obj) :
  valid_record r -> record_update (to_obj r) p' ->
  exists r', valid_record r' /\ p' = to_obj r'.
Proof.
  destruct r as [z c sp dy hl bc re]. intros [Hz Hc] Hu. simpl in Hz, Hc.
  destruct Hu as [-> | id key Hin -> | Hg -> | Hg -> | m Hm -> | ->].
  - eexists. split; [|reflexivity]. split; assumption.
  - simpl in Hin. destruct Hin as [Hin|[Hin|[Hin|[Hin|[Hin|[]]]]]]; injection Hin as <- <-.
    + exists (mkPreferenceRecord z c sp dy hl bc (negb re)). split; [split; assumption|].
      reflexivity.
    + exists (mkPreferenceRecord z c (negb sp) dy hl bc re). split; [split; assumption|].
      reflexivity.
    + exists (mkPreferenceRecord z c sp (negb dy) hl bc re). split; [split; assumption|].
      reflexivity.
    + exists (mkPreferenceRecord z c sp dy (negb hl) bc re). split; [split; assumption|].
      reflexivity.
    + exists (mkPreferenceRecord z c sp dy hl (negb bc) re). split; [split; assumption|].
      reflexivity.
  - exists (mkPreferenceRecord (z + 1) c sp dy hl bc re). split; [|reflexivity].
    change (num_geb (Int z) 2 = false) in Hg. unfold num_geb in Hg. apply Z.leb_gt in Hg.
    split; simpl; [lia | exact Hc].
  - exists (mkPreferenceRecord (z + -1) c sp dy hl bc re). split; [|reflexivity].
    change (num_leb (Int z) (-2) = false) in Hg. unfold num_leb in Hg. apply Z.leb_gt in Hg.
    split; simpl; [lia | exact Hc].
  - exists (mkPreferenceRecord z m sp dy hl bc re). split; [|reflexivity].
    split; simpl; [lia | exact Hm].
  - exists default_record. split; [|reflexivity]. split; simpl; [lia | tauto].
Qed.

Lemma persisted_click_at (i : nat) (s : Page) :
  roomy 132 (storage s) -> persisted s ->
  roomy 132 (storage (click_at i s)) /\ persisted (click_at i s).
Proof.
  intros [Hd Hroom] (r & Hv & Hp & Hl).
  destruct (saved_click_at i s) as [[Hp' Hs'] | Hs'].
  - rewrite Hs'. split; [split; assumption|]. exists r. rewrite Hp', Hs'. tauto.
  - pose proof (prefs_click_at i s) as Hu. rewrite Hp in Hu.
    destruct (valid_update r _ Hv Hu) as (r' & Hv' & Hp').
    rewrite Hs'. destruct (savePrefs_frame (prefs (click_at i s)) (storage s)) as (Hd' & Hr' & _).
    split; [split; congruence|].
    exists r'. split; [exact Hv'|]. split; [exact Hp'|].
    rewrite Hs', Hp'. apply saved_record_loads; [exact Hv'|].
    split; [exact Hd|]. pose proof (saved_text_short r' Hv'). lia.
Qed.

Lemma persisted_run (b : Browser) (es : list event) (r : PreferenceRecord) :
  valid_record r -> initial_prefs (br_storage b) = to_obj r -> roomy 132 (br_storage b) ->
  persisted (run (load b) es).
Proof.
  intros Hv Hi Hroom.
  apply (run_invariant (fun t => roomy 132 (storage t) /\ persisted t)).
  - intros s e Hr Hs. apply step_by_click; [| |exact Hr | exact Hs].
    + intros t Ht. destruct (settings_fields _ _ Ht) as (Hp & Hst & _).
      unfold persisted. rewrite Hp, Hst. tauto.
    + intros i [H1 H2]. apply persisted_click_at; assumption.
  - apply rendered_load.
  - rewrite storage_load. split; [exact Hroom|].
    exists r. rewrite prefs_load, storage_load. tauto.
Qed.

(** X12.  A reload at any time restores the record.  When the script starts
    over a valid record (the defaults on a first visit or on unreadable
    storage, or a record that the panel saved) and the storage takes
    texts of 132 characters, then in every state that a sequence of
    events reaches, the record is valid and a page loaded on the storage
    of that state starts with that very record. *)
Theorem reload_restores_the_record (b b' : Browser) (es : list event) (r : PreferenceRecord) :
  valid_record r -> initial_prefs (br_storage b) = to_obj r -> roomy 132 (br_storage b) ->
  br_storage b' = storage (run (load b) es) ->
  prefs (load b') = prefs (run (load b) es)
  /\ exists r', valid_record r' /\ prefs (run (load b) es) = to_obj r'.
Proof.
  intros Hv Hi Hroom Hb'.
  destruct (persisted_run b es r Hv Hi Hroom) as (r' & Hv' & Hp' & Hl').
  split; [|exists r'; tauto].
  rewrite prefs_load, Hb', Hl', Hp'. reflexivity.
Qed.

(* ===================================================================== *)
(** * The contrast grid follows the record                                 *)
(* ===================================================================== *)

Lemma grid_shows_patch (v : value) (b : Button) :
  has_action "contrast" b = true -> grid_shows v (patch_contrast v b).
Proof.
  intros Ha. unfold grid_shows, patch_contrast. rewrite Ha. cbn.
  split; [apply toggle_bool|]. destruct (dataset_eq _ _); reflexivity.
Qed.

Lemma has_action_patch_contrast (a : string) (v : value) (b : Button) :
  has_action a (patch_contrast v b) = has_action a b.
Proof. unfold patch_contrast. destruct (has_action "contrast" b); reflexivity. Qed.

Lemma strict_eq_dataset (v : value) (key : string) :
  strict_eq_str v key = dataset_eq (Some key) v.
Proof. destruct v; try reflexivity. apply String.eqb_sym. Qed.

Lemma grid_shows_build (v : value) (key : string) : grid_shows v (buildContrast v key).
Proof.
  unfold grid_shows, buildContrast. cbn -[dataset_eq strict_eq_str].
  rewrite <- strict_eq_dataset.
  destruct (strict_eq_str v key); split; try reflexivity; set_solver.
Qed.

Lemma contrast_view (s t : Page) : view t = view s -> contrast_in_sync s -> contrast_in_sync t.
Proof. unfold view, contrast_in_sync. intros [= -> -> _]. tauto. Qed.

(** The contrast buttons of two panels of the built shape are shown to
    be the same by their classes and pressed states. *)
Ltac grid_case Hs Hbs :=
  let i := fresh "i" in let btn := fresh "btn" in
  let Hi := fresh "Hi" in let Ha := fresh "Ha" in
  intros i btn Hi Ha; cbn in Hi; rewrite ?Hbs in Hi; unfold patch_toggle in Hi; cbn in Hi;
  rewrite ?get_set_other by discriminate;
  do 13 (destruct i as [|i];
         [ cbn in Hi; injection Hi as <-; try discriminate Ha;
           first [ apply (Hs 4%nat); [rewrite Hbs; reflexivity | reflexivity]
                 | apply (Hs 5%nat); [rewrite Hbs; reflexivity | reflexivity]
                 | apply (Hs 6%nat); [rewrite Hbs; reflexivity | reflexivity]
                 | apply (Hs 7%nat); [rewrite Hbs; reflexivity | reflexivity] ]
         |]);
  discriminate Hi.

Lemma contrast_click_at (i : nat) (s : Page) :
  panel_shape s -> contrast_in_sync s -> contrast_in_sync (click_at i s).
Proof.
  intros Hshape Hs. name_buttons Hshape Hbs. apply click_at_cases.
  - exact Hs.
  - exact Hs.
  - cbn. apply (contrast_view (flip_field "readerEnabled" ix_reader s));
      [rewrite view_save; apply view_enableReader|].
    unfold flip_field, contrast_in_sync. cbn. grid_case Hs Hbs.
  - cbn. destruct (num_leb _ _); [exact Hs|].
    unfold save, updateFontUI, contrast_in_sync. cbn. grid_case Hs Hbs.
  - cbn. destruct (num_geb _ _); [exact Hs|].
    unfold save, updateFontUI, contrast_in_sync. cbn. grid_case Hs Hbs.
  - intros j m _. cbn. unfold save, contrast_in_sync. cbn.
    intros k btn Hk Ha. rewrite list_lookup_fmap in Hk.
    destruct (p_buttons (panel s) !! k) as [b0|]; [|discriminate Hk].
    injection Hk as <-. rewrite has_action_patch_contrast in Ha.
    apply grid_shows_patch, Ha.
  - cbn. unfold save, flip_field, contrast_in_sync. cbn. grid_case Hs Hbs.
  - cbn. unfold save, flip_field, contrast_in_sync. cbn. grid_case Hs Hbs.
  - cbn. unfold save, flip_field, contrast_in_sync. cbn. grid_case Hs Hbs.
  - cbn. unfold save, flip_field, contrast_in_sync. cbn. grid_case Hs Hbs.
  - unfold contrast_in_sync. rewrite prefs_reset.
    assert (Hb : p_buttons (panel (reset s)) = p_buttons (snd (buildPanel defaults))).
    { unfold reset, announce. destruct (area_of _ _); reflexivity. }
    rewrite Hb. intros k btn Hk Ha. unfold buildPanel in Hk. cbn in Hk.
    do 13 (destruct k as [|k];
           [cbn in Hk; injection Hk as <-; try discriminate Ha; apply grid_shows_build|]).
    discriminate Hk.
Qed.

Lemma contrast_built (s : Page) :
  p_buttons (panel s) = p_buttons (snd (buildPanel (prefs s))) -> contrast_in_sync s.
Proof.
  intros Hb k btn Hk Ha. rewrite Hb in Hk. unfold buildPanel in Hk. cbn in Hk.
  do 13 (destruct k as [|k];
         [cbn in Hk; injection Hk as <-; try discriminate Ha; apply grid_shows_build|]).
  discriminate Hk.
Qed.

Lemma contrast_run (b : Browser) (es : list event) : contrast_in_sync (run (load b) es).
Proof.
  apply run_invariant; [|apply rendered_load|].
  - intros s e Hr Hs. destruct (outside_panel e) eqn:E.
    + apply (contrast_view s); [|exact Hs].
      destruct e as [target| |key| | |el|chain| |m a]; cbn; try discriminate.
      * destruct (panelOpen s); [apply view_closePanel | apply view_openPanel].
      * destruct (String.eqb key "Escape" && panelOpen s); [apply view_closePanel | reflexivity].
      * apply view_transition_end.
      * apply view_animation_frame.
      * case_bool_decide; [apply view_readerFocus | reflexivity].
      * case_bool_decide; [apply view_readerHover | reflexivity].
      * reflexivity.
      * apply view_announce.
    + destruct e as [target| | | | | | | |]; try discriminate. cbn.
      destruct (p_click (panel s)); [|exact Hs].
      destruct target as [i|]; [|exact Hs].
      rewrite handler_by_index by apply Hr. apply contrast_click_at; [apply Hr | exact Hs].
  - apply contrast_built. unfold load. cbn -[initial_prefs buildPanel enableReader].
    destruct (truthy _); reflexivity.
Qed.

(** X3.  Over a record whose five toggle fields hold booleans at load (the
    markup of the toggles is then the one that [buildToggle] is embedded
    for, and adds no button to the grid): in every state that a sequence
    of events reaches, the contrast grid shows the contrast mode [m] of
    the record: each of its buttons has
    one of the four modes as [data-value], and has the class
    [is-active] and [aria-pressed] [true] when that mode is [m],
    neither when it is not; and the grid has a button for each of the
    four modes. *)
Theorem contrast_grid_follows_record (b : Browser) (es : list event) (m : string) :
  booleans (prefs (load b)) ->
  let s := run (load b) es in
  get_prop "contrast" (prefs s) = VStr m ->
  (forall i btn, p_buttons (panel s) !! i = Some btn -> b_action btn = Some "contrast" ->
     exists key, In key contrasts /\ b_value btn = Some key
       /\ ("is-active" ∈ b_class btn <-> key = m)
       /\ b_pressed btn = Some (if String.eqb key m then "true" else "false"))
  /\ (forall key, In key contrasts ->
        exists i btn, p_buttons (panel s) !! i = Some btn
          /\ b_action btn = Some "contrast" /\ b_value btn = Some key).
Proof.
  intros _. cbn zeta. intros Hm.
  pose proof (contrast_run b es) as Hs.
  pose proof (rendered_run es (load b) (rendered_load b)) as (Hshape & _).
  name_buttons Hshape Hbs. unfold contrast_in_sync in Hs. rewrite Hm, Hbs in *.
  split.
  - intros i btn Hi Ha.
    do 13 (destruct i as [|i];
           [ cbn in Hi; injection Hi as <-; try discriminate Ha;
             eexists; (split; [|split; [reflexivity|]]); try (simpl; tauto);
             rewrite <- String.eqb_eq;
             first [ destruct (Hs 4%nat _ eq_refl eq_refl) as [Hc Hp]; cbn in Hc, Hp |- *;
                     split; assumption
                   | destruct (Hs 5%nat _ eq_refl eq_refl) as [Hc Hp]; cbn in Hc, Hp |- *;
                     split; assumption
                   | destruct (Hs 6%nat _ eq_refl eq_refl) as [Hc Hp]; cbn in Hc, Hp |- *;
                     split; assumption
                   | destruct (Hs 7%nat _ eq_refl eq_refl) as [Hc Hp]; cbn in Hc, Hp |- *;
                     split; assumption ]
           |]).
    discriminate Hi.
  - intros key Hin. simpl in Hin.
    destruct Hin as [<-|[<-|[<-|[<-|[]]]]];
      [exists 4%nat | exists 5%nat | exists 6%nat | exists 7%nat];
      eexists; (split; [reflexivity|]); split; reflexivity.
Qed.

(* ===================================================================== *)
(** * The reset                                                            *)
(* ===================================================================== *)

Lemma panel_reset (s : Page) : panel (reset s) = snd (buildPanel defaults).
Proof. unfold reset, announce. destruct (area_of _ _); reflexivity. Qed.

Lemma announcement_reset (s : Page) (old : string) :
  notificationArea s = Some old ->
  notificationArea (reset s) = Some EmptyString
  /\ frame_callbacks (reset s) = (frame_callbacks s ++ [SetAreaText false reset_message])%list.
Proof.
  intros Ha. unfold reset, announce, area_of, enableReader. cbn. rewrite Ha. cbn.
  split; reflexivity.
Qed.

(** X10.  A click on the reset button, on a panel of the built shape: the
    record is the defaults and is saved; the root shows the defaults
    (font size 1 rem, contrast [normal], none of the four classes); the
    narration is off, its listeners detached and nothing in flight; the
    panel is the one that [buildPanel] makes for the defaults, hidden,
    and the floating button says closed; and when the page has the
    polite live region, the region is cleared and the confirmation
    waits for the next frame. *)
Theorem reset_restores_the_defaults (s : Page) (old : string) :
  panel_shape s -> notificationArea s = Some old ->
  let t := panel_click_handler (Some ix_reset) s in
  prefs t = defaults
  /\ storage t = savePrefs defaults (storage s)
  /\ root_shows (html t) defaults
  /\ (readerActive t = false /\ (focus_listener ∉ listeners t)
      /\ (hover_listener ∉ listeners t) /\ in_flight (synth t) = 0%nat)
  /\ (panel t = snd (buildPanel defaults) /\ p_hidden (panel t) = true
      /\ panelOpen t = false /\ fab t = fab_for false)
  /\ (notificationArea t = Some EmptyString
      /\ frame_callbacks t = (frame_callbacks s ++ [SetAreaText false reset_message])%list).
Proof.
  intros Hshape Ha. cbn zeta. rewrite handler_by_index by exact Hshape.
  change (click_at ix_reset s) with (reset s).
  destruct (settings_parts _ _ _ _ _ _ (settings_reset s)) as (Hp & Hst & Hh & Hr & Hl).
  split; [exact Hp|]. split; [exact Hst|]. split.
  { rewrite Hh. apply root_shows_applyAll.
    - split; [exists 0 | exists "normal"]; (split; [reflexivity|]); [lia | simpl; tauto].
    - intros id key Hin. simpl in Hin. intuition (simplify_eq; eexists; reflexivity). }
  split.
  { split; [exact Hr|]. rewrite Hl. unfold focus_listener, hover_listener.
    split; [set_solver|]. split; [set_solver | apply reset_in_flight]. }
  split.
  { rewrite panel_reset. split; [reflexivity|]. split; [reflexivity|].
    pose proof (chrome_reset s) as Hc. unfold chrome in Hc. injection Hc as -> ->.
    split; reflexivity. }
  exact (announcement_reset s old Ha).
Qed.

(* ===================================================================== *)
(** * Steps that undo each other                                           *)
(* ===================================================================== *)

Lemma define_prop_nil (k : string) (v : value) : define_prop k v [] = [(k, v)].
Proof. reflexivity. Qed.

Lemma define_prop_cons (k : string) (v : value) (k' : string) (v' : value) (o : obj) :
  define_prop k v ((k', v') :: o)
  = if String.eqb k k' then (k', v) :: o else (k', v') :: define_prop k v o.
Proof. reflexivity. Qed.

Lemma get_prop_cons (k k' : string) (v' : value) (o : obj) :
  get_prop k ((k', v') :: o) = if String.eqb k k' then v' else get_prop k o.
Proof. reflexivity. Qed.

Lemma define_prop_twice (k : string) (v w : value) (o : obj) :
  define_prop k v (define_prop k w o) = define_prop k v o.
Proof.
  induction o as [|[k' v'] o IH].
  - rewrite define_prop_nil, define_prop_cons, String.eqb_refl. reflexivity.
  - rewrite !define_prop_cons. destruct (String.eqb k k') eqn:E;
      rewrite define_prop_cons, E; [reflexivity|]. rewrite IH. reflexivity.
Qed.

Lemma define_prop_same (k : string) (o : obj) :
  has_prop k o = true -> define_prop k (get_prop k o) o = o.
Proof.
  induction o as [|[k' v'] o IH]; cbn [has_prop]; [discriminate|].
  rewrite define_prop_cons, get_prop_cons.
  destruct (String.eqb k k') eqn:E; [reflexivity|].
  cbn [orb]. intros H. rewrite IH by exact H. reflexivity.
Qed.

Lemma has_prop_defined (k : string) (o : obj) : get_prop k o <> VUndef -> has_prop k o = true.
Proof.
  induction o as [|[k' v'] o IH]; cbn [has_prop].
  - intros H. contradiction H. reflexivity.
  - rewrite get_prop_cons. destruct (String.eqb k k'); [reflexivity|]. exact IH.
Qed.

(** Writing a field and then its old value back gives the object as it
    was. *)
Lemma set_prop_back (k : string) (v : value) (o : obj) :
  k <> "__proto__" -> get_prop k o <> VUndef ->
  set_prop k (get_prop k o) (set_prop k v o) = o.
Proof.
  intros Hk Hg. unfold set_prop. apply String.eqb_neq in Hk. rewrite Hk.
  rewrite define_prop_twice. apply define_prop_same, has_prop_defined, Hg.
Qed.

Lemma up_then_down (s : Page) (z : Z) :
  rendered s -> root_shows (html s) (prefs s) ->
  get_prop "fontScale" (prefs s) = VNum (Int z) -> -2 <= z < 2 ->
  let t := click_at ix_font_dec (click_at ix_font_inc s) in
  prefs t = prefs s /\ html t = html s /\ p_buttons (panel t) = p_buttons (panel s)
  /\ p_font_val (panel t) = fontLabel (VNum (Int z)).
Proof.
  intros (Hshape & Hsync & Hread) ((z' & Hz' & Hsize) & _) Hz Hr. cbn zeta.
  rewrite Hz in Hz'. injection Hz' as <-.
  name_buttons Hshape Hbs. old_facts Hsync Hread Hbs.
  unfold click_at. cbn. rewrite Hz. unfold to_number, num_geb, num_add.
  destruct (2 <=? z) eqn:E1; [apply Z.leb_le in E1; lia|].
  unfold save, updateFontUI. cbn. rewrite !get_set_same by discriminate.
  unfold to_number, num_leb, num_add.
  destruct (z + 1 <=? -2) eqn:E2; [apply Z.leb_le in E2; lia|].
  cbn. rewrite Hbs. cbn. unfold num_geb.
  replace (z + 1 + -1) with z by lia.
  split; [|split; [|split]].
  - rewrite <- Hz at 1. apply set_prop_back; [discriminate | rewrite Hz; discriminate].
  - unfold applyFontScale, to_number, num_add, num_geb.
    destruct (0 <=? 10 + (z + 1)) eqn:E3; [|apply Z.leb_gt in E3; lia].
    destruct (0 <=? 10 + z) eqn:E4; [|apply Z.leb_gt in E4; lia].
    cbn. destruct (html s) as [f d c]. cbn in Hsize |- *. rewrite Hsize. reflexivity.
  - cbn [b_disabled] in Hinc, Hdec. rewrite Hz in Hinc, Hdec.
    unfold to_number, num_geb, num_leb in Hinc, Hdec. rewrite Hinc, Hdec. reflexivity.
  - reflexivity.
Qed.

Lemma toggle_back (t : string) (x : bool) (cl : gset string) :
  (t ∈ cl <-> x = true) ->
  classList_toggle t (VBool x) (classList_toggle t (VBool (negb x)) cl) = cl.
Proof.
  intros H. unfold classList_toggle, truthy. apply set_eq. intros y.
  destruct x; cbn; destruct (decide (y = t)) as [-> | Hy]; set_solver.
Qed.

Lemma patch_back (x : bool) (b : Button) :
  shows b (VBool x) -> patch_toggle (VBool x) (patch_toggle (VBool (negb x)) b) = b.
Proof.
  intros (Hc & Hp & Hl). destruct b as [i c a v p d l]. unfold patch_toggle. cbn in *.
  rewrite toggle_back by exact Hc. rewrite Hp, Hl. reflexivity.
Qed.

Lemma root_toggle_back (token : string) (x : bool) (h : Root) :
  (token ∈ classList h <-> x = true) ->
  toggle_root_class token (VBool x) (toggle_root_class token (VBool (negb x)) h) = h.
Proof.
  intros H. destruct h as [f d c]. unfold toggle_root_class. cbn in *.
  rewrite toggle_back by exact H. reflexivity.
Qed.

Lemma flip_back (key : string) (x : bool) (p : obj) :
  key <> "__proto__" -> get_prop key p = VBool x ->
  set_prop key (js_not (get_prop key (set_prop key (js_not (get_prop key p)) p)))
    (set_prop key (js_not (get_prop key p)) p) = p.
Proof.
  intros Hk Hx. rewrite get_set_same by exact Hk. rewrite Hx. unfold js_not, truthy.
  rewrite negb_involutive. rewrite <- Hx. apply set_prop_back; [exact Hk|].
  rewrite Hx. discriminate.
Qed.

Lemma twice_a_toggle (i : nat) (s : Page) :
  In i class_toggles -> rendered s -> root_shows (html s) (prefs s) ->
  let t := click_at i (click_at i s) in
  prefs t = prefs s /\ html t = html s /\ p_buttons (panel t) = p_buttons (panel s).
Proof.
  intros Hi (Hshape & Hsync & Hread) (_ & _ & Hroot). cbn zeta.
  name_buttons Hshape Hbs. old_facts Hsync Hread Hbs.
  destruct (Hroot "a11y-spacing" "spacing") as (x8 & Hx8 & Hc8); [simpl; tauto|].
  destruct (Hroot "a11y-dyslexia" "dyslexia") as (x9 & Hx9 & Hc9); [simpl; tauto|].
  destruct (Hroot "a11y-highlight-links" "highlightLinks") as (x10 & Hx10 & Hc10);
    [simpl; tauto|].
  destruct (Hroot "a11y-big-cursor" "bigCursor") as (x11 & Hx11 & Hc11); [simpl; tauto|].
  rewrite Hx8 in Hspacing. rewrite Hx9 in Hdyslexia.
  rewrite Hx10 in Hlinks. rewrite Hx11 in Hcursor.
  simpl in Hi. destruct Hi as [<-|[<-|[<-|[<-|[]]]]];
    unfold click_at; cbn; unfold save, flip_field; cbn; rewrite Hbs; cbn;
    rewrite !get_set_same by discriminate;
    unfold applySpacing, applyDyslexia, applyHighlightLinks, applyBigCursor.
  - rewrite Hx8. unfold js_not, truthy. rewrite negb_involutive.
    rewrite (patch_back x8 _ Hspacing), (root_toggle_back _ x8 _ Hc8).
    split; [|split; reflexivity].
    rewrite <- Hx8. apply set_prop_back; [discriminate | rewrite Hx8; discriminate].
  - rewrite Hx9. unfold js_not, truthy. rewrite negb_involutive.
    rewrite (patch_back x9 _ Hdyslexia), (root_toggle_back _ x9 _ Hc9).
    split; [|split; reflexivity].
    rewrite <- Hx9. apply set_prop_back; [discriminate | rewrite Hx9; discriminate].
  - rewrite Hx10. unfold js_not, truthy. rewrite negb_involutive.
    rewrite (patch_back x10 _ Hlinks), (root_toggle_back _ x10 _ Hc10).
    split; [|split; reflexivity].
    rewrite <- Hx10. apply set_prop_back; [discriminate | rewrite Hx10; discriminate].
  - rewrite Hx11. unfold js_not, truthy. rewrite negb_involutive.
    rewrite (patch_back x11 _ Hcursor), (root_toggle_back _ x11 _ Hc11).
    split; [|split; reflexivity].
    rewrite <- Hx11. apply set_prop_back; [discriminate | rewrite Hx11; discriminate].
Qed.

(** X14.  In a state that a sequence of events reaches from a load whose
    record is in range and has booleans behind its toggles, two clicks
    undo each other: the increment of the text size followed by the
    decrement, from a scale below 2, and two clicks on the toggle of the
    spacing, of the dyslexia font, of the links or of the cursor.
    After them the record, the root and every button of the panel are
    what they were, and the readout is the label of the scale.  (The
    listener is run as on a panel that carries it.) *)
Theorem clicks_that_undo_each_other (b : Browser) (es : list event) :
  in_range (prefs (load b)) -> booleans (prefs (load b)) ->
  let s := run (load b) es in
  let same (t : Page) :=
    prefs t = prefs s /\ html t = html s /\ p_buttons (panel t) = p_buttons (panel s) in
  (forall z, get_prop "fontScale" (prefs s) = VNum (Int z) -> z < 2 ->
     let t := panel_click_handler (Some ix_font_dec)
                (panel_click_handler (Some ix_font_inc) s) in
     same t /\ p_font_val (panel t) = fontLabel (VNum (Int z)))
  /\ (forall i, In i class_toggles ->
        same (panel_click_handler (Some i) (panel_click_handler (Some i) s))).
Proof.
  intros Hin Hb. cbn zeta.
  pose proof (rendered_run es (load b) (rendered_load b)) as Hr.
  destruct (root_shows_run b es Hin Hb) as [Hin' Hroot].
  split.
  - intros z Hz Hlt.
    assert (Hz2 : -2 <= z).
    { destruct Hin' as ((z' & Hz' & Hb') & _). rewrite Hz in Hz'. injection Hz' as <-. lia. }
    rewrite (handler_by_index ix_font_inc (run (load b) es)) by apply Hr.
    rewrite handler_by_index by apply rendered_click_at, Hr.
    destruct (up_then_down _ z Hr Hroot Hz ltac:(lia)) as (H1 & H2 & H3 & H4).
    repeat split; assumption.
  - intros i Hi.
    rewrite (handler_by_index i (run (load b) es)) by apply Hr.
    rewrite handler_by_index by apply rendered_click_at, Hr.
    exact (twice_a_toggle i _ Hi Hr Hroot).
Qed.

(* ===================================================================== *)
(** * A storage that refuses                                               *)
(* ===================================================================== *)




(* ===================================================================== *)
(** * Nothing is spoken while the narration is off                         *)
(* ===================================================================== *)





(* ===================================================================== *)
(** * Opening and closing                                                  *)
(* ===================================================================== *)



(* ===================================================================== *)
(** * Switching the narration                                              *)
(* ===================================================================== *)

(** X21.  A click on the narration toggle, on a panel of the built shape and a
    page with a speech service.  From off, the record says on and is
    saved, the narration is active with both listeners attached, and
    the onboarding announcement is the one utterance in the queue,
    whatever was in it.  From on, the record says off and is saved, the
    narration is inactive with both listeners detached, and the queue
    is empty.  The root is not touched. *)
Theorem reader_toggle_switches_the_narration (s : Page) (x : bool) (q : list Utterance) :
  panel_shape s -> get_prop "readerEnabled" (prefs s) = VBool x -> synth s = Some q ->
  let t := panel_click_handler (Some ix_reader) s in
  get_prop "readerEnabled" (prefs t) = VBool (negb x)
  /\ storage t = savePrefs (prefs t) (storage s)
  /\ readerActive t = negb x
  /\ (focus_listener ∈ listeners t <-> x = false)
  /\ (hover_listener ∈ listeners t <-> x = false)
  /\ synth t
     = Some (if x then []
             else [{| u_text := onboarding; u_lang := "es-ES"; u_rate := 95 |}])
  /\ html t = html s.
Proof.
  intros Hshape Hx Hq. cbn zeta. rewrite handler_by_index by exact Hshape.
  unfold click_at. cbn. unfold flip_field. cbn.
  rewrite !get_set_same by discriminate. rewrite Hx.
  unfold js_not, truthy, save, enableReader, focus_listener, hover_listener.
  destruct x; cbn; rewrite Hq; cbn.
  - split; [apply get_set_same; discriminate|]. split; [reflexivity|].
    split; [reflexivity|]. split; [split; [set_solver | discriminate]|].
    split; [split; [set_solver | discriminate]|]. split; reflexivity.
  - split; [apply get_set_same; discriminate|]. split; [reflexivity|].
    split; [reflexivity|]. split; [split; [reflexivity | set_solver]|].
    split; [split; [reflexivity | set_solver]|]. split; reflexivity.
Qed.

(* ===================================================================== *)
(** * Numbers printed and read back                                        *)
(* ===================================================================== *)

Lemma pretty_char_digit (n : N) :
  (n < 10)%N ->
  is_digit (pretty_N_char n) = true /\ digit_val (pretty_N_char n) = Z.of_N n.
Proof.
  intros H. rewrite <- (N2Nat.id n).
  assert (Hk : (N.to_nat n < 10)%nat) by lia. revert Hk.
  generalize (N.to_nat n) as k. intros k Hk.
  do 10 (destruct k as [|k]; [split; reflexivity|]). lia.
Qed.

(** Reading the digits that [pretty] prints for [x] appends [x] to the
    number read so far. *)
Lemma read_pretty_go (x : N) :
  exists d : nat,
    ((0 < x)%N -> (0 < d)%nat)
    /\ forall s m k,
         read_digits m k (list_ascii_of_string (pretty_N_go x s))
         = read_digits (m * 10 ^ Z.of_nat d + Z.of_N x) (k + d) (list_ascii_of_string s).
Proof.
  induction (N.lt_wf_0 x) as [x _ IH].
  destruct (N.eq_dec x 0%N) as [-> | Hx].
  - exists 0%nat. split; [lia|]. intros s m k. rewrite pretty_N_go_0.
    f_equal; [lia | lia].
  - assert (Hpos : (0 < x)%N) by lia.
    destruct (IH (x `div` 10)%N) as (d & _ & Hd); [apply N.div_lt; lia|].
    exists (S d). split; [lia|]. intros s m k.
    rewrite pretty_N_go_step by exact Hpos. rewrite Hd. cbn [list_ascii_of_string read_digits].
    destruct (pretty_char_digit (x `mod` 10)%N) as [-> ->]; [apply N.mod_lt; lia|].
    f_equal; [|lia].
    rewrite N2Z.inj_div, N2Z.inj_mod. change (Z.of_N 10) with 10.
    rewrite Nat2Z.inj_succ, Z.pow_succ_r by lia.
    pose proof (Z.div_mod (Z.of_N x) 10 ltac:(lia)). lia.
Qed.

Lemma pretty_go_digits (x : N) (s : string) :
  Forall (fun c => is_digit c = true) (list_ascii_of_string s) ->
  Forall (fun c => is_digit c = true) (list_ascii_of_string (pretty_N_go x s)).
Proof.
  revert s. induction (N.lt_wf_0 x) as [x _ IH]. intros s Hs.
  destruct (N.eq_dec x 0%N) as [-> | Hx]; [rewrite pretty_N_go_0; exact Hs|].
  rewrite pretty_N_go_step by lia. apply IH; [apply N.div_lt; lia|].
  cbn. constructor; [|exact Hs]. apply pretty_char_digit, N.mod_lt. lia.
Qed.

Lemma digit_codes (c : ascii) :
  is_digit c = true -> (48 <= nat_of_ascii c <= 57)%nat.
Proof.
  unfold is_digit. cbn zeta. intros H. apply andb_true_iff in H.
  destruct H as [H1 H2]. apply Nat.leb_le in H1, H2. lia.
Qed.

Lemma skip_white_digit (c : ascii) (cs : list ascii) :
  (33 <= nat_of_ascii c <= 127)%nat -> skip_white (c :: cs) = c :: cs.
Proof.
  intros H. unfold skip_white. cbn [List.length drop_white].
  assert (Hw : white_head (c :: cs) = 0%nat).
  { unfold white_head. cbn [firstn List.map].
    assert (white1 (nat_of_ascii c) = false) as ->.
    { unfold white1. repeat (apply orb_false_iff; split); apply Nat.eqb_neq; lia. }
    destruct cs as [|b cs]; [reflexivity|]. cbn [firstn List.map].
    assert (white2 (nat_of_ascii c) (nat_of_ascii b) = false) as ->.
    { unfold white2. apply andb_false_iff. left. apply Nat.eqb_neq. lia. }
    destruct cs as [|c' cs]; [reflexivity|]. cbn [firstn List.map].
    assert (white3 (nat_of_ascii c) (nat_of_ascii b) (nat_of_ascii c') = false) as ->;
      [|reflexivity].
    unfold white3.
    replace (nat_of_ascii c =? 225)%nat with false by (symmetry; apply Nat.eqb_neq; lia).
    replace (nat_of_ascii c =? 226)%nat with false by (symmetry; apply Nat.eqb_neq; lia).
    replace (nat_of_ascii c =? 227)%nat with false by (symmetry; apply Nat.eqb_neq; lia).
    replace (nat_of_ascii c =? 239)%nat with false by (symmetry; apply Nat.eqb_neq; lia).
    reflexivity. }
  rewrite Hw. reflexivity.
Qed.

(** [parseInt] on a run of decimal digits. *)
Lemma parseInt_digits (neg : bool) (cs : list ascii) (v : Z) (d : nat) :
  Forall (fun c => is_digit c = true) cs -> read_digits 0 0 cs = (v, S d, []) ->
  parseInt (string_of_list_ascii ((if neg then ["-"%char] else []) ++ cs))
  = Int (if neg then - v else v).
Proof.
  intros Hd Hr. unfold parseInt. rewrite list_ascii_of_string_of_list_ascii.
  destruct cs as [|c cs]; [discriminate Hr|].
  pose proof (digit_codes c (Forall_inv Hd)) as Hc.
  assert (Hh : hex_prefix (c :: cs) = None).
  { unfold hex_prefix. destruct cs as [|x cs]; [reflexivity|].
    pose proof (digit_codes x (Forall_inv (Forall_inv_tail Hd))) as Hx.
    replace (nat_of_ascii x =? 120)%nat with false by (symmetry; apply Nat.eqb_neq; lia).
    replace (nat_of_ascii x =? 88)%nat with false by (symmetry; apply Nat.eqb_neq; lia).
    rewrite andb_false_r. reflexivity. }
  destruct neg; cbn [app].
  - rewrite skip_white_digit by (change (nat_of_ascii "-") with 45%nat; lia).
    change (nat_of_ascii "-" =? 45)%nat with true. cbn [fst snd]. rewrite Hh, Hr. reflexivity.
  - rewrite skip_white_digit by lia.
    replace (nat_of_ascii c =? 45)%nat with false by (symmetry; apply Nat.eqb_neq; lia).
    replace (nat_of_ascii c =? 43)%nat with false by (symmetry; apply Nat.eqb_neq; lia).
    cbn [fst snd]. rewrite Hh, Hr. reflexivity.
Qed.

Lemma parseInt_pretty_pos (neg : bool) (p : positive) :
  parseInt ((if neg then "-" else EmptyString) ++ pretty (N.pos p))
  = Int (if neg then Z.neg p else Z.pos p).
Proof.
  unfold pretty, pretty_N. destruct (decide (N.pos p = 0%N)) as [H|_]; [discriminate H|].
  destruct (read_pretty_go (N.pos p)) as (d & Hpos & Hd).
  specialize (Hd EmptyString 0 0%nat). cbn [list_ascii_of_string read_digits] in Hd.
  destruct d as [|d]; [specialize (Hpos ltac:(lia)); lia|].
  pose proof (parseInt_digits neg (list_ascii_of_string (pretty_N_go (N.pos p) EmptyString))
                (Z.pos p) d (pretty_go_digits (N.pos p) EmptyString (Forall_nil_2 _))) as H.
  rewrite Hd in H. specialize (H ltac:(f_equal; f_equal; lia)).
  destruct neg; cbn [app] in H |- *.
  - change (string_of_list_ascii ("-"%char :: ?l)) with (String "-" (string_of_list_ascii l)) in H.
    rewrite string_of_list_ascii_of_string in H. exact H.
  - rewrite string_of_list_ascii_of_string in H. exact H.
Qed.

(** What the scripts print for an integer, [parseInt] reads back. *)
Lemma parseInt_pretty (z : Z) : parseInt (pretty z) = Int z.
Proof.
  destruct z as [|p|p].
  - reflexivity.
  - exact (parseInt_pretty_pos false p).
  - exact (parseInt_pretty_pos true p).
Qed.

(* ===================================================================== *)
(** * The cart                                                             *)
(* ===================================================================== *)

Lemma parseInt_cases (text : string) :
  parseInt text = NaN \/ exists n, parseInt text = Int n.
Proof.
  unfold parseInt. destruct (match hex_prefix _ with Some _ => _ | None => _ end) as [m [|k]];
    [left; reflexivity | right; eexists; reflexivity].
Qed.

(** The number that the listener takes for the count. *)
Lemma cart_current (text : string) :
  to_number (js_or (VNum (parseInt text)) (VNum (Int 0))) = Int (count_read text).
Proof.
  unfold count_read. destruct (parseInt_cases text) as [-> | (n & ->)]; [reflexivity|].
  unfold js_or, truthy, to_number. destruct (n =? 0) eqn:E; [|reflexivity].
  apply Z.eqb_eq in E. subst n. reflexivity.
Qed.

Lemma count_read_pretty (z : Z) : count_read (pretty z) = z.
Proof. unfold count_read. rewrite parseInt_pretty. reflexivity. Qed.

Lemma add_to_cart_counted (link_text : option string) (text : string)
    (label : option (option string)) (s : Page) :
  fst (add_to_cart link_text (mkCart (Some text) label, s))
  = mkCart (Some (pretty (count_read text + 1))) (relabel label (count_read text + 1)).
Proof.
  unfold add_to_cart. cbn [fst snd cart_count cart_label]. rewrite cart_current.
  unfold num_add, num_to_string, relabel. reflexivity.
Qed.

Lemma add_to_cart_page (link_text : option string) (st : Cart * Page) :
  snd (add_to_cart link_text st)
  = announce (cart_message (productName link_text)) false (snd st).
Proof. unfold add_to_cart. destruct (cart_count (fst st)); reflexivity. Qed.

Lemma relabel_twice (label : option (option string)) (a b : Z) :
  relabel (relabel label a) b = relabel label b.
Proof. destruct label; reflexivity. Qed.

(** The cart after so many runs of the listener, whatever the products. *)
Lemma cart_runs (runs : list (option string)) (text : string)
    (label : option (option string)) (s : Page) :
  runs <> [] ->
  fst (fold_left (fun st link_text => add_to_cart link_text st) runs
         (mkCart (Some text) label, s))
  = mkCart (Some (pretty (count_read text + Z.of_nat (List.length runs))))
      (relabel label (count_read text + Z.of_nat (List.length runs))).
Proof.
  revert text label s. induction runs as [|l runs IH]; intros text label s Hne; [congruence|].
  cbn [fold_left].
  destruct (add_to_cart l (mkCart (Some text) label, s)) as [c s'] eqn:E.
  pose proof (add_to_cart_counted l text label s) as Hc. rewrite E in Hc. cbn [fst] in Hc.
  subst c. destruct runs as [|l' runs].
  - cbn [fold_left fst List.length]. do 2 f_equal.
  - rewrite IH by discriminate. rewrite count_read_pretty, relabel_twice.
    cbn [List.length].
    replace (count_read text + 1 + Z.of_nat (S (List.length runs)))
      with (count_read text + Z.of_nat (S (S (List.length runs)))) by lia.
    reflexivity.
Qed.

Lemma iter_as_fold (scripts : nat) (link_text : option string) (st : Cart * Page) :
  Nat.iter scripts (add_to_cart link_text) st
  = fold_left (fun st l => add_to_cart l st) (List.repeat link_text scripts) st.
Proof.
  revert st. induction scripts as [|j IH]; intros st; [reflexivity|].
  cbn [List.repeat fold_left]. rewrite <- IH. symmetry. apply Nat.iter_swap.
Qed.

Lemma clicks_as_runs (scripts : nat) (links : list (option string)) (st : Cart * Page) :
  clicks_add_to_cart scripts links st
  = fold_left (fun st l => add_to_cart l st) (listener_runs scripts links) st.
Proof.
  unfold clicks_add_to_cart, listener_runs. revert st.
  induction links as [|l links IH]; intros st; [reflexivity|].
  cbn [fold_left List.flat_map]. rewrite fold_left_app, IH.
  unfold click_add_to_cart. rewrite iter_as_fold. reflexivity.
Qed.

Lemma listener_runs_length (scripts : nat) (links : list (option string)) :
  List.length (listener_runs scripts links) = (scripts * List.length links)%nat.
Proof.
  unfold listener_runs. induction links as [|l links IH]; cbn [List.flat_map List.length];
    [lia|].
  rewrite length_app, repeat_length, IH. lia.
Qed.

Lemma clicks_counted (scripts : nat) (links : list (option string)) (text : string)
    (label : option (option string)) (s : Page) :
  (0 < scripts)%nat -> links <> [] ->
  fst (clicks_add_to_cart scripts links (mkCart (Some text) label, s))
  = mkCart (Some (pretty (count_read text + Z.of_nat (scripts * List.length links))))
      (relabel label (count_read text + Z.of_nat (scripts * List.length links))).
Proof.
  intros Hs Hl. rewrite clicks_as_runs, cart_runs.
  - rewrite listener_runs_length. reflexivity.
  - intros H. apply (f_equal (@List.length _)) in H. rewrite listener_runs_length in H.
    destruct links; [congruence|]. cbn [List.length] in H. lia.
Qed.

(** X15.  One run of the click listener of an add-to-cart button.  It reads
    the count off the text of the counter as [parseInt] does, a text
    that begins with no number counting as 0; it writes the count plus
    one into the counter and, when the page has the cart button, into
    the label of the button, where the word for the articles is in the
    singular exactly when the new count is 1.  The text it has written
    is read back as the number written.  On a page without the counter
    it touches neither the counter nor the button. *)
Theorem add_to_cart_counts_up (link_text : option string) (c : Cart) (s : Page) :
  (forall text, cart_count c = Some text ->
     Z.abs (count_read text) < max_safe_integer ->
     let next := count_read text + 1 in
     cart_count (fst (add_to_cart link_text (c, s))) = Some (pretty next)
     /\ cart_label (fst (add_to_cart link_text (c, s)))
        = match cart_label c with
          | None => None
          | Some _ =>
              Some (Some ("Carrito de compras, " ++ pretty next ++ " artículo"
                          ++ (if next =? 1 then EmptyString else "s")))
          end
     /\ count_read (pretty next) = next)
  /\ (cart_count c = None -> fst (add_to_cart link_text (c, s)) = c).
Proof.
  split.
  - intros text Ht _. cbn zeta. destruct c as [count label]. cbn in Ht. subst count.
    rewrite add_to_cart_counted. cbn [cart_count cart_label].
    split; [reflexivity|]. split; [|apply count_read_pretty].
    destruct label; reflexivity.
  - intros Hn. unfold add_to_cart. cbn [fst]. rewrite Hn. reflexivity.
Qed.

(** X16.  [js/accessibility.js] holds two scripts and each attaches its click
    listener to every add-to-cart button, so a click runs two: after
    any number of clicks, on whatever products, the counter shows the
    count read at the start plus twice the number of clicks, and so does
    the label of the cart button.  On a page that loads the first
    script alone, it is the count plus the number of clicks. *)
Theorem every_click_counts_twice (links : list (option string)) (text : string)
    (label : option (option string)) (s : Page) :
  links <> [] ->
  Z.abs (count_read text) + 2 * Z.of_nat (List.length links) < max_safe_integer ->
  let n := count_read text in
  let k := Z.of_nat (List.length links) in
  fst (clicks_add_to_cart both_scripts links (mkCart (Some text) label, s))
  = mkCart (Some (pretty (n + 2 * k))) (relabel label (n + 2 * k))
  /\ fst (clicks_add_to_cart first_script links (mkCart (Some text) label, s))
     = mkCart (Some (pretty (n + k))) (relabel label (n + k)).
Proof.
  intros Hl _. cbn zeta. unfold both_scripts, first_script.
  rewrite !clicks_counted by (try exact Hl; lia).
  replace (Z.of_nat (2 * List.length links)) with (2 * Z.of_nat (List.length links)) by lia.
  replace (Z.of_nat (1 * List.length links)) with (Z.of_nat (List.length links)) by lia.
  split; reflexivity.
Qed.

Lemma click_pages (link_text : option string) (c : Cart) (s : Page) :
  let m := cart_message (productName link_text) in
  snd (click_add_to_cart both_scripts link_text (c, s)) = announce m false (announce m false s)
  /\ snd (click_add_to_cart first_script link_text (c, s)) = announce m false s.
Proof.
  cbn zeta. unfold click_add_to_cart, both_scripts, first_script. cbv [Nat.iter nat_rect].
  rewrite !add_to_cart_page. split; reflexivity.
Qed.

(** X17.  A click on an add-to-cart button is announced in the polite live
    region: the message names the product by the trimmed text of its
    link, or says Producto when the button has no such link or the
    text is blank, so that the name is never empty.  On a page that has
    loaded [js/accessibility.js], with no callback waiting, the two
    listeners clear the region twice and the next frame writes the
    message twice; with the first script alone it is one clear and one
    write.  Either way the region then holds the message. *)
Theorem cart_click_is_announced (link_text : option string) (c : Cart) (s : Page)
    (old : string) :
  notificationArea s = Some old -> frame_callbacks s = [] ->
  let name := productName link_text in
  let clear := mkMutation false EmptyString in
  let set := mkMutation false (cart_message name) in
  let both := animation_frame (snd (click_add_to_cart both_scripts link_text (c, s))) in
  let one := animation_frame (snd (click_add_to_cart first_script link_text (c, s))) in
  name <> EmptyString
  /\ (forall t, link_text = Some t -> js_trim t <> EmptyString -> name = js_trim t)
  /\ (forall t, link_text = Some t -> js_trim t = EmptyString -> name = "Producto")
  /\ (link_text = None -> name = "Producto")
  /\ notificationArea both = Some (cart_message name)
  /\ mutations both = (mutations s ++ [clear; clear; set; set])%list
  /\ notificationArea one = Some (cart_message name)
  /\ mutations one = (mutations s ++ [clear; set])%list.
Proof.
  intros Ha Hidle. cbn zeta.
  destruct (click_pages link_text c s) as [-> ->].
  split; [|split; [|split; [|split]]].
  - unfold productName. destruct link_text; [|discriminate].
    apply str_or_nonempty. discriminate.
  - intros t -> Ht. unfold productName, str_or.
    apply String.eqb_neq in Ht. rewrite Ht. reflexivity.
  - intros t -> Ht. unfold productName. rewrite Ht. reflexivity.
  - intros ->. reflexivity.
  - unfold announce, area_of. rewrite Ha. cbn. unfold animation_frame. cbn.
    rewrite Hidle. cbn. rewrite <- !app_assoc. repeat split.
Qed.

(* ===================================================================== *)
(** * The navigation menu                                                  *)
(* ===================================================================== *)

Lemma toggle_flips (cl : gset string) :
  bool_decide ("is-open" ∈ classList_toggle "is-open" VUndef cl)
  = negb (bool_decide ("is-open" ∈ cl)).
Proof.
  unfold classList_toggle. destruct (decide ("is-open" ∈ cl)) as [H|H].
  - rewrite (bool_decide_eq_true_2 _ H). apply bool_decide_eq_false_2. set_solver.
  - rewrite (bool_decide_eq_false_2 _ H). apply bool_decide_eq_true_2. set_solver.
Qed.

Lemma toggle_twice (cl : gset string) :
  classList_toggle "is-open" VUndef (classList_toggle "is-open" VUndef cl) = cl.
Proof.
  unfold classList_toggle. destruct (decide ("is-open" ∈ cl)) as [H|H].
  - destruct (decide ("is-open" ∈ cl ∖ {["is-open"]})) as [H'|H']; [set_solver|].
    apply set_eq. intros x. destruct (decide (x = "is-open")); set_solver.
  - destruct (decide ("is-open" ∈ cl ∪ {["is-open"]})) as [H'|H']; [|set_solver].
    apply set_eq. intros x. destruct (decide (x = "is-open")); set_solver.
Qed.

Lemma menu_click_open (closing opening : string) (m : Menu) :
  menu_open (menu_click closing opening m) = negb (menu_open m).
Proof. unfold menu_open, menu_click. cbn. apply toggle_flips. Qed.

Lemma menu_click_tells (closing opening : string) (m : Menu) :
  menu_tells closing opening (menu_click closing opening m).
Proof.
  unfold menu_tells. rewrite menu_click_open. unfold menu_click, menu_open. cbn.
  rewrite toggle_flips. destruct (bool_decide _); split; reflexivity.
Qed.

Lemma menu_keydown_closed (key : string) (m : Menu) :
  menu_open m = false -> menu_keydown key m = m.
Proof.
  unfold menu_open, menu_keydown. intros ->. rewrite andb_false_r. reflexivity.
Qed.

Lemma menu_keydown_open (m : Menu) :
  menu_open m = true ->
  menu_keydown "Escape" m
  = mkMenu (nav_class m ∖ {["is-open"]}) (nav_link m) (Some "false")
      (Some "Abrir menú de navegación") (Some MenuButton).
Proof. unfold menu_open, menu_keydown. intros ->. reflexivity. Qed.

Lemma menu_keydown_closes (key : string) (m : Menu) :
  menu_open m = false \/ key <> "Escape" \/ menu_open (menu_keydown key m) = false.
Proof.
  destruct (menu_open m) eqn:E; [|left; reflexivity]. right.
  destruct (String.eqb key "Escape") eqn:K; [|left; apply String.eqb_neq, K].
  right. apply String.eqb_eq in K. subst key. rewrite (menu_keydown_open m E).
  unfold menu_open. cbn. apply bool_decide_eq_false_2. set_solver.
Qed.

Lemma menu_keydown_tells (closing : string) (key : string) (m : Menu) :
  menu_tells closing "Abrir menú de navegación" m ->
  menu_tells closing "Abrir menú de navegación" (menu_keydown key m).
Proof.
  intros Ht. destruct (menu_open m) eqn:E; [|rewrite menu_keydown_closed; assumption].
  destruct (String.eqb key "Escape") eqn:K.
  - apply String.eqb_eq in K. subst key. rewrite (menu_keydown_open m E).
    unfold menu_tells, menu_open. cbn.
    rewrite bool_decide_eq_false_2 by set_solver. split; reflexivity.
  - unfold menu_keydown. rewrite K. exact Ht.
Qed.

(** X18.  The menu on a page that has loaded the first script alone.  A click
    on the button opens the closed menu and closes the open one, and
    after it the button tells the state: [aria-expanded] and the label.
    Once the button tells the state it does so after every sequence of
    clicks and keys.  The Escape key leaves the menu closed, and moves
    the focus to the button when it was open; no other key changes
    anything, and Escape changes nothing on the closed menu. *)
Theorem menu_button_tells_state (m : Menu) (es : list menu_event) :
  let tells := menu_tells "Cerrar menú de navegación" "Abrir menú de navegación" in
  menu_open (menu_step_first m MenuClick) = negb (menu_open m)
  /\ tells (menu_step_first m MenuClick)
  /\ (tells m -> tells (fold_left menu_step_first es m))
  /\ menu_open (menu_step_first m (MenuKey "Escape")) = false
  /\ (menu_open m = true ->
      menu_focus (menu_step_first m (MenuKey "Escape")) = Some MenuButton)
  /\ (forall key, key <> "Escape" \/ menu_open m = false ->
        menu_step_first m (MenuKey key) = m).
Proof.
  cbn zeta. split; [apply menu_click_open|]. split; [apply menu_click_tells|].
  split; [|split; [|split]].
  - revert m. induction es as [|e es IH]; intros m Ht; [exact Ht|].
    cbn [fold_left]. apply IH. destruct e as [|key]; unfold menu_step_first.
    + apply menu_click_tells.
    + apply menu_keydown_tells, Ht.
  - unfold menu_step_first.
    destruct (menu_keydown_closes "Escape" m) as [H | [H | H]]; [|congruence|exact H].
    rewrite menu_keydown_closed; exact H.
  - intros Ho. unfold menu_step_first. rewrite (menu_keydown_open m Ho). reflexivity.
  - intros key [Hk | Hc]; unfold menu_step_first.
    + unfold menu_keydown. apply String.eqb_neq in Hk. rewrite Hk. reflexivity.
    + apply menu_keydown_closed, Hc.
Qed.

Lemma menu_click_both_class (m : Menu) :
  nav_class (menu_click_second (menu_click_first m)) = nav_class m.
Proof. unfold menu_click_second, menu_click_first, menu_click. cbn. apply toggle_twice. Qed.

Lemma menu_step_both_closed (m : Menu) (e : menu_event) :
  menu_open m = false -> menu_open (menu_step_both m e) = false.
Proof.
  intros Hc. destruct e as [|key]; unfold menu_step_both.
  - unfold menu_open in *. rewrite menu_click_both_class. exact Hc.
  - rewrite !(menu_keydown_closed key m Hc). exact Hc.
Qed.

(** X19.  The menu on a page that has loaded [js/accessibility.js].  Each of
    the two scripts attaches its click listener to the button, so a
    click toggles the menu twice: the class list of the navigation is
    after the click what it was before, the button tells that state in
    the words of the second script, and the focus has gone to the first
    link of the navigation when it has one (one of the two listeners
    has seen the menu open).  A closed menu stays closed whatever the
    clicks and keys. *)
Theorem menu_button_cannot_open_the_menu (m : Menu) (es : list menu_event) :
  let m' := menu_step_both m MenuClick in
  nav_class m' = nav_class m
  /\ menu_tells "Cerrar menú" "Abrir menú" m'
  /\ menu_focus m' = (if nav_link m then Some FirstLink else menu_focus m)
  /\ (menu_open m = false -> menu_open (fold_left menu_step_both es m) = false).
Proof.
  cbn zeta. split; [apply menu_click_both_class|]. split; [apply menu_click_tells|]. split.
  - unfold menu_step_both, menu_click_second, menu_click_first, menu_click, menu_open. cbn.
    rewrite !toggle_flips. destruct (bool_decide _), (nav_link m); reflexivity.
  - revert m. induction es as [|e es IH]; intros m Hc; [exact Hc|].
    cbn [fold_left]. apply IH, menu_step_both_closed, Hc.
Qed.

(* ===================================================================== *)
(** * The section in view                                                  *)
(* ===================================================================== *)

Lemma mark_link_marked (id frag : string) (l : Element) :
  links_to frag l ->
  exists l', mark_link id l = Some l' /\ marked id l l'.
Proof.
  unfold links_to, mark_link. intros Hh. rewrite Hh.
  change (slice1 ("#" ++ frag)) with frag.
  eexists. split; [reflexivity|]. exists frag. split; [exact Hh|].
  unfold getAttribute, setAttribute, removeAttribute, with_attributes.
  destruct (String.eqb frag id); cbn.
  - split; [apply lookup_insert_eq|]. split; [|destruct l; reflexivity].
    intros name Hn. apply lookup_insert_ne. congruence.
  - split; [apply lookup_delete_eq|]. split; [|destruct l; reflexivity].
    intros name Hn. apply lookup_delete_ne. congruence.
Qed.

Lemma mark_links_marked (id : string) (links : list Element) :
  Forall (fun l => exists frag, links_to frag l) links ->
  snd (mark_links id links) = true /\ Forall2 (marked id) links (fst (mark_links id links)).
Proof.
  induction 1 as [|l links (frag & Hl) _ IH]; [split; [reflexivity | constructor]|].
  cbn [mark_links]. destruct (mark_link_marked id frag l Hl) as (l' & -> & Hm).
  cbn [fst snd]. destruct IH as [IH1 IH2]. split; [exact IH1|]. constructor; assumption.
Qed.

Lemma marked_links_to (id : string) (l l' : Element) :
  marked id l l' -> exists frag, links_to frag l'.
Proof.
  intros (frag & Hl & _ & Hsame & _). exists frag. unfold links_to in *.
  rewrite Hsame by discriminate. exact Hl.
Qed.

Lemma marked_trans (id1 id2 : string) (l l1 l2 : Element) :
  marked id1 l l1 -> marked id2 l1 l2 -> marked id2 l l2.
Proof.
  intros (frag & Hl & _ & Hsame & Hrest) (frag' & Hl1 & Hc & Hsame' & Hrest').
  assert (frag' = frag) as ->.
  { unfold links_to in *. rewrite Hsame in Hl1 by discriminate.
    rewrite Hl in Hl1. injection Hl1 as H. symmetry. exact H. }
  exists frag. split; [exact Hl|]. split; [exact Hc|]. split.
  - intros name Hn. rewrite Hsame' by exact Hn. apply Hsame, Hn.
  - rewrite <- Hrest. rewrite <- Hrest'. reflexivity.
Qed.

Lemma element_eq (l l' : Element) :
  (forall name, getAttribute name l' = getAttribute name l) ->
  with_attributes (attributes l) l' = l -> l' = l.
Proof.
  intros Ha Hr. destruct l as [t0 i0 a0 x0 p0 ty0], l' as [t i a x p ty].
  unfold with_attributes in Hr. cbn in Hr. injection Hr as -> -> -> -> ->.
  f_equal. apply map_eq. intros name. exact (Ha name).
Qed.

(** Marking a marked link for the same section changes nothing. *)
Lemma marked_again (id : string) (l l1 l2 : Element) :
  marked id l l1 -> marked id l1 l2 -> l2 = l1.
Proof.
  intros H1 H2. pose proof (marked_trans _ _ _ _ _ H1 H2) as H.
  destruct H1 as (frag & Hl & Hc & Hsame & _).
  destruct H as (frag' & Hl' & Hc' & Hsame' & _).
  assert (frag' = frag) as ->.
  { unfold links_to in *. rewrite Hl in Hl'. injection Hl' as H. symmetry. exact H. }
  destruct H2 as (_ & _ & _ & _ & Hrest2).
  apply element_eq; [|exact Hrest2].
  intros name. destruct (String.eqb name "aria-current") eqn:E.
  - apply String.eqb_eq in E. subst name. congruence.
  - apply String.eqb_neq in E. rewrite Hsame', Hsame by exact E. reflexivity.
Qed.

Lemma last_in_view_cons (e : Entry) (es : list Entry) :
  last_in_view (e :: es)
  = match last_in_view es with
    | Some id => Some id
    | None => if isIntersecting e then Some (target_id e) else None
    end.
Proof.
  unfold last_in_view. cbn [List.filter]. destruct (isIntersecting e).
  - rewrite last_cons. destruct (last (List.filter isIntersecting es)); reflexivity.
  - destruct (last (List.filter isIntersecting es)); reflexivity.
Qed.

Lemma Forall2_marked_trans (id1 id2 : string) (a b c : list Element) :
  Forall2 (marked id1) a b -> Forall2 (marked id2) b c -> Forall2 (marked id2) a c.
Proof.
  intros Hab. revert c. induction Hab as [|x y a b Hxy _ IH]; intros c Hbc.
  - inversion Hbc. constructor.
  - inversion Hbc as [|y' z b' c' Hyz Hbc']. subst. constructor.
    + exact (marked_trans _ _ _ _ _ Hxy Hyz).
    + apply IH, Hbc'.
Qed.

Lemma Forall2_marked_links (id : string) (a b : list Element) :
  Forall2 (marked id) a b -> Forall (fun l => exists frag, links_to frag l) b.
Proof.
  induction 1 as [|x y a b Hxy _ IH]; constructor; [|exact IH].
  exact (marked_links_to _ _ _ Hxy).
Qed.

Lemma observer_callback_marked (entries : list Entry) (links : list Element) :
  Forall (fun l => exists frag, links_to frag l) links ->
  snd (observer_callback entries links) = true
  /\ match last_in_view entries with
     | None => fst (observer_callback entries links) = links
     | Some id => Forall2 (marked id) links (fst (observer_callback entries links))
     end.
Proof.
  revert links. induction entries as [|e es IH]; intros links Hl.
  - split; reflexivity.
  - rewrite last_in_view_cons. cbn [observer_callback].
    destruct (isIntersecting e).
    + destruct (mark_links_marked (target_id e) links Hl) as [Hok Hm]. rewrite Hok.
      destruct (IH _ (Forall2_marked_links _ _ _ Hm)) as [IH1 IH2].
      split; [exact IH1|]. destruct (last_in_view es) as [id|].
      * exact (Forall2_marked_trans _ _ _ _ _ Hm IH2).
      * rewrite IH2. exact Hm.
    + destruct (IH links Hl) as [IH1 IH2]. split; [exact IH1|].
      destruct (last_in_view es); exact IH2.
Qed.

Lemma Forall2_marked_again (id : string) (a b c : list Element) :
  Forall2 (marked id) a b -> Forall2 (marked id) b c -> c = b.
Proof.
  intros Hab. revert c. induction Hab as [|x y a b Hxy _ IH]; intros c Hbc.
  - inversion Hbc. reflexivity.
  - inversion Hbc as [|y' z b' c' Hyz Hbc']. subst. f_equal.
    + exact (marked_again _ _ _ _ Hxy Hyz).
    + apply IH, Hbc'.
Qed.

(** X20.  The callback of the intersection observer, on links that have the
    [href] by which the script selected them.  It returns, and when no
    entry reported is in view it leaves the links as they are;
    otherwise the links that point to the last section in view among
    the entries have [aria-current] set to [true], the other links have
    no [aria-current], and nothing else of a link has changed.  A second
    observer notified of the same entries, as on a page that has loaded
    both scripts, changes nothing more. *)
Theorem current_link_is_the_last_section_in_view (entries : list Entry)
    (links : list Element) :
  Forall (fun l => exists frag, links_to frag l) links ->
  let after := fst (observer_callback entries links) in
  snd (observer_callback entries links) = true
  /\ match last_in_view entries with
     | None => after = links
     | Some id => Forall2 (marked id) links after
     end
  /\ observer_callback entries after = (after, true).
Proof.
  intros Hl. cbn zeta.
  destruct (observer_callback_marked entries links Hl) as [Hok Hm].
  split; [exact Hok|]. split; [exact Hm|].
  destruct (last_in_view entries) as [id|] eqn:E.
  - destruct (observer_callback_marked entries _ (Forall2_marked_links _ _ _ Hm))
      as [Hok' Hm'].
    rewrite E in Hm'. rewrite (surjective_pairing (observer_callback entries _)).
    rewrite Hok', (Forall2_marked_again _ _ _ _ Hm Hm'). reflexivity.
  - rewrite Hm. rewrite (surjective_pairing (observer_callback entries links)).
    rewrite Hok, Hm. reflexivity.
Qed.

(* ===================================================================== *)
(** * Fields outside the schema                                            *)
(* ===================================================================== *)

Lemma loadPrefs_distinct (st : Storage) : distinct_keys (loadPrefs st).
Proof.
  unfold loadPrefs. destruct (getItem storage_key st) as [raw|]; [|apply NoDup_nil_2].
  destruct (JSON_parse (to_string raw)) as [v|] eqn:E; [|apply NoDup_nil_2].
  apply JSON_parse_distinct in E. unfold js_or. destruct (truthy v); [exact E|].
  apply NoDup_nil_2.
Qed.

Lemma has_prop_lookup (k : string) (o : obj) :
  has_prop k o = true -> In (k, get_prop k o) o.
Proof.
  induction o as [|[k' v'] o IH]; simpl; [discriminate|].
  change (get_prop k ((k', v') :: o)) with (if String.eqb k k' then v' else get_prop k o).
  destruct (String.eqb k k') eqn:E; simpl.
  - apply String.eqb_eq in E. subst. auto.
  - auto.
Qed.

Lemma member_printed (k t : string) (p : obj) :
  has_prop k p = true -> JSON_stringify (get_prop k p) = Some t ->
  In (quote k ++ ":" ++ t) (json_members p).
Proof.
  intros Hk Ht. unfold json_members. apply in_flat_map.
  exists (k, get_prop k p). split; [apply has_prop_lookup, Hk|].
  simpl. rewrite Ht. simpl. auto.
Qed.

Lemma saved_text_members (p : obj) :
  saved_text p = "{" ++ join "," (json_members p) ++ "}".
Proof. reflexivity. Qed.

Lemma schema_after_defaults (v : value) (f : string) :
  In f schema -> has_prop f (Object_assign [] [VObj defaults; v]) = true.
Proof.
  intros Hf. unfold Object_assign. simpl. unfold assign1 at 1.
  apply assign_keeps. simpl in Hf.
  repeat (destruct Hf as [<- | Hf]; [reflexivity|]). contradiction.
Qed.

Lemma click_at_cases_but_reset (P : Page -> Prop) (i : nat) (s : Page) :
  i <> ix_reset ->
  P s ->
  P (closePanel s) ->
  P (dispatch "reader" ix_reader (mkButton "btn-reader" ∅ (Some "reader") None None false EmptyString) s) ->
  P (dispatch "font-dec" ix_font_dec (mkButton "btn-font-dec" ∅ (Some "font-dec") None None false EmptyString) s) ->
  P (dispatch "font-inc" ix_font_inc (mkButton "btn-font-inc" ∅ (Some "font-inc") None None false EmptyString) s) ->
  (forall j m, In m contrasts ->
     P (dispatch "contrast" j (mkButton EmptyString ∅ (Some "contrast") (Some m) None false EmptyString) s)) ->
  P (dispatch "spacing" ix_spacing (mkButton "btn-spacing" ∅ (Some "spacing") None None false EmptyString) s) ->
  P (dispatch "dyslexia" ix_dyslexia (mkButton "btn-dyslexia" ∅ (Some "dyslexia") None None false EmptyString) s) ->
  P (dispatch "links" ix_links (mkButton "btn-links" ∅ (Some "links") None None false EmptyString) s) ->
  P (dispatch "cursor" ix_cursor (mkButton "btn-cursor" ∅ (Some "cursor") None None false EmptyString) s) ->
  P (click_at i s).
Proof.
  intros Hi Hs Hclose Hreader Hdec Hinc Hcontrast Hspacing Hdys Hlinks Hcursor.
  unfold click_at.
  destruct i as [|i]; [exact Hclose|].
  destruct i as [|i]; [exact Hreader|].
  destruct i as [|i]; [exact Hdec|].
  destruct i as [|i]; [exact Hinc|].
  do 4 (destruct i as [|i]; [apply Hcontrast; simpl; tauto|]).
  destruct i as [|i]; [exact Hspacing|].
  destruct i as [|i]; [exact Hdys|].
  destruct i as [|i]; [exact Hlinks|].
  destruct i as [|i]; [exact Hcursor|].
  destruct i as [|i]; [exfalso; apply Hi; reflexivity|].
  exact Hs.
Qed.

(** A click in the panel, the reset button apart, leaves the record as
    it is or writes one field of the schema. *)
Lemma prefs_click_form (i : nat) (s : Page) :
  i <> ix_reset ->
  prefs (click_at i s) = prefs s
  \/ exists key v, In key schema /\ prefs (click_at i s) = set_prop key v (prefs s).
Proof.
  intros Hi.
  apply (click_at_cases_but_reset
    (fun t => prefs t = prefs s
              \/ exists key v, In key schema /\ prefs t = set_prop key v (prefs s)));
    [exact Hi | ..].
  - left. reflexivity.
  - left. reflexivity.
  - right. exists "readerEnabled", (js_not (get_prop "readerEnabled" (prefs s))).
    split; [simpl; tauto|]. cbn.
    transitivity (prefs (flip_field "readerEnabled" ix_reader s)); [|reflexivity].
    apply prefs_of_view. rewrite view_save. apply view_enableReader.
  - cbn. destruct (num_leb _ _); [left; reflexivity|].
    right. eexists "fontScale", _. split; [simpl; tauto | reflexivity].
  - cbn. destruct (num_geb _ _); [left; reflexivity|].
    right. eexists "fontScale", _. split; [simpl; tauto | reflexivity].
  - intros j m _. right. exists "contrast", (VStr m). split; [simpl; tauto | reflexivity].
  - right. eexists "spacing", _. split; [simpl; tauto | reflexivity].
  - right. eexists "dyslexia", _. split; [simpl; tauto | reflexivity].
  - right. eexists "highlightLinks", _. split; [simpl; tauto | reflexivity].
  - right. eexists "bigCursor", _. split; [simpl; tauto | reflexivity].
Qed.

Lemma extra_click_at (k : string) (v : value) (i : nat) (s : Page) :
  ~ In k schema -> i <> ix_reset ->
  has_prop k (prefs s) = true /\ get_prop k (prefs s) = v ->
  has_prop k (prefs (click_at i s)) = true /\ get_prop k (prefs (click_at i s)) = v.
Proof.
  intros Hk Hi [Hh Hg].
  destruct (prefs_click_form i s Hi) as [-> | (key & w & Hin & ->)]; [tauto|].
  split; [apply has_set_keep, Hh|].
  rewrite get_set_other; [exact Hg|]. intros ->. contradiction.
Qed.

Lemma extra_step (k : string) (v : value) (s : Page) (e : event) :
  ~ In k schema -> no_reset e -> rendered s ->
  has_prop k (prefs s) = true /\ get_prop k (prefs s) = v ->
  has_prop k (prefs (step s e)) = true /\ get_prop k (prefs (step s e)) = v.
Proof.
  intros Hk He Hr Hs. destruct (outside_panel e) eqn:E.
  - destruct (settings_fields _ _ (settings_step s e E)) as (-> & _). exact Hs.
  - destruct e as [target| | | | | | | |]; try discriminate. cbn.
    destruct (p_click (panel s)); [|exact Hs].
    destruct target as [i|]; [|exact Hs].
    rewrite handler_by_index by apply Hr. apply extra_click_at; [exact Hk | | exact Hs].
    intros ->. apply He. reflexivity.
Qed.

Lemma extra_run (k : string) (v : value) (es : list event) (s : Page) :
  ~ In k schema -> Forall no_reset es -> rendered s ->
  has_prop k (prefs s) = true /\ get_prop k (prefs s) = v ->
  has_prop k (prefs (run s es)) = true /\ get_prop k (prefs (run s es)) = v.
Proof.
  intros Hk. revert s. induction es as [|e es IH]; intros s Hes Hr Hs; simpl; [exact Hs|].
  apply Forall_cons in Hes as [He Hes].
  apply IH; [exact Hes | apply rendered_step, Hr | apply extra_step; assumption].
Qed.

Lemma append_assoc (a b c : string) : (a ++ b) ++ c = a ++ b ++ c.
Proof.
  induction a as [|x a IH]; [reflexivity|].
  change (String x ((a ++ b) ++ c) = String x (a ++ b ++ c)). f_equal. exact IH.
Qed.

Lemma append_empty (a : string) : a ++ EmptyString = a.
Proof.
  induction a as [|x a IH]; [reflexivity|].
  change (String x (a ++ EmptyString) = String x a). f_equal. exact IH.
Qed.

Lemma contains_later (x m : string) (t : string) : contains t m -> contains (x ++ t) m.
Proof.
  intros (pre & post & ->). exists (x ++ pre), post. rewrite append_assoc. reflexivity.
Qed.

Lemma join_contains (m : string) (l : list string) : In m l -> contains (join "," l) m.
Proof.
  induction l as [|x l IH]; [intros []|]. intros [<- | Hin].
  - destruct l as [|y l].
    + exists EmptyString, EmptyString. rewrite append_empty. reflexivity.
    + exists EmptyString, ("," ++ join "," (y :: l)). reflexivity.
  - destruct l as [|y l]; [destruct Hin|].
    change (join "," (x :: y :: l)) with (x ++ "," ++ join "," (y :: l)).
    apply contains_later, contains_later, IH, Hin.
Qed.

(** The text saved for a record has the member of each of its fields. *)
Lemma saved_text_contains (k t : string) (p : obj) :
  has_prop k p = true -> JSON_stringify (get_prop k p) = Some t ->
  contains (saved_text p) (quote k ++ ":" ++ t).
Proof.
  intros Hk Ht. rewrite saved_text_members. apply contains_later.
  destruct (join_contains _ _ (member_printed k t p Hk Ht)) as (pre & post & ->).
  exists pre, (post ++ "}"). rewrite !append_assoc. reflexivity.
Qed.

(** When a write changes the storage, the key holds the text written. *)
Lemma savePrefs_changed (p : obj) (st : Storage) :
  savePrefs p st <> st -> st_items (savePrefs p st) !! storage_key = Some (saved_text p).
Proof.
  unfold savePrefs, saved_text. destruct (setItem _ _ st) as [st'|] eqn:E; [|congruence].
  intros _. unfold setItem in E. destruct (st_denied st); [discriminate|].
  destruct (_ <? _)%nat; [discriminate|]. injection E as <-. cbn. apply lookup_insert_eq.
Qed.

(** C4, as amended.  The fields of a stored record are not filtered on
    load.  When the stored text is an object with a field [k] outside
    the schema (other than [__proto__]) and the record built at load
    has booleans in the five toggle fields, then the record at load has
    the seven fields of the schema and, after every sequence of events
    without a click on the reset button, the record has the field [k]
    with its stored value.  And whenever one more click in the panel,
    the reset button apart, changes the storage, the text it leaves
    under the key has the member of [k] in it: for a key of ASCII
    characters and a plain value, the key quoted, a colon and the JSON
    text of the value. *)
Theorem extra_fields_are_kept (b : Browser) (o : obj) (k : string) (es : list event)
    (target : option nat) :
  loadPrefs (br_storage b) = VObj o -> has_prop k o = true ->
  k <> "__proto__" -> ~ In k schema ->
  booleans (prefs (load b)) ->
  Forall no_reset es -> no_reset (ClickPanel target) ->
  let s := run (load b) es in
  let s' := step s (ClickPanel target) in
  (forall f, In f schema -> has_prop f (prefs (load b)) = true)
  /\ has_prop k (prefs s) = true
  /\ get_prop k (prefs s) = get_prop k o
  /\ has_prop k (prefs s') = true
  /\ get_prop k (prefs s') = get_prop k o
  /\ (ascii_text k = true -> plain_value (get_prop k o) = true ->
      exists t, JSON_stringify (get_prop k o) = Some t
        /\ (storage s' <> storage s ->
            exists text, st_items (storage s') !! storage_key = Some text
                         /\ contains text (quote k ++ ":" ++ t))).
Proof.
  intros Hload Hk Hproto Hextra _ Hes Htarget. cbn zeta.
  pose proof (loadPrefs_distinct (br_storage b)) as Hnd. rewrite Hload in Hnd. simpl in Hnd.
  assert (Hp : has_prop k (prefs (load b)) = true
               /\ get_prop k (prefs (load b)) = get_prop k o).
  { rewrite prefs_load. unfold initial_prefs. rewrite Hload. unfold Object_assign. simpl.
    unfold assign1 at 1. simpl own_props.
    destruct (assign_copies o (assign1 [] (VObj defaults)) k Hnd Hproto Hk) as [H1 H2].
    split; assumption. }
  pose proof (rendered_run es (load b) (rendered_load b)) as Hr.
  pose proof (extra_run k _ es (load b) Hextra Hes (rendered_load b) Hp) as Hs.
  pose proof (extra_step k _ _ (ClickPanel target) Hextra Htarget Hr Hs) as Hs'.
  split; [|split; [apply Hs|split; [apply Hs|split; [apply Hs'|split; [apply Hs'|]]]]].
  - intros f Hf. rewrite prefs_load. apply schema_after_defaults, Hf.
  - intros _ Hplain.
    assert (Ht : exists t, JSON_stringify (get_prop k o) = Some t).
    { destruct (get_prop k o) as [| |[]|[|z|]| | |]; try discriminate Hplain;
        eexists; reflexivity. }
    destruct Ht as (t & Ht). exists t. split; [exact Ht|].
    intros Hch. destruct Hs' as [Hh' Hg'].
    set (s := run (load b) es) in *.
    assert (Hsaved : storage (step s (ClickPanel target))
                     = savePrefs (prefs (step s (ClickPanel target))) (storage s)).
    { revert Hch. cbn. destruct (p_click (panel s)); [|intros H; destruct H; reflexivity].
      destruct target as [i|]; [|intros H; destruct H; reflexivity].
      rewrite handler_by_index by apply Hr.
      destruct (saved_click_at i s) as [[_ Hst] | Hst]; [|intros _; exact Hst].
      intros H. destruct H. exact Hst. }
    exists (saved_text (prefs (step s (ClickPanel target)))). split.
    + rewrite Hsaved. apply savePrefs_changed. rewrite <- Hsaved. exact Hch.
    + apply saved_text_contains; [exact Hh' | rewrite Hg'; exact Ht].
Qed.

Lemma extra_fields_are_kept_witness :
  get_prop "theme" (prefs (run (load browser_theme) [ClickPanel (Some ix_font_inc)]))
  = VStr "neon"
  /\ exists text,
       st_items (storage (run (load browser_theme)
                            [ClickPanel (Some ix_font_inc); ClickPanel (Some ix_spacing)]))
         !! storage_key = Some text
       /\ contains text (quote "theme" ++ ":" ++ quote "neon").
Proof.
  destruct (extra_fields_are_kept browser_theme [("theme", VStr "neon")] "theme"
              [ClickPanel (Some ix_font_inc)] (Some ix_spacing))
    as (_ & _ & H3 & _ & _ & H6).
  - vm_compute. reflexivity.
  - reflexivity.
  - discriminate.
  - simpl. intros H. repeat (destruct H as [H | H]; [discriminate H|]). exact H.
  - intros id key Hin. simpl in Hin.
    repeat (destruct Hin as [Hin | Hin];
            [injection Hin as <- <-; exists false; vm_compute; reflexivity|]).
    contradiction.
  - apply Forall_cons. split; [discriminate | apply Forall_nil_2].
  - discriminate.
  - split; [exact H3|].
    destruct (H6 eq_refl eq_refl) as (t & Ht & H). injection Ht as <-.
    apply H. intros Heq. apply (f_equal (fun st => st_items st !! storage_key)) in Heq.
    vm_compute in Heq. discriminate Heq.
Defined.

(* ===================================================================== *)
(** * The further theorems at concrete pages                               *)
(* ===================================================================== *)

Lemma root_follows_record_witness :
  root_shows (html (run (load fresh_browser) some_clicks))
    (prefs (run (load fresh_browser) some_clicks)).
Proof.
  apply (root_follows_record fresh_browser some_clicks).
  - split; [exists 0 | exists "normal"]; split;
      [vm_compute; reflexivity | lia | vm_compute; reflexivity | simpl; tauto].
  - intros id key Hin. simpl in Hin.
    repeat (destruct Hin as [Hin | Hin];
            [injection Hin as <- <-; exists false; vm_compute; reflexivity|]).
    contradiction.
Defined.


Lemma reopened_panel_is_hidden_witness :
  panelOpen (run open_page close_reopen) = true
  /\ p_hidden (panel (run open_page close_reopen)) = true.
Proof.
  destruct (reopened_panel_is_hidden open_page) as ((H1 & _ & H3) & _).
  - vm_compute. reflexivity.
  - split; [exact H1 | exact H3].
Defined.


Lemma reload_restores_the_record_witness :
  prefs (load (browser_after some_clicks)) = prefs (run (load fresh_browser) some_clicks).
Proof.
  apply (reload_restores_the_record fresh_browser (browser_after some_clicks) some_clicks
           default_record).
  - split; [simpl; lia | simpl; tauto].
  - vm_compute. reflexivity.
  - split; [reflexivity|]. apply Nat.leb_le. vm_compute. reflexivity.
  - reflexivity.
Defined.

Lemma contrast_grid_follows_record_witness :
  exists i btn, p_buttons (panel (run (load fresh_browser) some_clicks)) !! i = Some btn
    /\ b_action btn = Some "contrast" /\ b_value btn = Some "dark".
Proof.
  destruct (contrast_grid_follows_record fresh_browser some_clicks "dark") as [_ H].
  - intros id key Hin. simpl in Hin.
    repeat (destruct Hin as [Hin | Hin];
            [injection Hin as <- <-; exists false; vm_compute; reflexivity|]).
    contradiction.
  - vm_compute. reflexivity.
  - apply H. simpl. tauto.
Defined.

Lemma narration_follows_record_witness :
  get_prop "readerEnabled" (prefs (run (load fresh_browser) [ClickPanel (Some ix_reader)]))
  = VBool (readerActive (run (load fresh_browser) [ClickPanel (Some ix_reader)])).
Proof.
  destruct (narration_follows_record fresh_browser [ClickPanel (Some ix_reader)])
    as (_ & H & _).
  - intros id key Hin. simpl in Hin.
    repeat (destruct Hin as [Hin | Hin];
            [injection Hin as <- <-; exists false; vm_compute; reflexivity|]).
    contradiction.
  - exact H.
Defined.

Lemma reset_restores_the_defaults_witness :
  prefs (panel_click_handler (Some ix_reset) (run (load fresh_browser) some_clicks))
  = defaults.
Proof.
  apply (reset_restores_the_defaults (run (load fresh_browser) some_clicks) EmptyString).
  - vm_compute. reflexivity.
  - vm_compute. reflexivity.
Defined.

Lemma clicks_that_undo_each_other_witness :
  prefs (panel_click_handler (Some ix_font_dec)
           (panel_click_handler (Some ix_font_inc) (run (load fresh_browser) some_clicks)))
  = prefs (run (load fresh_browser) some_clicks).
Proof.
  destruct (clicks_that_undo_each_other fresh_browser some_clicks) as [H _].
  - split; [exists 0 | exists "normal"]; split;
      [vm_compute; reflexivity | lia | vm_compute; reflexivity | simpl; tauto].
  - intros id key Hin. simpl in Hin.
    repeat (destruct Hin as [Hin | Hin];
            [injection Hin as <- <-; exists false; vm_compute; reflexivity|]).
    contradiction.
  - destruct (H 1) as ((H1 & _) & _).
    + vm_compute. reflexivity.
    + lia.
    + exact H1.
Defined.




Lemma add_to_cart_counts_up_witness :
  cart_count (fst (add_to_cart None (sample_cart, load fresh_browser))) = Some (pretty 4).
Proof.
  destruct (add_to_cart_counts_up None sample_cart (load fresh_browser)) as [H _].
  destruct (H "3") as [H1 _].
  - reflexivity.
  - vm_compute. reflexivity.
  - exact H1.
Defined.

Lemma every_click_counts_twice_witness :
  fst (clicks_add_to_cart both_scripts [None; Some "Arduino Uno"]
         (mkCart (Some "3") (Some None), load fresh_browser))
  = mkCart (Some (pretty (3 + 2 * 2))) (relabel (Some None) (3 + 2 * 2)).
Proof.
  destruct (every_click_counts_twice [None; Some "Arduino Uno"] "3" (Some None)
              (load fresh_browser)) as [H _].
  - discriminate.
  - vm_compute. reflexivity.
  - exact H.
Defined.

Lemma cart_click_is_announced_witness :
  notificationArea
    (animation_frame
       (snd (click_add_to_cart both_scripts (Some " Arduino Uno ")
               (sample_cart, load fresh_browser))))
  = Some (cart_message (productName (Some " Arduino Uno "))).
Proof.
  destruct (cart_click_is_announced (Some " Arduino Uno ") sample_cart (load fresh_browser)
              EmptyString) as (_ & _ & _ & _ & H & _).
  - vm_compute. reflexivity.
  - vm_compute. reflexivity.
  - exact H.
Defined.

Lemma menu_button_tells_state_witness :
  menu_tells "Cerrar menú de navegación" "Abrir menú de navegación"
    (fold_left menu_step_first [MenuClick; MenuKey "Escape"; MenuClick] closed_menu).
Proof.
  destruct (menu_button_tells_state closed_menu [MenuClick; MenuKey "Escape"; MenuClick])
    as (_ & _ & H & _).
  apply H. split; reflexivity.
Defined.

Lemma menu_button_cannot_open_the_menu_witness :
  menu_open (fold_left menu_step_both [MenuClick; MenuKey "Escape"; MenuClick] closed_menu)
  = false.
Proof.
  destruct (menu_button_cannot_open_the_menu closed_menu
              [MenuClick; MenuKey "Escape"; MenuClick]) as (_ & _ & _ & H).
  apply H. reflexivity.
Defined.

Lemma current_link_is_the_last_section_in_view_witness :
  snd (observer_callback sample_entries sample_links) = true
  /\ Forall2 (marked "ofertas") sample_links
       (fst (observer_callback sample_entries sample_links)).
Proof.
  destruct (current_link_is_the_last_section_in_view sample_entries sample_links)
    as (H1 & H2 & _).
  - repeat constructor; eexists; reflexivity.
  - split; [exact H1 | exact H2].
Defined.

Lemma reader_toggle_switches_the_narration_witness :
  readerActive (panel_click_handler (Some ix_reader) (load fresh_browser)) = negb false
  /\ synth (panel_click_handler (Some ix_reader) (load fresh_browser))
     = Some [{| u_text := onboarding; u_lang := "es-ES"; u_rate := 95 |}].
Proof.
  destruct (reader_toggle_switches_the_narration (load fresh_browser) false [])
    as (_ & _ & H3 & _ & _ & H6 & _).
  - vm_compute. reflexivity.
  - vm_compute. reflexivity.
  - reflexivity.
  - split; [exact H3 | exact H6].
Defined.
